(** * Cryer: session orchestration, schedule runtime and removal monitor

    A shallow embedding of the scheduling core of Cryer (server.js,
    lib/scheduler.js, lib/store.js, lib/reddit.js and the merge helper of
    cli/cryerctl.mjs), with the properties of its specification.

    Conventions of the embedding.
    - JavaScript numbers that hold epoch times, delays and day counts are
      integers ([Z]); all of them stay far below 2^53, where doubles are exact.
    - An optional JSON field is an [option]; JavaScript truthiness of such a
      field is written out ([truthy]).
    - The JSON documents of the data directory form the [Store]; a whole
      document is read and written at once, as [readJSON]/[writeJSON] do.
    - The outside world (clock, random ids, Reddit, the notification hook) is
      an [Env] of oracles; every external call is appended to a trace, so that
      "no call was made" is a statement about the trace.
    - Writes to the log file are not modelled. *)

From Stdlib Require Import ZArith String Ascii Bool List Lia.
From stdpp Require Import base option list gmap strings pretty.

Open Scope string_scope.
Open Scope Z_scope.

(* ===================================================================== *)
(** ** JavaScript strings and truthiness                                  *)
(* ===================================================================== *)

Module Js.

(** [!!s] for a field that is either absent or a string: absent and the
    empty string are falsy. *)
Definition truthy (s : option string) : bool :=
  match s with
  | Some s => negb (String.eqb s "")
  | None => false
  end.

(** [!!n] for a number: zero is falsy. *)
Definition truthyZ (n : Z) : bool := negb (Z.eqb n 0).

(** [a || b] on optional strings. *)
Definition or_else (a b : option string) : option string :=
  if truthy a then a else b.

(** [String.prototype.includes]: [needle] occurs in [hay]. *)
Fixpoint includes (hay needle : string) : bool :=
  String.prefix needle hay ||
  match hay with
  | EmptyString => false
  | String _ rest => includes rest needle
  end.

(** [toLowerCase] on the ASCII letters. *)
Definition lower_ascii (c : ascii) : ascii :=
  let n := nat_of_ascii c in
  if ((65 <=? n)%nat && (n <=? 90)%nat)%bool then ascii_of_nat (n + 32) else c.

Fixpoint toLowerCase (s : string) : string :=
  match s with
  | EmptyString => EmptyString
  | String c rest => String (lower_ascii c) (toLowerCase rest)
  end.

(** [Math.ceil (a / b)] for a positive divisor. *)
Definition ceil_div (a b : Z) : Z := - ((- a) / b).

(** [Math.floor (a / b)] for a positive divisor. *)
Definition floor_div (a b : Z) : Z := a / b.

End Js.

(* ===================================================================== *)
(** ** Data model (the JSON documents)                                    *)
(* ===================================================================== *)

(** A post template: [{type, title, body, url, flair_id, flair_text}]. *)
Record Post := mkPost {
  p_type : option string;
  p_title : option string;
  p_body : option string;
  p_url : option string;
  p_flair_id : option string;
  p_flair_text : option string
}.

(** [cfg.defaults]: [{title, invite, body}]. *)
Record Defaults := mkDefaults {
  d_title : option string;
  d_invite : option string;
  d_body : option string
}.

(** [rules]: [cooldownDays] is [None] when the field is absent or not a
    finite number; [requirePermanentInvite] is [None] when absent. *)
Record Rules := mkRules {
  cooldownDays : option Z;
  requirePermanentInvite : option bool
}.

(** An entry of [subreddits.json]. *)
Record SubEntry := mkSubEntry {
  e_key : option string;
  e_subreddit : string;
  e_rules : option Rules;
  e_post : option Post
}.

(** [server.json]. *)
Record ServerConfig := mkServerConfig {
  c_key : string;
  c_name : string;
  lastAdAt : Z;
  c_defaults : option Defaults
}.

Inductive Status := Live | Removed | Expired | Unknown.

Record Removal := mkRemoval {
  r_category : string;
  r_checkedUtc : Z
}.

(** An entry of [posted.json]. *)
Record PostedRecord := mkPosted {
  rec_id : option string;
  rec_subreddit : string;
  rec_serverKey : string;
  rec_createdUtc : option Z;
  rec_status : Status;
  rec_removal : option Removal
}.

(** An entry of [schedules.json]. *)
Record Schedule := mkSchedule {
  s_id : string;
  s_serverKey : string;
  s_whenMs : Z;
  s_reason : string;
  s_createdMs : Z;
  s_attemptCount : option Z;
  s_lastAttemptMs : option Z;
  s_lastError : option string
}.

(** An entry of [servers.json], after the normalisation of [listServers]. *)
Record ServerRef := mkServerRef {
  sr_key : string;
  sr_name : string
}.

(** The documents of one server directory. *)
Record ServerFiles := mkServerFiles {
  f_cfg : ServerConfig;
  f_subs : list SubEntry;
  f_cooldowns : gmap string Z;
  f_posted : list PostedRecord
}.

(** The data directory: [servers.json], the server directories that exist,
    and [schedules.json]. *)
Record Store := mkStore {
  st_index : list ServerRef;
  st_servers : gmap string ServerFiles;
  st_schedules : list Schedule
}.

(* ===================================================================== *)
(** ** Merging server defaults into a post                                *)
(* ===================================================================== *)

Definition type_is (p : Post) (t : string) : bool :=
  match p_type p with
  | Some s => String.eqb s t
  | None => false
  end.

Definition set_title (p : Post) (v : option string) : Post :=
  mkPost (p_type p) v (p_body p) (p_url p) (p_flair_id p) (p_flair_text p).
Definition set_body (p : Post) (v : option string) : Post :=
  mkPost (p_type p) (p_title p) v (p_url p) (p_flair_id p) (p_flair_text p).
Definition set_url (p : Post) (v : option string) : Post :=
  mkPost (p_type p) (p_title p) (p_body p) v (p_flair_id p) (p_flair_text p).

(** The text of a string field in a template literal or concatenation. *)
Definition text_of (s : option string) : string := default "" s.

(** The body shared by [withServerDefaults] (server.js) and [mergeDefaults]
    (cryerctl.mjs) once the defaults record [d] is known; each [let] is one
    statement of the source. *)
Definition merge_with (d : Defaults) (post : Post) : Post :=
  let out := post in
  let out := if negb (Js.truthy (p_title out)) && Js.truthy (d_title d)
             then set_title out (d_title d) else out in
  if type_is out "self" then
    let out := if negb (Js.truthy (p_body out)) && Js.truthy (d_body d)
               then set_body out (d_body d) else out in
    let out := if Js.truthy (d_invite d) && Js.truthy (p_body out)
                  && negb (Js.includes (text_of (p_body out)) (text_of (d_invite d)))
               then set_body out
                      (Some (String.append (text_of (p_body out))
                               (String.append (String "010" (String "010" "")) (text_of (d_invite d)))))
               else out in
    let out := if Js.truthy (d_invite d) && negb (Js.truthy (p_body out))
               then set_body out (d_invite d) else out in
    out
  else if type_is out "link" then
    if negb (Js.truthy (p_url out)) && Js.truthy (d_invite d)
    then set_url out (d_invite d) else out
  else out.

(** The same merge read field by field: what becomes of the title, of the
    body of a self post and of the url of a link post ([merge_with_fields]
    below proves the two readings equal). *)
Definition merged_title (d : Defaults) (title : option string) : option string :=
  if negb (Js.truthy title) && Js.truthy (d_title d) then d_title d else title.

Definition merged_body (d : Defaults) (body : option string) : option string :=
  let b1 := if negb (Js.truthy body) && Js.truthy (d_body d) then d_body d else body in
  let b2 := if Js.truthy (d_invite d) && Js.truthy b1
               && negb (Js.includes (text_of b1) (text_of (d_invite d)))
            then Some (String.append (text_of b1)
                         (String.append (String "010" (String "010" "")) (text_of (d_invite d))))
            else b1 in
  if Js.truthy (d_invite d) && negb (Js.truthy b2) then d_invite d else b2.

Definition merged_url (d : Defaults) (url : option string) : option string :=
  if negb (Js.truthy url) && Js.truthy (d_invite d) then d_invite d else url.

(** [withServerDefaults(serverKey, post)]: [d = cfg.defaults || {}]. *)
Definition no_defaults : Defaults := mkDefaults None None None.

Definition withServerDefaults (cfg : ServerConfig) (post : Post) : Post :=
  merge_with (default no_defaults (c_defaults cfg)) post.

(** [mergeDefaults(serverKey, post, providedDefaults)] of the CLI:
    the provided defaults when given, else those of the stored config, else
    those of [defaultServerConfig]. *)
Definition blank_defaults : Defaults := mkDefaults (Some "") (Some "") (Some "").

Definition mergeDefaults (cfg : ServerConfig) (post : Post)
    (providedDefaults : option Defaults) : Post :=
  let d := match providedDefaults with
           | Some d => d
           | None => default blank_defaults (c_defaults cfg)
           end in
  merge_with d post.

(* ===================================================================== *)
(** ** The outside world                                                  *)
(* ===================================================================== *)

(** A thrown JavaScript error, as the handlers read it:
    [e.message || String(e)]. *)
Record Exn := mkExn {
  exn_message : option string;
  exn_string : string
}.

Definition error_text (e : Exn) : string :=
  if Js.truthy (exn_message e) then text_of (exn_message e) else exn_string e.

(** The argument object of [submitPost]. *)
Record SubmitArgs := mkSubmitArgs {
  sa_sr : string;
  sa_kind : string;
  sa_title : option string;
  sa_text : option string;
  sa_url : option string;
  sa_flair_id : option string;
  sa_flair_text : option string
}.

(** [resp.json] of a successful submit: [{id, name, url}]. *)
Record SubmitData := mkSubmitData {
  json_id : option string;
  json_name : option string;
  json_url : option string
}.

(** The value of [resolveRecentSubmission]: [{id, permalink}]. *)
Record Resolved := mkResolved {
  res_id : option string;
  res_permalink : option string
}.

(** The listing data of a submission, as far as [classifyRemoval] reads it. *)
Record Thing := mkThing {
  removed_by_category : option string
}.

(** One outcome of the per-target loop (an element of [results]). *)
Inductive Outcome :=
| SkipCooldown (subreddit : string) (inHours : Z)
| Invalid (subreddit : string) (errors : list string)
| DryRunOk (subreddit : string) (type title url body : option string)
| Posted (subreddit : string) (id permalink : option string)
| Failed (subreddit : string) (error : string).

(** [r.status]. *)
Definition outcome_status (o : Outcome) : string :=
  match o with
  | SkipCooldown _ _ => "skip_cooldown"
  | Invalid _ _ => "invalid"
  | DryRunOk _ _ _ _ _ => "dry_run_ok"
  | Posted _ _ _ => "posted"
  | Failed _ _ => "error"
  end.


(** The payloads sent to the notification hook. *)
Inductive Payload :=
| SessionCompleted (serverKey : string) (dryRun : bool)
    (counts : gmap string Z) (details : list Outcome)
| PostRemoved (serverKey subreddit : string) (id : option string) (category : string).

(** External calls, in the order they are made. *)
Inductive Event :=
| EvGetToken
| EvSubmitPost (token : option string) (args : SubmitArgs)
| EvRateLimitPause
| EvResolveRecentSubmission (subreddit : string) (title : option string)
| EvFetchSubmissionInfo (id : string)
| EvNotifySquire (type : string) (payload : Payload)
| EvSleep (ms : Z).

(** The answers of the outside world.  An answer may depend on every call
    made so far, so repeated calls may be answered differently. *)
Record Env := mkEnv {
  clock_at : nat -> Z;                (* the n-th reading of [Date.now()] *)
  random_hex : nat -> string;         (* [crypto.randomBytes(4).toString('hex')] *)
  base36 : Z -> string;               (* [Number.prototype.toString(36)] *)
  getToken_result : list Event -> Exn + option string;
  submitPost_result : list Event -> option string -> SubmitArgs -> Exn + SubmitData;
  resolveRecent_result : list Event -> string -> option string -> Exn + option Resolved;
  fetchSubmissionInfo_result : list Event -> string -> Exn + option Thing
}.

(** What a handler runs against: the data directory, the calls made so far
    and the number of clock readings taken. *)
Record World := mkWorld {
  w_store : Store;
  w_trace : list Event;
  w_reads : nat
}.

(** A computation of the handlers: state passing over the world. *)
Definition M (A : Type) : Type := World -> A * World.

Definition ret {A} (a : A) : M A := fun w => (a, w).

Definition bind {A B} (m : M A) (k : A -> M B) : M B :=
  fun w => let (a, w1) := m w in k a w1.

Notation "x <- m ;; k" := (bind m (fun x => k))
  (at level 100, m at next level, right associativity).
Notation "m ;;; k" := (bind m (fun _ => k))
  (at level 100, right associativity).

Definition get_store : M Store := fun w => (w_store w, w).

Definition put_store (st : Store) : M unit :=
  fun w => (tt, mkWorld st (w_trace w) (w_reads w)).

Definition emit (ev : Event) : M unit :=
  fun w => (tt, mkWorld (w_store w) (w_trace w ++ [ev]) (w_reads w)).

Definition get_trace : M (list Event) := fun w => (w_trace w, w).

Section Effects.

Variable E : Env.

(** [Date.now()]. *)
Definition Date_now : M Z :=
  fun w => (clock_at E (w_reads w), mkWorld (w_store w) (w_trace w) (S (w_reads w))).

(** [crypto.randomBytes(4).toString('hex')]. *)
Definition randomHex : M string :=
  fun w => (random_hex E (w_reads w), w).

(** [await getToken()]. *)
Definition getToken : M (Exn + option string) :=
  tr <- get_trace ;; emit EvGetToken ;;; ret (getToken_result E tr).

(** [await submitPost(token, args)]. *)
Definition submitPost (token : option string) (args : SubmitArgs) : M (Exn + SubmitData) :=
  tr <- get_trace ;; emit (EvSubmitPost token args) ;;;
  ret (submitPost_result E tr token args).

(** [await rateLimitPause(resp)]: swallows its own errors. *)
Definition rateLimitPause : M unit := emit EvRateLimitPause.

(** [await resolveRecentSubmission(subreddit, title)]. *)
Definition resolveRecentSubmission (subreddit : string) (title : option string)
    : M (Exn + option Resolved) :=
  tr <- get_trace ;; emit (EvResolveRecentSubmission subreddit title) ;;;
  ret (resolveRecent_result E tr subreddit title).

(** [await fetchSubmissionInfo(id)]. *)
Definition fetchSubmissionInfo (id : string) : M (Exn + option Thing) :=
  tr <- get_trace ;; emit (EvFetchSubmissionInfo id) ;;;
  ret (fetchSubmissionInfo_result E tr id).

(** [await notifySquire(type, payload)]: best effort, never throws. *)
Definition notifySquire (type : string) (payload : Payload) : M unit :=
  emit (EvNotifySquire type payload).

(** [await sleep(ms)]. *)
Definition sleep (ms : Z) : M unit := emit (EvSleep ms).

End Effects.

(* ===================================================================== *)
(** ** lib/store.js                                                       *)
(* ===================================================================== *)

Module StoreOps.

(** [defaultServerConfig(serverKey, name = serverKey)]. *)
Definition defaultServerConfig (serverKey : string) : ServerConfig :=
  mkServerConfig serverKey serverKey 0 (Some blank_defaults).

(** What [readJSON] falls back to when a server directory has no documents. *)
Definition no_files (serverKey : string) : ServerFiles :=
  mkServerFiles (defaultServerConfig serverKey) [] ∅ [].

Definition files_of (st : Store) (serverKey : string) : ServerFiles :=
  default (no_files serverKey) (st_servers st !! serverKey).

Definition set_files (st : Store) (serverKey : string) (f : ServerFiles) : Store :=
  mkStore (st_index st) (<[serverKey := f]> (st_servers st)) (st_schedules st).

(** [fs.existsSync(serverDir)]. *)
Definition serverDirExists (st : Store) (serverKey : string) : bool :=
  bool_decide (is_Some (st_servers st !! serverKey)).

(** [listServers(dataDir)]. *)
Definition listServers (st : Store) : list ServerRef := st_index st.

(** [readServerConfig(dataDir, serverKey)]. *)
Definition readServerConfig (st : Store) (serverKey : string) : ServerConfig :=
  f_cfg (files_of st serverKey).

(** [writeServerConfig(dataDir, serverKey, cfg)]. *)
Definition writeServerConfig (st : Store) (serverKey : string) (cfg : ServerConfig) : Store :=
  let f := files_of st serverKey in
  set_files st serverKey (mkServerFiles cfg (f_subs f) (f_cooldowns f) (f_posted f)).

(** [updateServerLastAdAt(dataDir, serverKey, whenMs)]. *)
Definition updateServerLastAdAt (st : Store) (serverKey : string) (whenMs : Z) : Store :=
  let cfg := readServerConfig st serverKey in
  writeServerConfig st serverKey
    (mkServerConfig (c_key cfg) (c_name cfg) whenMs (c_defaults cfg)).

(** [readJSON(subsPath, [])] and [readJSON(cooldownPath, {})]. *)
Definition readSubs (st : Store) (serverKey : string) : list SubEntry :=
  f_subs (files_of st serverKey).
Definition readCooldowns (st : Store) (serverKey : string) : gmap string Z :=
  f_cooldowns (files_of st serverKey).

(** [writeJSON(cooldownPath, cooldowns)]. *)
Definition writeCooldowns (st : Store) (serverKey : string) (cds : gmap string Z) : Store :=
  let f := files_of st serverKey in
  set_files st serverKey (mkServerFiles (f_cfg f) (f_subs f) cds (f_posted f)).

(** [listPostedRecords], [writePostedRecords], [appendPostedRecord]. *)
Definition listPostedRecords (st : Store) (serverKey : string) : list PostedRecord :=
  f_posted (files_of st serverKey).

Definition writePostedRecords (st : Store) (serverKey : string)
    (l : list PostedRecord) : Store :=
  let f := files_of st serverKey in
  set_files st serverKey (mkServerFiles (f_cfg f) (f_subs f) (f_cooldowns f) l).

Definition appendPostedRecord (st : Store) (serverKey : string)
    (record : PostedRecord) : Store :=
  let l := listPostedRecords st serverKey in
  writePostedRecords st serverKey (l ++ [record]).

(** [listSchedules(dataDir)]. *)
Definition listSchedules (st : Store) : list Schedule := st_schedules st.

Definition set_schedules (st : Store) (l : list Schedule) : Store :=
  mkStore (st_index st) (st_servers st) l.

(** [list.findIndex(s => s.id === id)]. *)
Fixpoint findIndex (id : string) (l : list Schedule) : option nat :=
  match l with
  | [] => None
  | s :: rest => if String.eqb (s_id s) id then Some O
                 else option_map S (findIndex id rest)
  end.

(** The [updates] object of [updateSchedule], as the runner builds it. *)
Record ScheduleUpdates := mkUpdates {
  u_whenMs : Z;
  u_attemptCount : Z;
  u_lastAttemptMs : Z;
  u_lastError : string
}.

(** [{ ...list[ix], ...updates }]. *)
Definition apply_updates (s : Schedule) (u : ScheduleUpdates) : Schedule :=
  mkSchedule (s_id s) (s_serverKey s) (u_whenMs u) (s_reason s) (s_createdMs s)
    (Some (u_attemptCount u)) (Some (u_lastAttemptMs u)) (Some (u_lastError u)).

(** [updateSchedule(dataDir, id, updates)]: the store afterwards and the
    updated entry, [None] for JavaScript's [null]. *)
Definition updateSchedule (st : Store) (id : string) (u : ScheduleUpdates)
    : Store * option Schedule :=
  let l := listSchedules st in
  match findIndex id l with
  | None => (st, None)
  | Some ix =>
      match l !! ix with
      | None => (st, None)
      | Some s =>
          let next := apply_updates s u in
          (set_schedules st (<[ix := next]> l), Some next)
      end
  end.

(** [removeSchedule(dataDir, id)]. *)
Definition removeSchedule (st : Store) (id : string) : Store :=
  set_schedules st
    (List.filter (fun s => negb (String.eqb (s_id s) id)) (listSchedules st)).

Section WithEnv.

Variable E : Env.

(** [addSchedule(dataDir, { serverKey, whenMs, reason })]. *)
Definition addSchedule (serverKey : string) (whenMs : Z) (reason : string) : M Schedule :=
  t <- Date_now E ;;
  r <- randomHex E ;;
  let id := String.append (base36 E t) (String.append "-" r) in
  createdMs <- Date_now E ;;
  let entry := mkSchedule id serverKey whenMs reason createdMs None None None in
  st <- get_store ;;
  put_store (set_schedules st (listSchedules st ++ [entry])) ;;;
  ret entry.

End WithEnv.

End StoreOps.

(* ===================================================================== *)
(** ** server.js: the advertise session                                   *)
(* ===================================================================== *)

Module Server.

Import StoreOps.

Definition SERVER_ROLLING_WINDOW_MS : Z := 24 * 3600 * 1000.

(** The body of [POST /v1/advertise]. *)
Record AdvertiseReq := mkReq {
  rq_serverKey : option string;
  rq_dryRun : bool;
  rq_autoScheduleIfThrottled : bool
}.

(** What the handler answers: [res.status(code).json({error})], the
    throttled answer, the results of a completed session, or an error that
    escapes the handler. *)
Inductive Response :=
| RespError (code : Z) (error : string)
| RespThrottled (throttleUntil : Z) (scheduled : option Schedule)
| RespResults (results : list Outcome)
| RespThrown (e : Exn).

(** The server-level throttle test:
    [lastAdAt && (nowMs - lastAdAt) < SERVER_ROLLING_WINDOW_MS]. *)
Definition throttled (lastAdAt nowMs : Z) : bool :=
  Js.truthyZ lastAdAt && (nowMs - lastAdAt <? SERVER_ROLLING_WINDOW_MS).

(** *** Cooldown gate *)

(** [entry.key || subreddit]. *)
Definition cooldownKey (entry : SubEntry) : string :=
  if Js.truthy (e_key entry) then text_of (e_key entry) else e_subreddit entry.

(** [entry.rules || {}]. *)
Definition rules_of (entry : SubEntry) : Rules :=
  default (mkRules None None) (e_rules entry).

(** [Number.isFinite(rules.cooldownDays) ? rules.cooldownDays : 1]. *)
Definition cadenceDays (rules : Rules) : Z := default 1 (cooldownDays rules).

(** [cooldowns[key] || 0]. *)
Definition lastSuccess (cooldowns : gmap string Z) (key : string) : Z :=
  default 0 (cooldowns !! key).

(** [waitMs = days * 24 * 3600000 - (now - last)]. *)
Definition waitMs (rules : Rules) (cooldowns : gmap string Z) (key : string) (now : Z) : Z :=
  let days := cadenceDays rules in
  let cdMs := days * 24 * 3600000 in
  let last := lastSuccess cooldowns key in
  cdMs - (now - last).

(** *** Validation *)

(** [/(discord\.gg|discord\.com\/invite)\//i.test(s)]. *)
Definition has_invite (s : string) : bool :=
  let l := Js.toLowerCase s in
  Js.includes l "discord.gg/" || Js.includes l "discord.com/invite/".

Definition validate (rules : Rules) (post : Post) : list string :=
  let inviteRequired := negb (bool_decide (requirePermanentInvite rules = Some false)) in
  (if negb (Js.truthy (p_title post)) then ["title is required"] else []) ++
  (if type_is post "self" then
     (if negb (Js.truthy (p_body post)) then ["body is required for self posts"] else []) ++
     (if inviteRequired && Js.truthy (p_body post) && negb (has_invite (text_of (p_body post)))
      then ["permanent invite link required in body"] else [])
   else if type_is post "link" then
     (if negb (Js.truthy (p_url post)) then ["url is required for link posts"] else []) ++
     (if inviteRequired && Js.truthy (p_url post) && negb (has_invite (text_of (p_url post)))
      then ["permanent invite link required as link URL"] else [])
   else ["unsupported post type"]).

(** *** Publishing *)

(** [entry.post || { type: 'self', title: '', body: '' }]. *)
Definition fallback_post : Post :=
  mkPost (Some "self") (Some "") (Some "") None None None.

Definition submitArgs (subreddit : string) (post : Post) : SubmitArgs :=
  mkSubmitArgs subreddit
    (if type_is post "link" then "link" else "self")
    (p_title post)
    (if type_is post "self" then p_body post else None)
    (if type_is post "link" then p_url post else None)
    (p_flair_id post) (p_flair_text post).

(** [name.replace(/^t3_/, '')]. *)
Definition strip_t3 (name : string) : string :=
  if String.prefix "t3_" name
  then String.substring 3 (String.length name - 3) name else name.

(** [x || null]. *)
Definition or_null (x : option string) : option string :=
  if Js.truthy x then x else None.

(** [resp?.json?.id || resp?.json?.name?.replace(/^t3_/, '') || null]. *)
Definition response_id (data : SubmitData) : option string :=
  or_null (Js.or_else (json_id data) (option_map strip_t3 (json_name data))).

(** [resp?.json?.url || null]. *)
Definition response_permalink (data : SubmitData) : option string :=
  or_null (json_url data).

(** The variables of the loop: the in-memory [cooldowns] object, [results]
    and [postedCount]. *)
Record LoopState := mkLoop {
  ls_cooldowns : gmap string Z;
  ls_results : list Outcome;
  ls_postedCount : Z
}.

Definition push (ls : LoopState) (o : Outcome) : LoopState :=
  mkLoop (ls_cooldowns ls) (ls_results ls ++ [o]) (ls_postedCount ls).

Section WithEnv.

Variable E : Env.

(** The [catch (e)] block of the loop body. *)
Definition on_error (subreddit : string) (ls : LoopState) (e : Exn) : M LoopState :=
  sleep 1000 ;;; ret (push ls (Failed subreddit (error_text e))).

(** The [try] block after [submitPost] has returned [data]. *)
Definition on_submitted (serverKey : string) (entry : SubEntry) (post : Post)
    (data : SubmitData) (ls : LoopState) : M LoopState :=
  let subreddit := e_subreddit entry in
  rateLimitPause ;;;
  t <- Date_now E ;;
  let ls := mkLoop (<[cooldownKey entry := t]> (ls_cooldowns ls))
              (ls_results ls) (ls_postedCount ls) in
  st <- get_store ;;
  put_store (writeCooldowns st serverKey (ls_cooldowns ls)) ;;;
  let id := response_id data in
  let permalink := response_permalink data in
  r <- (if negb (Js.truthy id) || negb (Js.truthy permalink)
        then resolveRecentSubmission E subreddit (p_title post)
        else ret (inr None)) ;;
  match r with
  | inl e => on_error subreddit ls e
  | inr resolved =>
      let id := match resolved with
                | Some res => Js.or_else (res_id res) id
                | None => id
                end in
      let permalink := match resolved with
                       | Some res => Js.or_else (res_permalink res) permalink
                       | None => permalink
                       end in
      (if Js.truthy id
       then c <- Date_now E ;;
            st <- get_store ;;
            put_store (appendPostedRecord st serverKey
                         (mkPosted id subreddit serverKey
                            (Some (Js.floor_div c 1000)) Live None))
       else ret tt) ;;;
      ret (mkLoop (ls_cooldowns ls)
             (ls_results ls ++ [Posted subreddit id permalink])
             (ls_postedCount ls + 1))
  end.

(** One iteration of [for (const entry of subs)]. *)
Definition processTarget (serverKey : string) (dryRun : bool) (token : option string)
    (entry : SubEntry) (ls : LoopState) : M LoopState :=
  let subreddit := e_subreddit entry in
  let rules := rules_of entry in
  st <- get_store ;;
  let post := withServerDefaults (readServerConfig st serverKey)
                (default fallback_post (e_post entry)) in
  now <- Date_now E ;;
  let wait := waitMs rules (ls_cooldowns ls) (cooldownKey entry) now in
  if 0 <? wait then
    ret (push ls (SkipCooldown subreddit (Js.ceil_div wait 3600000)))
  else
    let errors := validate rules post in
    if negb (Nat.eqb (length errors) 0) then
      ret (push ls (Invalid subreddit errors))
    else if dryRun then
      ret (push ls (DryRunOk subreddit (p_type post) (p_title post) (p_url post) (p_body post)))
    else
      r <- submitPost E token (submitArgs subreddit post) ;;
      match r with
      | inl e => on_error subreddit ls e
      | inr data => on_submitted serverKey entry post data ls
      end.

(** [for (const entry of subs) { ... }]. *)
Fixpoint runTargets (serverKey : string) (dryRun : bool) (token : option string)
    (subs : list SubEntry) (ls : LoopState) : M LoopState :=
  match subs with
  | [] => ret ls
  | entry :: rest =>
      ls1 <- processTarget serverKey dryRun token entry ls ;;
      runTargets serverKey dryRun token rest ls1
  end.

(** [results.reduce((acc, r) => { acc[r.status] = (acc[r.status] || 0) + 1; ... }, {})]. *)
Definition count_statuses (results : list Outcome) : gmap string Z :=
  fold_left (fun acc r =>
               <[outcome_status r := default 0 (acc !! outcome_status r) + 1]> acc)
    results ∅.

Definition is_posted (o : Outcome) : bool :=
  match o with Posted _ _ _ => true | _ => false end.

(** The handler of [POST /v1/advertise], after the [auth] middleware. *)
Definition advertise (req : AdvertiseReq) : M Response :=
  let dryRun := rq_dryRun req in
  if negb (Js.truthy (rq_serverKey req)) then ret (RespError 400 "serverKey required")
  else
    let serverKey := text_of (rq_serverKey req) in
    st <- get_store ;;
    let serverCfg := readServerConfig st serverKey in
    let lastAdAt := lastAdAt serverCfg in
    nowMs <- Date_now E ;;
    if throttled lastAdAt nowMs then
      let throttleUntil := lastAdAt + SERVER_ROLLING_WINDOW_MS in
      scheduled <- (if rq_autoScheduleIfThrottled req
                    then s <- addSchedule E serverKey throttleUntil "throttled" ;; ret (Some s)
                    else ret None) ;;
      ret (RespThrottled throttleUntil scheduled)
    else if negb (serverDirExists st serverKey) then ret (RespError 404 "server not found")
    else
      let subs := readSubs st serverKey in
      let cooldowns := readCooldowns st serverKey in
      tok <- (if dryRun then ret (inr None) else getToken E) ;;
      match tok with
      | inl e => ret (RespThrown e)
      | inr token =>
          ls <- runTargets serverKey dryRun token subs (mkLoop cooldowns [] 0) ;;
          (if negb dryRun && (0 <? ls_postedCount ls)
           then t <- Date_now E ;;
                st <- get_store ;;
                put_store (updateServerLastAdAt st serverKey t)
           else ret tt) ;;;
          let results := ls_results ls in
          notifySquire "cryer.session.completed"
            (SessionCompleted serverKey dryRun (count_statuses results)
               (List.filter (fun r => negb (is_posted r)) results)) ;;;
          ret (RespResults results)
      end.

End WithEnv.

End Server.

(* ===================================================================== *)
(** ** lib/reddit.js: classifyRemoval                                     *)
(* ===================================================================== *)

Module Reddit.

Definition moderation_categories : list string :=
  ["moderator"; "automod_filtered"; "content_takedown"; "copyright_takedown"; "legal"].

(** [classifyRemoval(thing)]: the pair [{removed, category}]. *)
Definition classifyRemoval (thing : Thing) : bool * option string :=
  let cat := Js.toLowerCase (text_of (removed_by_category thing)) in
  if String.eqb cat "" then (false, None)
  else if existsb (String.eqb cat) moderation_categories then (true, Some cat)
  else if String.eqb cat "deleted" then (true, Some "deleted")
  else (true, Some cat).

End Reddit.

(* ===================================================================== *)
(** ** server.js: the removal monitor                                     *)
(* ===================================================================== *)

Module Monitor.

Import StoreOps.

Definition MONITOR_TTL_DAYS : Z := 7.

Definition set_status (rec : PostedRecord) (s : Status) : PostedRecord :=
  mkPosted (rec_id rec) (rec_subreddit rec) (rec_serverKey rec)
    (rec_createdUtc rec) s (rec_removal rec).

Definition mark_removed (rec : PostedRecord) (category : string) (now : Z) : PostedRecord :=
  mkPosted (rec_id rec) (rec_subreddit rec) (rec_serverKey rec)
    (rec_createdUtc rec) Removed (Some (mkRemoval category now)).

Definition is_live (s : Status) : bool :=
  match s with Live => true | _ => false end.

(** [now - (rec.createdUtc || now)]: the age of a record in seconds; a
    record without a creation stamp has age zero. *)
Definition age (now : Z) (rec : PostedRecord) : Z :=
  let created := match rec_createdUtc rec with
                 | Some c => if Js.truthyZ c then c else now
                 | None => now
                 end in
  now - created.

Section WithEnv.

Variable E : Env.

(** One iteration of [for (const rec of list)]: the record afterwards and
    whether [changed] was set. *)
Definition monitorRecord (key : string) (now : Z) (rec : PostedRecord)
    : M (PostedRecord * bool) :=
  if negb (is_live (rec_status rec)) then ret (rec, false)
  else if MONITOR_TTL_DAYS * 86400 <? age now rec then ret (set_status rec Expired, true)
  else if negb (Js.truthy (rec_id rec)) then ret (set_status rec Unknown, true)
  else
    r <- fetchSubmissionInfo E (text_of (rec_id rec)) ;;
    match r with
    | inl _ => ret (rec, false)
    | inr None => ret (rec, false)
    | inr (Some thing) =>
        match Reddit.classifyRemoval thing with
        | (removed, category) =>
            if removed && Js.truthy category
               && negb (String.eqb (text_of category) "deleted")
            then
              notifySquire "cryer.post.removed"
                (PostRemoved key (rec_subreddit rec) (rec_id rec) (text_of category)) ;;;
              ret (mark_removed rec (text_of category) now, true)
            else ret (rec, false)
        end
    end.

(** The inner loop over the records of one server: the list afterwards and
    the [changed] flag. *)
Fixpoint monitorRecords (key : string) (now : Z) (l : list PostedRecord)
    : M (list PostedRecord * bool) :=
  match l with
  | [] => ret ([], false)
  | rec :: rest =>
      r1 <- monitorRecord key now rec ;;
      r2 <- monitorRecords key now rest ;;
      ret (fst r1 :: fst r2, snd r1 || snd r2)
  end.

(** One iteration of [for (const s of servers)]. *)
Definition monitorServer (s : ServerRef) : M unit :=
  let key := sr_key s in
  st <- get_store ;;
  let list := listPostedRecords st key in
  t <- Date_now E ;;
  let now := Js.floor_div t 1000 in
  r <- monitorRecords key now list ;;
  if snd r
  then st <- get_store ;; put_store (writePostedRecords st key (fst r))
  else ret tt.

Fixpoint monitorServers (servers : list ServerRef) : M unit :=
  match servers with
  | [] => ret tt
  | s :: rest => monitorServer s ;;; monitorServers rest
  end.

(** [runRemovalMonitorOnce()]. *)
Definition runRemovalMonitorOnce : M unit :=
  st <- get_store ;;
  monitorServers (listServers st).

End WithEnv.

End Monitor.

(* ===================================================================== *)
(** ** The schedule runtime                                               *)
(* ===================================================================== *)

(** What [await fetch(advertiseUrl, ...)] yields: a thrown error or a
    response object ([None] for a missing one, as [response?.ok] allows),
    of which the runner reads [ok] and [status]. *)
Record HttpResponse := mkHttp {
  h_ok : bool;
  h_status : option Z
}.

Inductive FetchResult :=
| FetchThrows (e : Exn)
| FetchReturns (response : option HttpResponse).

(** The fetch implementation a tick uses; it reaches the advertise endpoint
    of this process, so it may change the world. *)
Definition FetchImpl : Type := Server.AdvertiseReq -> M FetchResult.

(** lib/scheduler.js *)
Module Scheduler.

Import StoreOps.

Definition DEFAULT_RETRY_DELAY_MS : Z := 300000.

(** [Number(schedule.attemptCount || 0) + 1]. *)
Definition next_attempt (schedule : Schedule) : Z :=
  default 0 (s_attemptCount schedule) + 1.

Definition trigger_req (schedule : Schedule) : Server.AdvertiseReq :=
  Server.mkReq (Some (s_serverKey schedule)) false false.

(** Decimal rendering of a status code in [`status ${status}`]. *)
Definition show_status (status : Z) : string :=
  String.append "status " (pretty status).

Section Runner.

Variable retryDelayMs : Z.
Variable now : Z.
Variable fetchImpl : FetchImpl.

Definition postpone (schedule : Schedule) (lastError : string) : M unit :=
  st <- get_store ;;
  put_store (fst (updateSchedule st (s_id schedule)
                    (mkUpdates (now + retryDelayMs) (next_attempt schedule) now lastError))).

(** One iteration of [for (const schedule of scheduleList)]. *)
Definition runOne (schedule : Schedule) : M unit :=
  let whenMs := s_whenMs schedule in
  if now <? whenMs then ret tt
  else
    r <- fetchImpl (trigger_req schedule) ;;
    match r with
    | FetchReturns (Some response) =>
        if h_ok response
        then st <- get_store ;; put_store (removeSchedule st (s_id schedule))
        else postpone schedule
               match h_status response with
               | None => "no response"
               | Some status => show_status status
               end
    | FetchReturns None => postpone schedule "no response"
    | FetchThrows error => postpone schedule (error_text error)
    end.

Fixpoint runAll (l : list Schedule) : M unit :=
  match l with
  | [] => ret tt
  | schedule :: rest => runOne schedule ;;; runAll rest
  end.

(** The tick returned by [createScheduleRunner]. *)
Definition runScheduleTick : M unit :=
  st <- get_store ;;
  runAll (listSchedules st).

End Runner.

End Scheduler.

(** server.js: the tick that the server process installs with
    [setInterval(runScheduleTick, SCHEDULE_TICK_MS)]. *)
Module ServerTick.

Import StoreOps.

Section Tick.

Variable E : Env.
Variable fetch : FetchImpl.

(** One iteration of [for (const s of list)]: whatever [fetch] does, the
    [finally] block removes the entry. *)
Definition runOne (now : Z) (s : Schedule) : M unit :=
  if s_whenMs s <=? now then
    r <- fetch (Server.mkReq (Some (s_serverKey s)) false false) ;;
    st <- get_store ;;
    put_store (removeSchedule st (s_id s))
  else ret tt.

Fixpoint runAll (now : Z) (l : list Schedule) : M unit :=
  match l with
  | [] => ret tt
  | s :: rest => runOne now s ;;; runAll now rest
  end.

Definition runScheduleTick : M unit :=
  now <- Date_now E ;;
  st <- get_store ;;
  runAll now (listSchedules st).

End Tick.

End ServerTick.

(* ===================================================================== *)
(** ** lib/store.js: the list of targets                                  *)
(* ===================================================================== *)

Module Registry.

(** [e.key || e.subreddit]. *)
Definition entryKey (e : SubEntry) : string :=
  if Js.truthy (e_key e) then text_of (e_key e) else e_subreddit e.

(** [list.findIndex(e => (e.key || e.subreddit) === key)]. *)
Fixpoint findIndexByKey (key : string) (l : list SubEntry) : option nat :=
  match l with
  | [] => None
  | e :: rest => if String.eqb (entryKey e) key then Some O
                 else option_map S (findIndexByKey key rest)
  end.

(** The list that [upsertSubreddit] writes back (and [enqueueTemplate], on
    the queue): [if (ix >= 0) list[ix] = entry; else list.push(entry)]. *)
Definition upsert (l : list SubEntry) (entry : SubEntry) : list SubEntry :=
  match findIndexByKey (entryKey entry) l with
  | Some ix => <[ix := entry]> l
  | None => l ++ [entry]
  end.

(** The list that [deleteSubreddit] writes back (and [dequeueTemplate]
    leaves): [list.filter(e => (e.key || e.subreddit) !== keyOrSubreddit)]. *)
Definition without (l : list SubEntry) (keyOrSubreddit : string) : list SubEntry :=
  List.filter (fun e => negb (String.eqb (entryKey e) keyOrSubreddit)) l.

End Registry.

(* ===================================================================== *)
(** ** Readings of the loop body used in the statements                   *)
(* ===================================================================== *)

Module Views.

Import StoreOps Server Monitor.

(** What one iteration records when it stops before publishing. *)
Definition gate_outcome (dryRun : bool) (cfg : ServerConfig) (cooldowns : gmap string Z)
    (now : Z) (entry : SubEntry) : option Outcome :=
  let post := withServerDefaults cfg (default fallback_post (e_post entry)) in
  let wait := waitMs (rules_of entry) cooldowns (cooldownKey entry) now in
  let errors := validate (rules_of entry) post in
  if 0 <? wait then Some (SkipCooldown (e_subreddit entry) (Js.ceil_div wait 3600000))
  else if negb (Nat.eqb (length errors) 0) then Some (Invalid (e_subreddit entry) errors)
  else if dryRun
       then Some (DryRunOk (e_subreddit entry) (p_type post) (p_title post) (p_url post) (p_body post))
       else None.

(** The id and permalink a successful submission ends up with. *)
Definition final_id (data : SubmitData) (resolved : option Resolved) : option string :=
  match resolved with
  | Some res => Js.or_else (res_id res) (response_id data)
  | None => response_id data
  end.

Definition final_permalink (data : SubmitData) (resolved : option Resolved) : option string :=
  match resolved with
  | Some res => Js.or_else (res_permalink res) (response_permalink data)
  | None => response_permalink data
  end.

Definition needs_lookup (data : SubmitData) : bool :=
  negb (Js.truthy (response_id data)) || negb (Js.truthy (response_permalink data)).


(** What a session may do to the data directory while it walks the targets:
    the index, the schedules and every server configuration stay, and the
    posted lists only grow, by live records. *)
Definition posted_grows (st st' : Store) : Prop :=
  forall k, exists added,
    listPostedRecords st' k = (listPostedRecords st k ++ added)%list /\
    Forall (fun r => rec_status r = Live) added.

Definition loop_frame (st st' : Store) : Prop :=
  st_index st' = st_index st /\
  st_schedules st' = st_schedules st /\
  (forall k, readServerConfig st' k = readServerConfig st k) /\
  posted_grows st st'.

(** [postedCount] counts the [posted] outcomes. *)
Definition counted (ls : LoopState) : Prop :=
  0 < ls_postedCount ls -> Exists (fun o => is_posted o = true) (ls_results ls).

(** The test [removed && category && category !== 'deleted'] of the monitor. *)
Definition escalates (thing : Thing) : bool :=
  let cat := Js.toLowerCase (text_of (removed_by_category thing)) in
  negb (String.eqb cat "") && negb (String.eqb cat "deleted").

(** What can write [posted.json] while the server runs. *)
Inductive Activity :=
| MonitorTick
| AdvertiseSession (req : AdvertiseReq).

Definition perform (E : Env) (a : Activity) (w : World) : World :=
  match a with
  | MonitorTick => snd (runRemovalMonitorOnce E w)
  | AdvertiseSession req => snd (advertise E req w)
  end.

Definition perform_all (E : Env) (acts : list Activity) (w : World) : World :=
  fold_left (fun w a => perform E a w) acts w.



(** The calls of a monitor pass, if any, begin with a lookup. *)
Definition fetch_led (evs : list Event) : Prop :=
  match evs with
  | [] | EvFetchSubmissionInfo _ :: _ => True
  | _ => False
  end.

(** A record the monitor asks the platform about: live, within the TTL at
    time [now], known under the id [pid]. *)
Definition watched (now : Z) (rec : PostedRecord) (pid : string) : Prop :=
  rec_status rec = Live /\ rec_id rec = Some pid /\
  ~ MONITOR_TTL_DAYS * 86400 < age now rec.

(** A fetch that leaves [schedules.json] alone when the request does not
    ask for a throttle schedule, which is how both ticks call it. *)
Definition keeps_schedules (fetch : FetchImpl) : Prop :=
  forall req w,
    rq_autoScheduleIfThrottled req = false ->
    st_schedules (w_store (snd (fetch req w))) = st_schedules (w_store w).

(** The fetch that reaches the advertise handler of this process; [answer]
    is what the HTTP layer makes of the handler's result. *)
Definition via_endpoint (E : Env) (answer : Server.Response -> FetchResult) : FetchImpl :=
  fun req w => let (resp, w') := Server.advertise E req w in (answer resp, w').

(** An entry of [l] that is due at [now] carries the id of [x]. *)
Definition due_with_id (now : Z) (l : list Schedule) (x : Schedule) : bool :=
  existsb (fun s => (s_whenMs s <=? now) && String.eqb (s_id s) (s_id x)) l.

(** The entry a failed attempt leaves behind. *)
Definition retried (retryDelayMs now : Z) (s : Schedule) (lastError : string) : Schedule :=
  apply_updates s (mkUpdates (now + retryDelayMs) (Scheduler.next_attempt s) now lastError).

(** What the runner notes as [lastError] of an answer that is not [ok];
    [None] for an [ok] answer. *)
Definition noted (answer : FetchResult) : option string :=
  match answer with
  | FetchReturns (Some response) =>
      if h_ok response then None
      else Some match h_status response with
                | None => "no response"
                | Some status => Scheduler.show_status status
                end
  | FetchReturns None => Some "no response"
  | FetchThrows error => Some (error_text error)
  end.

(** What handling one entry does to the list, by the answer to its call. *)
Inductive handled (retryDelayMs now : Z) (fetchImpl : FetchImpl) (s : Schedule)
    (cur cur1 : list Schedule) : Prop :=
| handled_waiting :
    now < s_whenMs s -> cur1 = cur -> handled retryDelayMs now fetchImpl s cur cur1
| handled_done w0 :
    s_whenMs s <= now ->
    noted (fst (fetchImpl (Scheduler.trigger_req s) w0)) = None ->
    cur1 = List.filter (fun x => negb (String.eqb (s_id x) (s_id s))) cur ->
    handled retryDelayMs now fetchImpl s cur cur1
| handled_retry w0 i lastError :
    s_whenMs s <= now ->
    noted (fst (fetchImpl (Scheduler.trigger_req s) w0)) = Some lastError ->
    cur !! i = Some s ->
    cur1 = <[i := retried retryDelayMs now s lastError]> cur ->
    handled retryDelayMs now fetchImpl s cur cur1.

(** [rules.requirePermanentInvite !== false]. *)
Definition inviteRequired (rules : Rules) : bool :=
  negb (bool_decide (requirePermanentInvite rules = Some false)).

(** How many of the results carry the status. *)
Definition occurrences (status : string) (results : list Outcome) : Z :=
  Z.of_nat (length (List.filter (fun o => String.eqb (outcome_status o) status) results)).

(** [postedCount] is the number of [posted] results. *)
Definition tallied (ls : LoopState) : Prop :=
  ls_postedCount ls = occurrences "posted" (ls_results ls).

(** The calls the target loop makes: to the platform, and the pause. *)
Definition loop_call (ev : Event) : Prop :=
  match ev with
  | EvSubmitPost _ _ | EvRateLimitPause | EvResolveRecentSubmission _ _ | EvSleep _ => True
  | _ => False
  end.

(** What the monitor may change in a record: its status and removal stamp. *)
Definition same_post (r r' : PostedRecord) : Prop :=
  rec_id r' = rec_id r /\ rec_subreddit r' = rec_subreddit r /\
  rec_serverKey r' = rec_serverKey r /\ rec_createdUtc r' = rec_createdUtc r.

(** The documents a monitor pass does not write. *)
Definition monitor_frame (st st' : Store) : Prop :=
  st_index st' = st_index st /\ st_schedules st' = st_schedules st /\
  (forall k, readServerConfig st' k = readServerConfig st k) /\
  (forall k, readCooldowns st' k = readCooldowns st k) /\
  (forall k, readSubs st' k = readSubs st k) /\
  (forall k, Forall2 same_post (listPostedRecords st k) (listPostedRecords st' k)).

End Views.

(* ===================================================================== *)
(** ** Sample data                                                        *)
(* ===================================================================== *)

(** A small data directory and an outside world, on which the statements
    below are instantiated. *)
Module Sample.

Import StoreOps.

Definition t0 : Z := 1700000000000.

(** A world where every external call succeeds. *)
Definition env_ok : Env :=
  mkEnv (fun n => t0 + Z.of_nat n) (fun _ => "0a1b2c3d") (fun _ => "lnz8f2")
    (fun _ => inr (Some "token"))
    (fun _ _ _ => inr (mkSubmitData (Some "abc123") None (Some "/r/test/abc123")))
    (fun _ _ _ => inr None)
    (fun _ _ => inr None).

(** A world where the submit call is rejected. *)
Definition env_down : Env :=
  mkEnv (fun n => t0 + Z.of_nat n) (fun _ => "0a1b2c3d") (fun _ => "lnz8f2")
    (fun _ => inr (Some "token"))
    (fun _ _ _ => inl (mkExn (Some "submit failed: 503") "Error: submit failed: 503"))
    (fun _ _ _ => inr None)
    (fun _ _ => inr None).

(** A world where a submission goes through but no id can be learnt: the
    response carries none and the lookup of recent submissions finds none. *)
Definition env_noid : Env :=
  mkEnv (fun n => t0 + Z.of_nat n) (fun _ => "0a1b2c3d") (fun _ => "lnz8f2")
    (fun _ => inr (Some "token"))
    (fun _ _ _ => inr (mkSubmitData None None None))
    (fun _ _ _ => inr None)
    (fun _ _ => inr None).

Definition defaults : Defaults :=
  mkDefaults (Some "Join us") (Some "https://discord.gg/abc") (Some "Come and chat").

Definition self_target : SubEntry :=
  mkSubEntry None "test" (Some (mkRules (Some 1) (Some true)))
    (Some (mkPost (Some "self") None None None None None)).

Definition bad_target : SubEntry :=
  mkSubEntry None "other" None
    (Some (mkPost (Some "poll") (Some "hello") None None None None)).

(** One server [alpha] whose last session ended at [last]. *)
Definition store_with (last : Z) (subs : list SubEntry) (posted : list PostedRecord)
    (schedules : list Schedule) : Store :=
  mkStore [mkServerRef "alpha" "Alpha"]
    {[ "alpha" := mkServerFiles (mkServerConfig "alpha" "Alpha" last (Some defaults))
                    subs ∅ posted ]}
    schedules.

Definition world_of (st : Store) : World := mkWorld st [] 0.

(** Never advertised. *)
Definition fresh : World := world_of (store_with 0 [self_target] [] []).

(** Advertised an hour ago. *)
Definition recent : World :=
  world_of (store_with (t0 - 3600000) [self_target] [] []).

(** A fetch whose advertise call is answered with HTTP 503. *)
Definition fetch_503 : FetchImpl :=
  fun _ w => (FetchReturns (Some (mkHttp false (Some 503))), w).

(** A due entry, as the throttle gate leaves it. *)
Definition due_schedule : Schedule :=
  mkSchedule "lnz8f2-0a1b2c3d" "alpha" (t0 - 10000) "throttled"
    (t0 - 20000) None None None.

Definition due_world : World :=
  world_of (store_with 0 [] [] [due_schedule]).


(** A world where the platform reports that the author deleted the post. *)
Definition env_deleted : Env :=
  mkEnv (fun n => t0 + Z.of_nat n) (fun _ => "0a1b2c3d") (fun _ => "lnz8f2")
    (fun _ => inr (Some "token"))
    (fun _ _ _ => inr (mkSubmitData (Some "abc123") None (Some "/r/test/abc123")))
    (fun _ _ _ => inr None)
    (fun _ _ => inr (Some (mkThing (Some "Deleted")))).

Definition now_sec : Z := 1700000000.

(** A record posted eight days ago, a record posted an hour ago, and one
    that expired earlier. *)
Definition old_record : PostedRecord :=
  mkPosted (Some "old111") "test" "alpha" (Some (now_sec - 8 * 86400)) Live None.
Definition young_record : PostedRecord :=
  mkPosted (Some "new222") "test" "alpha" (Some (now_sec - 3600)) Live None.
Definition expired_record : PostedRecord :=
  mkPosted (Some "exp333") "test" "alpha" (Some (now_sec - 9 * 86400)) Expired None.

Definition monitored : World :=
  world_of (store_with 0 [self_target] [old_record; young_record; expired_record] []).




(** A world where the submit call is rejected for the subreddit [test] and
    goes through for every other one. *)
Definition env_flaky : Env :=
  mkEnv (fun n => t0 + Z.of_nat n) (fun _ => "0a1b2c3d") (fun _ => "lnz8f2")
    (fun _ => inr (Some "token"))
    (fun _ _ args =>
       if String.eqb (sa_sr args) "test"
       then inl (mkExn (Some "submit failed: 503") "Error: submit failed: 503")
       else inr (mkSubmitData (Some "abc123") None (Some "/r/second/abc123")))
    (fun _ _ _ => inr None)
    (fun _ _ => inr None).

Definition second_target : SubEntry :=
  mkSubEntry None "second" None
    (Some (mkPost (Some "self") None None None None None)).

(** Three targets: the first is rejected by the platform, the second is
    fine, the third has a post type the server does not know. *)
Definition busy : World :=
  world_of (store_with 0 [self_target; second_target; bad_target] [] []).



(** A world where the platform reports that a moderator removed the post. *)
Definition env_moderated : Env :=
  mkEnv (fun n => t0 + Z.of_nat n) (fun _ => "0a1b2c3d") (fun _ => "lnz8f2")
    (fun _ => inr (Some "token"))
    (fun _ _ _ => inr (mkSubmitData (Some "abc123") None (Some "/r/test/abc123")))
    (fun _ _ _ => inr None)
    (fun _ _ => inr (Some (mkThing (Some "moderator")))).

(** The HTTP layer as the ticks see it: results and the throttled answer are
    200, an error answer carries its code, an error that escapes the handler a 500. *)
Definition http_answer (resp : Server.Response) : FetchResult :=
  match resp with
  | Server.RespResults _ | Server.RespThrottled _ _ => FetchReturns (Some (mkHttp true (Some 200)))
  | Server.RespError code _ => FetchReturns (Some (mkHttp false (Some code)))
  | Server.RespThrown _ => FetchReturns (Some (mkHttp false (Some 500)))
  end.

End Sample.

(* ===================================================================== *)
(** * Properties                                                          *)
(* ===================================================================== *)

(** ** Strings *)

Lemma prefix_refl s : String.prefix s s = true.
Proof. induction s as [|c s IH]; simpl; [reflexivity|]. destruct (Ascii.ascii_dec c c); [exact IH|congruence]. Qed.

Lemma includes_refl s : Js.includes s s = true.
Proof. destruct s; [reflexivity|]. cbn [Js.includes]. rewrite prefix_refl. reflexivity. Qed.

Lemma includes_append_r a b : Js.includes (String.append a b) b = true.
Proof.
  induction a as [|c a IH].
  - apply includes_refl.
  - change (String.append (String c a) b) with (String c (String.append a b)).
    cbn [Js.includes]. rewrite IH. apply orb_true_r.
Qed.

Lemma includes_append_sep a sep b :
  Js.includes (String.append a (String.append sep b)) b = true.
Proof.
  induction a as [|c a IH].
  - change (Js.includes (String.append sep b) b = true). apply includes_append_r.
  - change (String.append (String c a) (String.append sep b))
      with (String c (String.append a (String.append sep b))).
    cbn [Js.includes]. rewrite IH. apply orb_true_r.
Qed.

Lemma truthy_append_l a b :
  Js.truthy (Some a) = true -> Js.truthy (Some (String.append a b)) = true.
Proof. intros H. destruct a; [discriminate H | reflexivity]. Qed.

Ltac bsimpl := cbv beta iota delta [negb andb orb].

Ltac rw H := repeat (rewrite H; bsimpl).

Ltac merge_simpl :=
  unfold set_title, set_body, set_url, type_is;
  cbv beta iota delta [p_type p_title p_body p_url p_flair_id p_flair_text
       negb andb orb].

Lemma merge_with_fields d p :
  merge_with d p =
  mkPost (p_type p) (merged_title d (p_title p))
    (if type_is p "self" then merged_body d (p_body p) else p_body p)
    (if type_is p "self" then p_url p
     else if type_is p "link" then merged_url d (p_url p) else p_url p)
    (p_flair_id p) (p_flair_text p).
Proof.
  destruct p as [ty ti bo ur fi ft].
  unfold merge_with, merged_title, merged_body, merged_url. merge_simpl.
  destruct (Js.truthy ti) eqn:Hti, (Js.truthy (d_title d)) eqn:Hdt; merge_simpl;
    (destruct ty as [ty|]; merge_simpl; [|reflexivity]);
    (destruct (String.eqb ty "self") eqn:Hself; merge_simpl;
     [| destruct (String.eqb ty "link") eqn:Hlink; merge_simpl;
        [ destruct (Js.truthy ur) eqn:Hur, (Js.truthy (d_invite d)) eqn:Hdi;
          merge_simpl; reflexivity
        | reflexivity ] ]).
  all: destruct (Js.truthy bo) eqn:Hbo, (Js.truthy (d_body d)) eqn:Hdb,
         (Js.truthy (d_invite d)) eqn:Hdi; merge_simpl;
       rewrite ?Hbo, ?Hdb, ?Hdi; merge_simpl.
  all: repeat match goal with
       | |- context [if ?b then _ else _] => destruct b eqn:?; merge_simpl
       end; first [reflexivity | discriminate].
Qed.

Lemma merged_title_idem d t : merged_title d (merged_title d t) = merged_title d t.
Proof.
  unfold merged_title.
  destruct (Js.truthy t) eqn:Ht, (Js.truthy (d_title d)) eqn:Hd; merge_simpl;
    rewrite ?Ht, ?Hd; reflexivity.
Qed.

Lemma merged_url_idem d u : merged_url d (merged_url d u) = merged_url d u.
Proof.
  unfold merged_url.
  destruct (Js.truthy u) eqn:Hu, (Js.truthy (d_invite d)) eqn:Hd; merge_simpl;
    rewrite ?Hu, ?Hd; reflexivity.
Qed.

Lemma truthy_appended b sep i :
  Js.truthy b = true ->
  Js.truthy (Some (String.append (text_of b) (String.append sep i))) = true.
Proof. destruct b as [b|]; [apply truthy_append_l | discriminate]. Qed.

Lemma merged_body_stable d b :
  Js.truthy b = true ->
  (Js.truthy (d_invite d) = true ->
   Js.includes (text_of b) (text_of (d_invite d)) = true) ->
  merged_body d b = b.
Proof.
  intros Hb Hinc. unfold merged_body. bsimpl.
  rw Hb.
  destruct (Js.truthy (d_invite d)) eqn:Hdi; bsimpl.
  - rw (Hinc eq_refl). rw Hb. reflexivity.
  - reflexivity.
Qed.

Lemma merged_body_invite d b :
  Js.truthy (d_invite d) = true ->
  Js.truthy (merged_body d b) = true /\
  Js.includes (text_of (merged_body d b)) (text_of (d_invite d)) = true.
Proof.
  intros Hdi. unfold merged_body. bsimpl. rw Hdi.
  destruct (Js.truthy b) eqn:Hb; bsimpl.
  - destruct (Js.includes (text_of b) (text_of (d_invite d))) eqn:Hin; bsimpl.
    + rw Hb. auto.
    + rw Hb. repeat (rewrite truthy_appended by exact Hb; bsimpl).
      split; [reflexivity | apply includes_append_sep].
  - destruct (Js.truthy (d_body d)) eqn:Hdb; bsimpl.
    + destruct (Js.includes (text_of (d_body d)) (text_of (d_invite d))) eqn:Hin; bsimpl.
      * rw Hdb. auto.
      * rw Hdb. repeat (rewrite truthy_appended by exact Hdb; bsimpl).
        split; [reflexivity | apply includes_append_sep].
    + rw Hb. split; [exact Hdi | apply includes_refl].
Qed.

Lemma merged_body_cases d b :
  (Js.truthy (merged_body d b) = true /\
   (Js.truthy (d_invite d) = true ->
    Js.includes (text_of (merged_body d b)) (text_of (d_invite d)) = true))
  \/ merged_body d b = b.
Proof.
  destruct (Js.truthy (d_invite d)) eqn:Hdi.
  - left. destruct (merged_body_invite d b Hdi) as [Ht Hinc]. auto.
  - unfold merged_body. bsimpl. rw Hdi.
    destruct (Js.truthy b) eqn:Hb; bsimpl; [right; reflexivity|].
    destruct (Js.truthy (d_body d)) eqn:Hdb; [|right; reflexivity].
    left. split; [exact Hdb | discriminate].
Qed.

Lemma merged_body_idem d b : merged_body d (merged_body d b) = merged_body d b.
Proof.
  destruct (merged_body_cases d b) as [[Ht Hinc] | Hsame].
  - apply merged_body_stable; assumption.
  - rewrite Hsame. exact Hsame.
Qed.

Lemma merge_with_idem d p : merge_with d (merge_with d p) = merge_with d p.
Proof.
  rewrite (merge_with_fields d (merge_with d p)).
  rewrite (merge_with_fields d p).
  destruct p as [ty ti bo ur fi ft].
  unfold type_is. cbn [p_type p_title p_body p_url p_flair_id p_flair_text].
  rewrite merged_title_idem.
  destruct ty as [ty|]; [|reflexivity].
  destruct (String.eqb ty "self") eqn:Hs.
  - rewrite merged_body_idem. reflexivity.
  - destruct (String.eqb ty "link") eqn:Hl; [rewrite merged_url_idem|]; reflexivity.
Qed.

(** After a merge the body of a self post holds the invite whenever the
    defaults have one, which is what blocks a second append. *)
Lemma invite_present_after_merge d p :
  type_is p "self" = true ->
  Js.truthy (d_invite d) = true ->
  Js.truthy (p_body (merge_with d p)) = true /\
  Js.includes (text_of (p_body (merge_with d p))) (text_of (d_invite d)) = true.
Proof.
  intros Hself Hdi. rewrite merge_with_fields.
  cbv beta iota delta [p_body]. rewrite Hself.
  apply merged_body_invite, Hdi.
Qed.

(** C10. Merging the tenant defaults into a post is idempotent, for the
    server's [withServerDefaults] and for the CLI's [mergeDefaults] alike:
    whatever the stored configuration, the provided defaults and the post,
    merging twice gives the post that merging once gives.  (The invite is
    therefore appended to the body of a self post at most once.) *)
Theorem merge_defaults_idempotent (cfg : ServerConfig)
    (providedDefaults : option Defaults) (post : Post) :
  withServerDefaults cfg (withServerDefaults cfg post) = withServerDefaults cfg post /\
  mergeDefaults cfg (mergeDefaults cfg post providedDefaults) providedDefaults
  = mergeDefaults cfg post providedDefaults.
Proof.
  split.
  - unfold withServerDefaults. apply merge_with_idem.
  - unfold mergeDefaults. apply merge_with_idem.
Qed.

(** ** The advertise session *)

Import StoreOps Server.

Ltac run_monad :=
  cbv beta iota zeta delta
    [bind ret get_store put_store emit get_trace Date_now randomHex getToken
     submitPost rateLimitPause resolveRecentSubmission fetchSubmissionInfo
     notifySquire sleep fst snd w_store w_trace w_reads].

Lemma throttled_spec L N :
  throttled L N = false <-> (L = 0 \/ N - L >= 86400000).
Proof.
  unfold throttled, Js.truthyZ, SERVER_ROLLING_WINDOW_MS.
  destruct (Z.eqb_spec L 0) as [->|Hne]; cbv beta iota delta [negb andb].
  - split; [left; reflexivity | reflexivity].
  - rewrite Z.ltb_ge. split; [intros H; right; lia | intros [H|H]; [contradiction | lia]].
Qed.

Lemma addSchedule_run E key whenMs reason st tr rd :
  addSchedule E key whenMs reason (mkWorld st tr rd) =
  (let entry := mkSchedule
                  (String.append (base36 E (clock_at E rd))
                     (String.append "-" (random_hex E (S rd))))
                  key whenMs reason (clock_at E (S rd)) None None None in
   (entry, mkWorld (set_schedules st (st_schedules st ++ [entry])) tr (S (S rd)))).
Proof. reflexivity. Qed.

(** C2. A session for a tenant whose last publish was at [L], started at
    time [N]: when [L = 0] or [N - L >= 86,400,000] the answer is not the
    throttled one; otherwise the answer is [throttled] with
    [throttleUntil = L + 86,400,000], no external call is made and no
    document of any server is touched, and the schedule list gains exactly
    one entry (reason [throttled], due at [throttleUntil]) when
    [autoScheduleIfThrottled] was asked for and is left as it was when not. *)
Theorem throttle_gate (E : Env) (key : string) (dryRun auto : bool)
    (w w' : World) (resp : Response) :
  Js.truthy (Some key) = true ->
  advertise E (mkReq (Some key) dryRun auto) w = (resp, w') ->
  let L := lastAdAt (readServerConfig (w_store w) key) in
  let N := clock_at E (w_reads w) in
  ((L = 0 \/ N - L >= 86400000) ->
     forall until scheduled, resp <> RespThrottled until scheduled) /\
  (~ (L = 0 \/ N - L >= 86400000) ->
     w_trace w' = w_trace w /\
     st_servers (w_store w') = st_servers (w_store w) /\
     st_index (w_store w') = st_index (w_store w) /\
     if auto
     then exists s, resp = RespThrottled (L + 86400000) (Some s) /\
            s_serverKey s = key /\ s_reason s = "throttled" /\
            s_whenMs s = L + 86400000 /\
            st_schedules (w_store w') = (st_schedules (w_store w) ++ [s])%list
     else resp = RespThrottled (L + 86400000) None /\
          w_store w' = w_store w).
Proof.
  intros Hkey Hrun L N.
  assert (Hgate : throttled L N = false <-> (L = 0 \/ N - L >= 86400000))
    by apply throttled_spec.
  unfold advertise in Hrun.
  cbv beta iota zeta delta [rq_serverKey rq_dryRun rq_autoScheduleIfThrottled] in Hrun.
  rewrite Hkey in Hrun. cbv beta iota delta [negb] in Hrun.
  destruct w as [st tr rd].
  revert Hrun. run_monad. cbv beta iota delta [text_of default from_option id].
  change (lastAdAt (readServerConfig st key)) with L.
  change (clock_at E rd) with N.
  destruct (throttled L N) eqn:Hthr.
  - (* throttled *)
    assert (Hno : ~ (L = 0 \/ N - L >= 86400000)).
    { intros H. apply Hgate in H. congruence. }
    destruct auto.
    + rewrite addSchedule_run. run_monad.
      intros Hrun. injection Hrun as <- <-. run_monad.
      split; [intros H; contradiction|]. intros _.
      repeat split; try reflexivity.
      eexists. repeat split; reflexivity.
    + run_monad. intros Hrun. injection Hrun as <- <-. run_monad.
      split; [intros H; contradiction|]. intros _.
      repeat split; reflexivity.
  - (* eligible *)
    intros Hrun. split; [| intros Hno; exfalso; apply Hno, Hgate; reflexivity].
    intros _ until scheduled ->.
    revert Hrun.
    destruct (serverDirExists st key); run_monad; [|discriminate].
    destruct dryRun; run_monad.
    + destruct (runTargets _ _ _ _ _ _ _) as [ls [st2 tr2 rd2]].
      run_monad. discriminate.
    + destruct (getToken_result E tr) as [e|token]; run_monad; [discriminate|].
      destruct (runTargets _ _ _ _ _ _ _) as [ls [st2 tr2 rd2]].
      run_monad. destruct (0 <? ls_postedCount ls); run_monad; discriminate.
Qed.

Lemma throttle_gate_witness :
  let w := Sample.recent in
  let r := advertise Sample.env_ok (mkReq (Some "alpha") false true) w in
  Js.truthy (Some "alpha") = true /\
  exists s, fst r = RespThrottled (Sample.t0 - 3600000 + 86400000) (Some s) /\
            st_schedules (w_store (snd r)) = [s].
Proof.
  intros w r. split; [reflexivity|].
  destruct (throttle_gate Sample.env_ok "alpha" false true w (snd r) (fst r))
    as [_ Hthr]; [reflexivity | apply surjective_pairing |].
  destruct Hthr as (_ & _ & _ & s & Hresp & _ & _ & _ & Hlist).
  - intros [H|H]; vm_compute in H; [discriminate H | apply H; reflexivity].
  - exists s. split; [exact Hresp | exact Hlist].
Defined.

Import Views.

(** *** The documents under writes *)

Lemma files_of_set_files st key f k :
  files_of (set_files st key f) k = if decide (key = k) then f else files_of st k.
Proof.
  unfold files_of, set_files. cbv beta iota delta [st_servers].
  rewrite lookup_insert. destruct (decide (key = k)); reflexivity.
Qed.

Lemma readServerConfig_writeCooldowns st key cds k :
  readServerConfig (writeCooldowns st key cds) k = readServerConfig st k.
Proof.
  unfold readServerConfig, writeCooldowns. rewrite files_of_set_files.
  destruct (decide (key = k)) as [->|]; reflexivity.
Qed.

Lemma readServerConfig_writePostedRecords st key l k :
  readServerConfig (writePostedRecords st key l) k = readServerConfig st k.
Proof.
  unfold readServerConfig, writePostedRecords. rewrite files_of_set_files.
  destruct (decide (key = k)) as [->|]; reflexivity.
Qed.


Lemma readCooldowns_writePostedRecords st key l k :
  readCooldowns (writePostedRecords st key l) k = readCooldowns st k.
Proof.
  unfold readCooldowns, writePostedRecords. rewrite files_of_set_files.
  destruct (decide (key = k)) as [->|]; reflexivity.
Qed.

Lemma listPostedRecords_writeCooldowns st key cds k :
  listPostedRecords (writeCooldowns st key cds) k = listPostedRecords st k.
Proof.
  unfold listPostedRecords, writeCooldowns. rewrite files_of_set_files.
  destruct (decide (key = k)) as [->|]; reflexivity.
Qed.

Lemma listPostedRecords_writePostedRecords st key l k :
  listPostedRecords (writePostedRecords st key l) k
  = if decide (key = k) then l else listPostedRecords st k.
Proof.
  unfold listPostedRecords, writePostedRecords. rewrite files_of_set_files.
  destruct (decide (key = k)); reflexivity.
Qed.

Lemma listPostedRecords_appendPostedRecord st key r k :
  listPostedRecords (appendPostedRecord st key r) k
  = if decide (key = k) then (listPostedRecords st key ++ [r])%list
    else listPostedRecords st k.
Proof. unfold appendPostedRecord. apply listPostedRecords_writePostedRecords. Qed.

(** *** One iteration, case by case *)

Lemma processTarget_gated E key dryRun token entry ls st tr rd o :
  gate_outcome dryRun (readServerConfig st key) (ls_cooldowns ls) (clock_at E rd) entry = Some o ->
  processTarget E key dryRun token entry ls (mkWorld st tr rd)
  = (push ls o, mkWorld st tr (S rd)).
Proof.
  unfold gate_outcome, processTarget. run_monad.
  destruct (0 <? _); run_monad; [intros [= <-]; reflexivity|].
  destruct (negb _); run_monad; [intros [= <-]; reflexivity|].
  destruct dryRun; run_monad; [intros [= <-]; reflexivity | discriminate].
Qed.

Lemma processTarget_publishing E key dryRun token entry ls st tr rd :
  gate_outcome dryRun (readServerConfig st key) (ls_cooldowns ls) (clock_at E rd) entry = None ->
  let post := withServerDefaults (readServerConfig st key)
                (default fallback_post (e_post entry)) in
  let args := submitArgs (e_subreddit entry) post in
  dryRun = false /\
  processTarget E key dryRun token entry ls (mkWorld st tr rd)
  = match submitPost_result E tr token args with
    | inl e => (push ls (Failed (e_subreddit entry) (error_text e)),
                mkWorld st (tr ++ [EvSubmitPost token args; EvSleep 1000]) (S rd))
    | inr data => on_submitted E key entry post data ls
                    (mkWorld st (tr ++ [EvSubmitPost token args]) (S rd))
    end.
Proof.
  unfold gate_outcome, processTarget. run_monad.
  destruct (0 <? _); run_monad; [discriminate|].
  destruct (negb _); run_monad; [discriminate|].
  destruct dryRun; run_monad; [discriminate|]. intros _. split; [reflexivity|].
  destruct (submitPost_result _ _ _ _) as [e|data]; run_monad; [|reflexivity].
  unfold on_error. run_monad. rewrite <- app_assoc. reflexivity.
Qed.

Lemma on_submitted_run E key entry post data ls st tr rd :
  let sub := e_subreddit entry in
  let cds := <[cooldownKey entry := clock_at E rd]> (ls_cooldowns ls) in
  let st1 := writeCooldowns st key cds in
  let tr1 := (tr ++ [EvRateLimitPause])%list in
  let tr2 := if needs_lookup data
             then (tr1 ++ [EvResolveRecentSubmission sub (p_title post)])%list else tr1 in
  let answer := if needs_lookup data
                then resolveRecent_result E tr1 sub (p_title post) else inr None in
  on_submitted E key entry post data ls (mkWorld st tr rd)
  = match answer with
    | inl e => (mkLoop cds (ls_results ls ++ [Failed sub (error_text e)]) (ls_postedCount ls),
                mkWorld st1 (tr2 ++ [EvSleep 1000]) (S rd))
    | inr resolved =>
        let id := final_id data resolved in
        (mkLoop cds (ls_results ls ++ [Posted sub id (final_permalink data resolved)])
           (ls_postedCount ls + 1),
         if Js.truthy id
         then mkWorld (appendPostedRecord st1 key
                         (mkPosted id sub key (Some (Js.floor_div (clock_at E (S rd)) 1000))
                            Live None)) tr2 (S (S rd))
         else mkWorld st1 tr2 (S rd))
    end.
Proof.
  unfold on_submitted, needs_lookup, final_id, final_permalink. run_monad.
  destruct (_ || _); run_monad.
  - destruct (resolveRecent_result _ _ _ _) as [e|res]; run_monad.
    + unfold on_error, push. run_monad. reflexivity.
    + destruct (Js.truthy _); run_monad; reflexivity.
  - destruct (Js.truthy _); run_monad; reflexivity.
Qed.

(** *** The arithmetic of the cooldown gate *)



(** *** One outcome per target *)



(** *** Dry runs *)

Lemma gate_outcome_dry cfg cds now entry :
  exists o, gate_outcome true cfg cds now entry = Some o.
Proof.
  unfold gate_outcome.
  destruct (0 <? _); [eexists; reflexivity|].
  destruct (negb _); eexists; reflexivity.
Qed.

(** A dry run only reads the clock: the world and the cooldowns stay as they
    are, and the i-th outcome is the one the gates give at the i-th reading. *)
Lemma runTargets_dry E key token subs : forall ls st tr rd,
  let r := runTargets E key true token subs ls (mkWorld st tr rd) in
  snd r = mkWorld st tr (rd + length subs) /\
  ls_cooldowns (fst r) = ls_cooldowns ls /\
  ls_postedCount (fst r) = ls_postedCount ls /\
  (forall i o, ls_results ls !! i = Some o -> ls_results (fst r) !! i = Some o) /\
  (forall i entry, subs !! i = Some entry ->
     ls_results (fst r) !! (length (ls_results ls) + i)%nat
     = gate_outcome true (readServerConfig st key) (ls_cooldowns ls)
         (clock_at E (rd + i)) entry).
Proof.
  induction subs as [|entry rest IH]; intros ls st tr rd r.
  - subst r. cbn [runTargets length]. unfold ret. cbn [fst snd].
    rewrite Nat.add_0_r. repeat split; auto.
    intros i e He. rewrite lookup_nil in He. discriminate.
  - subst r. cbn [runTargets length]. unfold bind.
    destruct (gate_outcome_dry (readServerConfig st key) (ls_cooldowns ls)
                (clock_at E rd) entry) as [o Ho].
    rewrite (processTarget_gated _ _ _ _ _ _ _ _ _ _ Ho).
    specialize (IH (push ls o) st tr (S rd)). cbv zeta in IH.
    destruct IH as (Hw & Hc & Hn & Hold & Hnew).
    split; [rewrite Hw; f_equal; lia|].
    split; [rewrite Hc; reflexivity|].
    split; [rewrite Hn; reflexivity|].
    split.
    + intros i o' Hi. apply Hold. unfold push. cbn [ls_results].
      apply lookup_app_l_Some. exact Hi.
    + intros [|i] e He; cbn in He.
      * injection He as <-. rewrite Nat.add_0_r, (Hold (length (ls_results ls)) o).
        -- rewrite Nat.add_0_r. symmetry. exact Ho.
        -- unfold push. cbn [ls_results].
           rewrite lookup_app_r by lia. rewrite Nat.sub_diag. reflexivity.
      * specialize (Hnew i e He).
        change (ls_results (push ls o)) with (ls_results ls ++ [o])%list in Hnew.
        change (ls_cooldowns (push ls o)) with (ls_cooldowns ls) in Hnew.
        rewrite length_app in Hnew. cbn [length] in Hnew.
        replace (length (ls_results ls) + S i)%nat with (length (ls_results ls) + 1 + i)%nat by lia.
        rewrite Hnew. f_equal. f_equal. lia.
Qed.

(** *** What the loop leaves alone *)

Lemma posted_grows_refl st : posted_grows st st.
Proof. intros k. exists []. rewrite app_nil_r. auto. Qed.

Lemma posted_grows_trans st1 st2 st3 :
  posted_grows st1 st2 -> posted_grows st2 st3 -> posted_grows st1 st3.
Proof.
  intros H12 H23 k. destruct (H12 k) as (a1 & E1 & F1), (H23 k) as (a2 & E2 & F2).
  exists (a1 ++ a2)%list. rewrite E2, E1, app_assoc. split; [reflexivity|].
  apply Forall_app; auto.
Qed.

Lemma loop_frame_refl st : loop_frame st st.
Proof. repeat split; auto using posted_grows_refl. Qed.

Lemma loop_frame_trans st1 st2 st3 :
  loop_frame st1 st2 -> loop_frame st2 st3 -> loop_frame st1 st3.
Proof.
  intros (I1 & S1 & C1 & P1) (I2 & S2 & C2 & P2).
  split; [congruence|]. split; [congruence|]. split.
  - intros k. rewrite C2. apply C1.
  - eapply posted_grows_trans; eauto.
Qed.

Lemma loop_frame_writeCooldowns st key cds : loop_frame st (writeCooldowns st key cds).
Proof.
  repeat split; auto using readServerConfig_writeCooldowns.
  intros k. exists []. rewrite app_nil_r, listPostedRecords_writeCooldowns. auto.
Qed.

Lemma loop_frame_appendPostedRecord st key r :
  rec_status r = Live -> loop_frame st (appendPostedRecord st key r).
Proof.
  intros Hlive. repeat split.
  - intros k. unfold appendPostedRecord. apply readServerConfig_writePostedRecords.
  - intros k. rewrite listPostedRecords_appendPostedRecord.
    destruct (decide (key = k)) as [->|].
    + exists [r]. auto.
    + exists []. rewrite app_nil_r. auto.
Qed.

Lemma processTarget_frame E key dryRun token entry ls w :
  loop_frame (w_store w) (w_store (snd (processTarget E key dryRun token entry ls w))).
Proof.
  destruct w as [st tr rd]. cbv beta iota delta [w_store].
  destruct (gate_outcome dryRun (readServerConfig st key) (ls_cooldowns ls)
              (clock_at E rd) entry) as [o|] eqn:Hgate.
  - rewrite (processTarget_gated _ _ _ _ _ _ _ _ _ _ Hgate). apply loop_frame_refl.
  - destruct (processTarget_publishing _ key _ token _ _ _ tr _ Hgate) as [_ ->].
    destruct (submitPost_result _ _ _ _) as [e|data]; [apply loop_frame_refl|].
    rewrite on_submitted_run. cbv beta iota zeta.
    destruct (if needs_lookup data then _ else _) as [e|resolved]; cbv beta iota delta [snd].
    + apply loop_frame_writeCooldowns.
    + destruct (Js.truthy _); cbv beta iota delta [w_store].
      * eapply loop_frame_trans; [apply loop_frame_writeCooldowns|].
        apply loop_frame_appendPostedRecord. reflexivity.
      * apply loop_frame_writeCooldowns.
Qed.

Lemma runTargets_frame E key dryRun token subs : forall ls w,
  loop_frame (w_store w) (w_store (snd (runTargets E key dryRun token subs ls w))).
Proof.
  induction subs as [|entry rest IH]; intros ls w.
  - apply loop_frame_refl.
  - cbn [runTargets]. unfold bind.
    pose proof (processTarget_frame E key dryRun token entry ls w) as H1.
    destruct (processTarget E key dryRun token entry ls w) as [ls1 w1].
    eapply loop_frame_trans; [exact H1 | apply IH].
Qed.

Lemma processTarget_counted E key dryRun token entry ls w :
  counted ls -> counted (fst (processTarget E key dryRun token entry ls w)).
Proof.
  intros Hc. destruct w as [st tr rd].
  assert (Hpush : forall o, counted (push ls o)).
  { intros o Hpos. apply Exists_app. left. apply Hc, Hpos. }
  destruct (gate_outcome dryRun (readServerConfig st key) (ls_cooldowns ls)
              (clock_at E rd) entry) as [o|] eqn:Hgate.
  - rewrite (processTarget_gated _ _ _ _ _ _ _ _ _ _ Hgate). apply Hpush.
  - destruct (processTarget_publishing _ key _ token _ _ _ tr _ Hgate) as [_ ->].
    destruct (submitPost_result _ _ _ _) as [e|data]; [apply Hpush|].
    rewrite on_submitted_run. cbv beta iota zeta.
    destruct (if needs_lookup data then _ else _) as [e|resolved]; cbv beta iota delta [fst].
    + intros Hpos. apply Exists_app. left. apply Hc, Hpos.
    + intros _. apply Exists_app. right. constructor. reflexivity.
Qed.

Lemma runTargets_counted E key dryRun token subs : forall ls w,
  counted ls -> counted (fst (runTargets E key dryRun token subs ls w)).
Proof.
  induction subs as [|entry rest IH]; intros ls w Hc.
  - exact Hc.
  - cbn [runTargets]. unfold bind.
    pose proof (processTarget_counted E key dryRun token entry ls w Hc) as H1.
    destruct (processTarget E key dryRun token entry ls w) as [ls1 w1].
    apply IH, H1.
Qed.

Ltac open_advertise :=
  unfold advertise;
  cbv beta iota zeta delta [rq_serverKey rq_dryRun rq_autoScheduleIfThrottled].

(** [lastAdAt] moves only at the end of a real session that posted. *)
Lemma advertise_lastAdAt E req w k :
  lastAdAt (readServerConfig (w_store (snd (advertise E req w))) k)
  <> lastAdAt (readServerConfig (w_store w) k) ->
  rq_dryRun req = false /\
  exists results, fst (advertise E req w) = RespResults results /\
                  Exists (fun o => is_posted o = true) results.
Proof.
  destruct req as [serverKey dryRun auto], w as [st tr rd]. open_advertise.
  destruct (Js.truthy serverKey); cbv beta iota delta [negb]; run_monad;
    [|intros H; contradiction].
  destruct (throttled _ _); run_monad.
  { destruct auto; [rewrite addSchedule_run|]; run_monad; intros H; contradiction. }
  destruct (serverDirExists _ _); run_monad; [|intros H; contradiction].
  assert (Hloop : forall token tr0,
    let r := runTargets E (text_of serverKey) dryRun token (readSubs st (text_of serverKey))
               (mkLoop (readCooldowns st (text_of serverKey)) [] 0) (mkWorld st tr0 (S rd)) in
    readServerConfig (w_store (snd r)) k = readServerConfig st k /\ counted (fst r)).
  { intros token tr0 r. split.
    - apply (runTargets_frame E (text_of serverKey) dryRun token _ _ (mkWorld st tr0 (S rd))).
    - apply runTargets_counted. intros H. cbn [ls_postedCount] in H. lia. }
  destruct dryRun; run_monad.
  - specialize (Hloop None tr). cbv zeta in Hloop.
    destruct (runTargets _ _ _ _ _ _ _) as [ls [st2 tr2 rd2]].
    cbv beta iota delta [negb andb]. run_monad.
    destruct Hloop as [Hcfg _]. cbn [snd w_store] in Hcfg.
    rewrite Hcfg. intros H; contradiction.
  - destruct (getToken_result E tr) as [e|token]; run_monad; [intros H; contradiction|].
    specialize (Hloop token (tr ++ [EvGetToken])%list). cbv zeta in Hloop.
    destruct (runTargets _ _ _ _ _ _ _) as [ls [st2 tr2 rd2]].
    destruct Hloop as [Hcfg Hcount]. cbn [fst snd w_store] in Hcfg, Hcount.
    cbv beta iota delta [negb andb]. run_monad.
    destruct (Z.ltb_spec 0 (ls_postedCount ls)) as [Hpos|Hnone]; run_monad.
    + intros _. split; [reflexivity|]. eexists. split; [reflexivity|]. apply Hcount, Hpos.
    + rewrite Hcfg. intros H; contradiction.
Qed.

(** C6. A dry-run session makes no external call except the closing
    notification (so no token is fetched and nothing is published), leaves
    the documents of every server as they were (cooldown records and
    [lastAdAt] included), and records [dry_run_ok] with the merged content
    for every target that is out of cooldown and valid.  For any session,
    [lastAdAt] changes only if the session was not dry and recorded at
    least one [posted] outcome. *)
Theorem dry_run_is_inert (E : Env) (serverKey : option string) (auto : bool) (w : World) :
  let r := advertise E (mkReq serverKey true auto) w in
  (* no credential is fetched and nothing is published: at most the
     end-of-session notification is sent *)
  (w_trace (snd r) = w_trace w \/
   exists payload,
     w_trace (snd r) = (w_trace w ++ [EvNotifySquire "cryer.session.completed" payload])%list) /\
  (* no cooldown record, configuration or posted list changes *)
  st_servers (w_store (snd r)) = st_servers (w_store w) /\
  (* the i-th target, when out of cooldown and valid, yields dry_run_ok *)
  (forall key results i entry,
     serverKey = Some key ->
     fst r = RespResults results ->
     readSubs (w_store w) key !! i = Some entry ->
     let post := withServerDefaults (readServerConfig (w_store w) key)
                   (default fallback_post (e_post entry)) in
     waitMs (rules_of entry) (readCooldowns (w_store w) key) (cooldownKey entry)
       (clock_at E (S (w_reads w) + i)) <= 0 ->
     validate (rules_of entry) post = [] ->
     results !! i = Some (DryRunOk (e_subreddit entry) (p_type post) (p_title post)
                            (p_url post) (p_body post))) /\
  (* lastAdAt only moves after a real session with a successful publish *)
  (forall req k,
     lastAdAt (readServerConfig (w_store (snd (advertise E req w))) k)
     <> lastAdAt (readServerConfig (w_store w) k) ->
     rq_dryRun req = false /\
     exists results, fst (advertise E req w) = RespResults results /\
                     Exists (fun o => is_posted o = true) results).
Proof.
  intros r.
  split; [|split; [|split]]; [| | | intros req k; apply advertise_lastAdAt].
  - subst r. destruct w as [st tr rd]. open_advertise.
    destruct (Js.truthy serverKey); cbv beta iota delta [negb]; run_monad; [|left; reflexivity].
    destruct (throttled _ _); run_monad.
    { destruct auto; [rewrite addSchedule_run|]; run_monad; left; reflexivity. }
    destruct (serverDirExists _ _); run_monad; [|left; reflexivity].
    destruct (runTargets_dry E (text_of serverKey) None (readSubs st (text_of serverKey))
                (mkLoop (readCooldowns st (text_of serverKey)) [] 0) st tr (S rd))
      as (Hw & _).
    destruct (runTargets _ _ _ _ _ _ _) as [ls w2]. cbn [snd] in Hw. subst w2.
    cbv beta iota delta [negb andb]. run_monad. right. eexists. reflexivity.
  - subst r. destruct w as [st tr rd]. open_advertise.
    destruct (Js.truthy serverKey); cbv beta iota delta [negb]; run_monad; [|reflexivity].
    destruct (throttled _ _); run_monad.
    { destruct auto; [rewrite addSchedule_run|]; run_monad; reflexivity. }
    destruct (serverDirExists _ _); run_monad; [|reflexivity].
    destruct (runTargets_dry E (text_of serverKey) None (readSubs st (text_of serverKey))
                (mkLoop (readCooldowns st (text_of serverKey)) [] 0) st tr (S rd))
      as (Hw & _).
    destruct (runTargets _ _ _ _ _ _ _) as [ls w2]. cbn [snd] in Hw. subst w2.
    cbv beta iota delta [negb andb]. run_monad. reflexivity.
  - intros key results i entry -> Hresp Hentry post Hwait Hvalid.
    subst r. destruct w as [st tr rd]. revert Hresp. open_advertise.
    cbv beta iota zeta delta [w_store w_reads] in Hentry, post, Hwait.
    destruct (Js.truthy (Some key)); cbv beta iota delta [negb]; run_monad; [|discriminate].
    cbv beta iota delta [text_of default from_option id].
    destruct (throttled _ _); run_monad.
    { destruct auto; [rewrite addSchedule_run|]; run_monad; discriminate. }
    destruct (serverDirExists _ _); run_monad; [|discriminate].
    destruct (runTargets_dry E key None (readSubs st key)
                (mkLoop (readCooldowns st key) [] 0) st tr (S rd))
      as (Hw & _ & _ & _ & Hnew).
    specialize (Hnew i entry Hentry). cbn [ls_results ls_cooldowns length] in Hnew.
    destruct (runTargets _ _ _ _ _ _ _) as [ls w2]. cbn [fst snd] in Hw, Hnew. subst w2.
    cbv beta iota delta [negb andb]. run_monad. intros [= <-].
    rewrite Nat.add_0_l in Hnew. rewrite Hnew.
    unfold gate_outcome. fold post.
    destruct (Z.ltb_spec 0 (waitMs (rules_of entry) (readCooldowns st key)
                              (cooldownKey entry) (clock_at E (S rd + i)))); [lia|].
    rewrite Hvalid. reflexivity.
Qed.

(** *** The loop, target by target *)











(** *** The cooldown gate in a session *)





(** *** Failures do not stop the session *)




(** *** What a publish leaves behind *)










(** ** The removal monitor *)

Import Monitor.

Lemma is_live_true s : is_live s = true <-> s = Live.
Proof. destruct s; cbn; split; congruence. Qed.

(** A record that has left [live] is skipped: nothing is asked, nothing changes. *)
Lemma monitorRecord_settled E key now rec w :
  rec_status rec <> Live ->
  monitorRecord E key now rec w = ((rec, false), w).
Proof.
  intros Hs. unfold monitorRecord.
  destruct (is_live (rec_status rec)) eqn:Hl; [apply is_live_true in Hl; contradiction|].
  reflexivity.
Qed.

(** A live record past the TTL expires on the spot. *)
Lemma monitorRecord_expired E key now rec w :
  rec_status rec = Live ->
  MONITOR_TTL_DAYS * 86400 < age now rec ->
  monitorRecord E key now rec w = ((set_status rec Expired, true), w).
Proof.
  intros Hs Hage. unfold monitorRecord. rewrite Hs. cbn [is_live negb].
  destruct (Z.ltb_spec (MONITOR_TTL_DAYS * 86400) (age now rec)); [reflexivity | lia].
Qed.

(** The monitor never touches the data directory or the clock while it walks
    the records, and a record only changes when [changed] is raised. *)
Lemma monitorRecord_frame E key now rec w :
  let r := monitorRecord E key now rec w in
  w_store (snd r) = w_store w /\ w_reads (snd r) = w_reads w /\
  (snd (fst r) = false -> fst (fst r) = rec) /\
  (rec_status (fst (fst r)) = Live -> fst (fst r) = rec).
Proof.
  destruct w as [st tr rd]. unfold monitorRecord.
  destruct (negb _); [cbn; auto|].
  destruct (_ <? _); [cbn; repeat split; auto; discriminate|].
  destruct (negb _); [cbn; repeat split; auto; discriminate|].
  run_monad.
  destruct (fetchSubmissionInfo_result _ _ _) as [e|[thing|]]; run_monad; [cbn; auto| |cbn; auto].
  destruct (Reddit.classifyRemoval thing) as [removed category].
  destruct (_ && _); run_monad; cbn; repeat split; auto; discriminate.
Qed.

Lemma monitorRecords_frame E key now l : forall w,
  let r := monitorRecords E key now l w in
  w_store (snd r) = w_store w /\ w_reads (snd r) = w_reads w /\
  length (fst (fst r)) = length l /\
  (snd (fst r) = false -> fst (fst r) = l).
Proof.
  induction l as [|rec rest IH]; intros w r.
  - subst r. cbn. auto.
  - subst r. cbn [monitorRecords]. unfold bind, ret.
    pose proof (monitorRecord_frame E key now rec w) as H1. cbv zeta in H1.
    destruct (monitorRecord E key now rec w) as [[rec1 c1] w1].
    cbn [fst snd] in H1. destruct H1 as (Hst1 & Hrd1 & Hsame1 & _).
    specialize (IH w1). cbv zeta in IH.
    destruct (monitorRecords E key now rest w1) as [[rest2 c2] w2].
    cbn [fst snd] in IH |- *. destruct IH as (Hst2 & Hrd2 & Hlen & Hsame2).
    split; [congruence|]. split; [congruence|]. split; [cbn; congruence|].
    intros Hc. apply orb_false_iff in Hc as [-> ->].
    rewrite Hsame1, Hsame2; reflexivity.
Qed.

(** Each record of the list is handled by [monitorRecord], in some world. *)
Lemma monitorRecords_lookup E key now l : forall w i rec,
  l !! i = Some rec ->
  exists wi, fst (fst (monitorRecords E key now l w)) !! i
             = Some (fst (fst (monitorRecord E key now rec wi))).
Proof.
  induction l as [|rec0 rest IH]; intros w i rec Hi.
  - rewrite lookup_nil in Hi. discriminate.
  - cbn [monitorRecords]. unfold bind, ret.
    destruct (monitorRecord E key now rec0 w) as [[rec1 c1] w1] eqn:H1.
    destruct i as [|i]; cbn in Hi.
    + injection Hi as ->. exists w.
      destruct (monitorRecords E key now rest w1) as [[rest2 c2] w2].
      cbn. rewrite H1. reflexivity.
    + destruct (IH w1 i rec Hi) as [wi Hwi]. exists wi.
      destruct (monitorRecords E key now rest w1) as [[rest2 c2] w2].
      cbn in Hwi |- *. exact Hwi.
Qed.

(** One pass over a server: its posted list becomes the walked list, the
    lists of the other servers stay, the clock is read once. *)
Lemma monitorServer_run E s w :
  let now := Js.floor_div (clock_at E (w_reads w)) 1000 in
  let walked := fst (fst (monitorRecords E (sr_key s) now
                            (listPostedRecords (w_store w) (sr_key s))
                            (mkWorld (w_store w) (w_trace w) (S (w_reads w))))) in
  let w' := snd (monitorServer E s w) in
  listPostedRecords (w_store w') (sr_key s) = walked /\
  (forall k, k <> sr_key s ->
     listPostedRecords (w_store w') k = listPostedRecords (w_store w) k) /\
  st_index (w_store w') = st_index (w_store w) /\
  w_reads w' = S (w_reads w).
Proof.
  destruct w as [st tr rd]. unfold monitorServer. run_monad.
  pose proof (monitorRecords_frame E (sr_key s) (Js.floor_div (clock_at E rd) 1000)
                (listPostedRecords st (sr_key s)) (mkWorld st tr (S rd))) as Hf.
  cbv zeta in Hf.
  destruct (monitorRecords _ _ _ _ _) as [[walked changed] [st2 tr2 rd2]].
  cbn [fst snd w_store w_reads] in Hf. destruct Hf as (-> & -> & _ & Hsame).
  run_monad. destruct changed; run_monad.
  - split; [rewrite listPostedRecords_writePostedRecords;
            destruct (decide (sr_key s = sr_key s)); [reflexivity | contradiction]|].
    split; [|split; reflexivity].
    intros k Hk. rewrite listPostedRecords_writePostedRecords.
    destruct (decide (sr_key s = k)); [congruence | reflexivity].
  - split; [symmetry; apply Hsame; reflexivity|]. split; [|split; reflexivity].
    intros k _. reflexivity.
Qed.

Lemma monitorServer_keeps_settled E s w k i rec :
  listPostedRecords (w_store w) k !! i = Some rec ->
  rec_status rec <> Live ->
  listPostedRecords (w_store (snd (monitorServer E s w))) k !! i = Some rec.
Proof.
  intros Hi Hs.
  destruct (monitorServer_run E s w) as (Hown & Hother & _).
  destruct (decide (k = sr_key s)) as [->|Hne].
  - rewrite Hown.
    destruct (monitorRecords_lookup E (sr_key s)
                (Js.floor_div (clock_at E (w_reads w)) 1000) _
                (mkWorld (w_store w) (w_trace w) (S (w_reads w))) i rec Hi) as [wi ->].
    rewrite monitorRecord_settled by exact Hs. reflexivity.
  - rewrite Hother by exact Hne. exact Hi.
Qed.

Lemma monitorServers_keeps_settled E servers : forall w k i rec,
  listPostedRecords (w_store w) k !! i = Some rec ->
  rec_status rec <> Live ->
  listPostedRecords (w_store (snd (monitorServers E servers w))) k !! i = Some rec.
Proof.
  induction servers as [|s rest IH]; intros w k i rec Hi Hs.
  - exact Hi.
  - cbn [monitorServers]. unfold bind.
    pose proof (monitorServer_keeps_settled E s w k i rec Hi Hs) as H1.
    destruct (monitorServer E s w) as [[] w1]. cbn [snd] in H1.
    apply IH; assumption.
Qed.

Lemma monitorServers_expires E servers : forall w j s i rec,
  NoDup (map sr_key servers) ->
  servers !! j = Some s ->
  listPostedRecords (w_store w) (sr_key s) !! i = Some rec ->
  rec_status rec = Live ->
  MONITOR_TTL_DAYS * 86400
  < age (Js.floor_div (clock_at E (w_reads w + j)) 1000) rec ->
  listPostedRecords (w_store (snd (monitorServers E servers w))) (sr_key s) !! i
  = Some (set_status rec Expired).
Proof.
  induction servers as [|s0 rest IH]; intros w j s i rec Hnd Hj Hi Hlive Hage.
  - rewrite lookup_nil in Hj. discriminate.
  - cbn [monitorServers]. unfold bind.
    destruct (monitorServer_run E s0 w) as (Hown & Hother & _ & Hreads).
    cbn [map] in Hnd. apply NoDup_cons in Hnd as [Hnotin Hnd].
    destruct j as [|j]; cbn in Hj.
    + injection Hj as ->. rewrite Nat.add_0_r in Hage.
      destruct (monitorRecords_lookup E (sr_key s)
                  (Js.floor_div (clock_at E (w_reads w)) 1000) _
                  (mkWorld (w_store w) (w_trace w) (S (w_reads w))) i rec Hi) as [wi Hwi].
      rewrite monitorRecord_expired in Hwi by assumption. cbn [fst] in Hwi.
      rewrite <- Hown in Hwi.
      destruct (monitorServer E s w) as [[] w1]. cbn [snd] in Hwi |- *.
      apply monitorServers_keeps_settled; [exact Hwi | discriminate].
    + assert (Hne : sr_key s <> sr_key s0).
      { intros Heq. apply Hnotin. rewrite <- Heq.
        apply list_elem_of_fmap. exists s. split; [reflexivity|].
        apply list_elem_of_lookup. eauto. }
      specialize (Hother (sr_key s) Hne).
      destruct (monitorServer E s0 w) as [[] w1]. cbn [snd] in Hother, Hreads |- *.
      apply (IH w1 j s i rec Hnd Hj).
      * rewrite Hother. exact Hi.
      * exact Hlive.
      * rewrite Hreads. replace (S (w_reads w) + j)%nat with (w_reads w + S j)%nat by lia.
        exact Hage.
Qed.

(** The age of a record that carries a creation stamp. *)
Lemma age_of_stamped now rec c :
  rec_createdUtc rec = Some c -> c <> 0 -> age now rec = now - c.
Proof.
  intros Hc Hnz. unfold age, Js.truthyZ. rewrite Hc.
  destruct (Z.eqb_spec c 0); [contradiction | reflexivity].
Qed.

(** *** The calls of a tick *)

Lemma fetch_led_app evs1 evs2 : fetch_led evs1 -> fetch_led evs2 -> fetch_led (evs1 ++ evs2).
Proof. destruct evs1 as [|[] ?]; cbn; auto. Qed.

Lemma truthy_Some (x : option string) :
  Js.truthy x = true -> x = Some (text_of x).
Proof. destruct x; [reflexivity | discriminate]. Qed.

(** The calls one record gives rise to. *)
Lemma monitorRecord_events E key now rec w :
  let r := monitorRecord E key now rec w in
  exists evs,
    w_trace (snd r) = (w_trace w ++ evs)%list /\
    fetch_led evs /\
    (forall pid, EvFetchSubmissionInfo pid ∈ evs -> watched now rec pid).
Proof.
  destruct w as [st tr rd]. cbv zeta. unfold monitorRecord.
  assert (Hnone : exists evs : list Event,
            (tr = tr ++ evs)%list /\ fetch_led evs /\
            (forall pid, EvFetchSubmissionInfo pid ∈ evs -> watched now rec pid)).
  { exists []. rewrite app_nil_r. split; [reflexivity|]. split; [exact I|].
    intros pid H. apply elem_of_nil in H. contradiction. }
  destruct (is_live (rec_status rec)) eqn:Hlive; cbv beta iota delta [negb]; [|exact Hnone].
  apply is_live_true in Hlive.
  destruct (Z.ltb_spec (MONITOR_TTL_DAYS * 86400) (age now rec)) as [Hold|Hyoung]; [exact Hnone|].
  destruct (Js.truthy (rec_id rec)) eqn:Hid; cbv beta iota delta [negb]; [|exact Hnone].
  assert (Hwatched : watched now rec (text_of (rec_id rec))).
  { split; [exact Hlive|]. split; [apply truthy_Some, Hid | lia]. }
  run_monad.
  destruct (fetchSubmissionInfo_result E tr (text_of (rec_id rec))) as [e|[thing|]]; run_monad.
  - exists [EvFetchSubmissionInfo (text_of (rec_id rec))]. split; [reflexivity|]. split; [exact I|].
    intros pid H. apply list_elem_of_singleton in H. injection H as ->. exact Hwatched.
  - destruct (Reddit.classifyRemoval thing) as [removed category].
    destruct (_ && _); run_monad.
    + eexists [EvFetchSubmissionInfo (text_of (rec_id rec)); _].
      split; [rewrite <- app_assoc; reflexivity|]. split; [exact I|].
      intros pid H. apply elem_of_cons in H as [H|H]; [injection H as ->; exact Hwatched|].
      apply list_elem_of_singleton in H. discriminate H.
    + exists [EvFetchSubmissionInfo (text_of (rec_id rec))]. split; [reflexivity|]. split; [exact I|].
      intros pid H. apply list_elem_of_singleton in H. injection H as ->. exact Hwatched.
  - exists [EvFetchSubmissionInfo (text_of (rec_id rec))]. split; [reflexivity|]. split; [exact I|].
    intros pid H. apply list_elem_of_singleton in H. injection H as ->. exact Hwatched.
Qed.

Lemma monitorRecords_events E key now l : forall w,
  let r := monitorRecords E key now l w in
  exists evs,
    w_trace (snd r) = (w_trace w ++ evs)%list /\
    fetch_led evs /\
    (forall pid, EvFetchSubmissionInfo pid ∈ evs ->
       exists i rec, l !! i = Some rec /\ watched now rec pid).
Proof.
  induction l as [|rec rest IH]; intros w.
  - cbn. exists []. rewrite app_nil_r. split; [reflexivity|]. split; [exact I|].
    intros pid H. apply elem_of_nil in H. contradiction.
  - cbn [monitorRecords]. unfold bind, ret.
    destruct (monitorRecord_events E key now rec w) as (evs1 & Ht1 & Hled1 & Hw1).
    destruct (monitorRecord E key now rec w) as [[rec1 c1] w1]. cbn [snd] in Ht1.
    destruct (IH w1) as (evs2 & Ht2 & Hled2 & Hw2).
    destruct (monitorRecords E key now rest w1) as [[rest2 c2] w2]. cbn [snd] in Ht2 |- *.
    exists (evs1 ++ evs2)%list. split; [rewrite Ht2, Ht1, app_assoc; reflexivity|].
    split; [apply fetch_led_app; assumption|].
    intros pid H. apply elem_of_app in H as [H|H].
    + exists 0%nat, rec. split; [reflexivity | apply Hw1, H].
    + destruct (Hw2 pid H) as (i & r & Hi & Hr). exists (S i), r. split; assumption.
Qed.

(** The i-th record of a pass: the calls before it, what becomes of it, the
    calls after it. *)
Lemma monitorRecords_at E key now l : forall w i rec,
  l !! i = Some rec ->
  exists w_i pre post,
    w_trace w_i = (w_trace w ++ pre)%list /\
    let r_i := monitorRecord E key now rec w_i in
    fst (fst (monitorRecords E key now l w)) !! i = Some (fst (fst r_i)) /\
    w_trace (snd (monitorRecords E key now l w)) = (w_trace (snd r_i) ++ post)%list /\
    fetch_led post.
Proof.
  induction l as [|rec0 rest IH]; intros w i rec Hi.
  - rewrite lookup_nil in Hi. discriminate.
  - cbn [monitorRecords]. unfold bind, ret.
    destruct i as [|i]; cbn in Hi.
    + injection Hi as ->. exists w, []. 
      destruct (monitorRecord E key now rec w) as [[rec1 c1] w1].
      destruct (monitorRecords_events E key now rest w1) as (evs & Ht & Hled & _).
      destruct (monitorRecords E key now rest w1) as [[rest2 c2] w2]. cbn [fst snd] in Ht |- *.
      exists evs. rewrite app_nil_r. split; [reflexivity|].
      split; [reflexivity|]. split; assumption.
    + destruct (monitorRecord_events E key now rec0 w) as (evs1 & Ht1 & _).
      destruct (monitorRecord E key now rec0 w) as [[rec1 c1] w1]. cbn [snd] in Ht1.
      destruct (IH w1 i rec Hi) as (w_i & pre & post & Hpre & Hrec & Hpost & Hled).
      destruct (monitorRecords E key now rest w1) as [[rest2 c2] w2].
      cbn [fst snd] in Hrec, Hpost |- *.
      exists w_i, (evs1 ++ pre)%list, post.
      split; [rewrite Hpre, Ht1, app_assoc; reflexivity|].
      split; [exact Hrec|]. split; assumption.
Qed.

(** One pass over a server, call by call. *)
Lemma monitorServer_trace E s w :
  let now := Js.floor_div (clock_at E (w_reads w)) 1000 in
  w_trace (snd (monitorServer E s w))
  = w_trace (snd (monitorRecords E (sr_key s) now (listPostedRecords (w_store w) (sr_key s))
                    (mkWorld (w_store w) (w_trace w) (S (w_reads w))))).
Proof.
  destruct w as [st tr rd]. unfold monitorServer. run_monad.
  destruct (monitorRecords _ _ _ _ _) as [[walked changed] [st2 tr2 rd2]].
  run_monad. destruct changed; reflexivity.
Qed.

Lemma monitorServers_events E servers : forall w,
  NoDup (map sr_key servers) ->
  exists evs,
    w_trace (snd (monitorServers E servers w)) = (w_trace w ++ evs)%list /\
    fetch_led evs /\
    (forall pid, EvFetchSubmissionInfo pid ∈ evs ->
       exists j s i rec,
         servers !! j = Some s /\
         listPostedRecords (w_store w) (sr_key s) !! i = Some rec /\
         watched (Js.floor_div (clock_at E (w_reads w + j)) 1000) rec pid).
Proof.
  induction servers as [|s0 rest IH]; intros w Hnd.
  - cbn. exists []. rewrite app_nil_r. split; [reflexivity|]. split; [exact I|].
    intros pid H. apply elem_of_nil in H. contradiction.
  - cbn [monitorServers]. unfold bind.
    cbn [map] in Hnd. apply NoDup_cons in Hnd as [Hnotin Hnd].
    destruct (monitorServer_run E s0 w) as (_ & Hother & _ & Hreads).
    pose proof (monitorServer_trace E s0 w) as Htrace. cbv zeta in Htrace.
    destruct (monitorRecords_events E (sr_key s0) (Js.floor_div (clock_at E (w_reads w)) 1000)
                (listPostedRecords (w_store w) (sr_key s0))
                (mkWorld (w_store w) (w_trace w) (S (w_reads w)))) as (evs1 & Ht1 & Hled1 & Hw1).
    rewrite Ht1 in Htrace. cbn [w_trace] in Htrace.
    destruct (monitorServer E s0 w) as [[] w1]. cbn [snd] in Hother, Hreads, Htrace.
    destruct (IH w1 Hnd) as (evs2 & Ht2 & Hled2 & Hw2).
    exists (evs1 ++ evs2)%list. split; [rewrite Ht2, Htrace, app_assoc; reflexivity|].
    split; [apply fetch_led_app; assumption|].
    intros pid H. apply elem_of_app in H as [H|H].
    + destruct (Hw1 pid H) as (i & rec & Hi & Hrec).
      exists 0%nat, s0, i, rec. rewrite Nat.add_0_r.
      split; [reflexivity|]. split; assumption.
    + destruct (Hw2 pid H) as (j & s & i & rec & Hj & Hi & Hrec).
      exists (S j), s, i, rec. split; [exact Hj|]. split.
      * rewrite <- Hother; [exact Hi|]. intros Heq. apply Hnotin. rewrite <- Heq.
        apply list_elem_of_fmap. exists s. split; [reflexivity|].
        apply list_elem_of_lookup. eauto.
      * rewrite Hreads in Hrec.
        replace (w_reads w + S j)%nat with (S (w_reads w) + j)%nat by lia. exact Hrec.
Qed.

Lemma monitorServers_other E servers : forall w k,
  Forall (fun s => sr_key s <> k) servers ->
  listPostedRecords (w_store (snd (monitorServers E servers w))) k
  = listPostedRecords (w_store w) k.
Proof.
  induction servers as [|s0 rest IH]; intros w k Hk.
  - reflexivity.
  - cbn [monitorServers]. unfold bind. apply Forall_cons in Hk as [Hk0 Hrest].
    destruct (monitorServer_run E s0 w) as (_ & Hother & _).
    specialize (Hother k ltac:(congruence)).
    destruct (monitorServer E s0 w) as [[] w1]. cbn [snd] in Hother |- *.
    rewrite IH by exact Hrest. exact Hother.
Qed.

(** The i-th record of the j-th server in a tick. *)
Lemma monitorServers_at E servers : forall w j s i rec,
  NoDup (map sr_key servers) ->
  servers !! j = Some s ->
  listPostedRecords (w_store w) (sr_key s) !! i = Some rec ->
  exists w_i pre post,
    w_trace w_i = (w_trace w ++ pre)%list /\
    let now := Js.floor_div (clock_at E (w_reads w + j)) 1000 in
    let r_i := monitorRecord E (sr_key s) now rec w_i in
    listPostedRecords (w_store (snd (monitorServers E servers w))) (sr_key s) !! i
    = Some (fst (fst r_i)) /\
    w_trace (snd (monitorServers E servers w)) = (w_trace (snd r_i) ++ post)%list /\
    fetch_led post.
Proof.
  induction servers as [|s0 rest IH]; intros w j s i rec Hnd Hj Hi.
  - rewrite lookup_nil in Hj. discriminate.
  - cbn [monitorServers]. unfold bind.
    cbn [map] in Hnd. apply NoDup_cons in Hnd as [Hnotin Hnd].
    destruct (monitorServer_run E s0 w) as (Hown & Hother & _ & Hreads).
    pose proof (monitorServer_trace E s0 w) as Htrace. cbv zeta in Htrace.
    destruct j as [|j]; cbn in Hj.
    + injection Hj as ->. rewrite Nat.add_0_r.
      destruct (monitorRecords_at E (sr_key s) (Js.floor_div (clock_at E (w_reads w)) 1000)
                  (listPostedRecords (w_store w) (sr_key s))
                  (mkWorld (w_store w) (w_trace w) (S (w_reads w))) i rec Hi)
        as (w_i & pre & post & Hpre & Hrec & Hpost & Hled).
      cbv zeta in Hrec, Hpost. rewrite <- Hown in Hrec. rewrite <- Htrace in Hpost.
      cbn [w_trace] in Hpre.
      destruct (monitorServer E s w) as [[] w1]. cbn [snd] in Hrec, Hpost |- *.
      destruct (monitorServers_events E rest w1 Hnd) as (evs & Ht & Hled' & _).
      exists w_i, pre, (post ++ evs)%list. split; [exact Hpre|]. cbv zeta.
      split.
      { rewrite monitorServers_other; [exact Hrec|].
        apply Forall_forall. intros s' Hs' Heq. apply Hnotin. rewrite <- Heq.
        apply list_elem_of_fmap. exists s'. split; [reflexivity | exact Hs']. }
      split; [rewrite Ht, Hpost, app_assoc; reflexivity|].
      apply fetch_led_app; assumption.
    + assert (Hne : sr_key s <> sr_key s0).
      { intros Heq. apply Hnotin. rewrite <- Heq.
        apply list_elem_of_fmap. exists s. split; [reflexivity|].
        apply list_elem_of_lookup. eauto. }
      specialize (Hother (sr_key s) Hne).
      destruct (monitorRecords_events E (sr_key s0) (Js.floor_div (clock_at E (w_reads w)) 1000)
                  (listPostedRecords (w_store w) (sr_key s0))
                  (mkWorld (w_store w) (w_trace w) (S (w_reads w)))) as (evs1 & Ht1 & _).
      rewrite Ht1 in Htrace. cbn [w_trace] in Htrace.
      destruct (monitorServer E s0 w) as [[] w1]. cbn [snd] in Hother, Hreads, Htrace |- *.
      rewrite <- Hother in Hi.
      destruct (IH w1 j s i rec Hnd Hj Hi) as (w_i & pre & post & Hpre & Hrec).
      exists w_i, (evs1 ++ pre)%list, post.
      split; [rewrite Hpre, Htrace, app_assoc; reflexivity|].
      rewrite Hreads in Hrec.
      replace (w_reads w + S j)%nat with (S (w_reads w) + j)%nat by lia. exact Hrec.
Qed.

Lemma age_old now rec created :
  rec_createdUtc rec = Some created -> created <> 0 ->
  7 * 86400 < now - created -> MONITOR_TTL_DAYS * 86400 < age now rec.
Proof.
  intros Hc Hnz Hold. rewrite (age_of_stamped now rec created Hc Hnz).
  unfold MONITOR_TTL_DAYS. exact Hold.
Qed.

Lemma age_young now rec created :
  ~ MONITOR_TTL_DAYS * 86400 < age now rec ->
  rec_createdUtc rec = Some created -> created <> 0 ->
  now - created <= 7 * 86400.
Proof.
  intros Hyoung Hc Hnz. rewrite (age_of_stamped now rec created Hc Hnz) in Hyoung.
  unfold MONITOR_TTL_DAYS in Hyoung. lia.
Qed.

(** C7. On a monitor tick over servers with distinct keys, every live
    record whose creation stamp lies more than seven days before the time of
    its server's pass is stored as expired afterwards, its other fields
    untouched, and handling it makes no call.  Over the whole tick, the
    platform is asked only about records that are live and within the seven
    days: no lookup is made for a record that has expired. *)
Theorem monitor_expires_old_records (E : Env) (w : World) :
  let servers := listServers (w_store w) in
  let w' := snd (runRemovalMonitorOnce E w) in
  (* the time of the pass over the j-th server, in seconds *)
  let now_at := fun j : nat => clock_at E (w_reads w + j) / 1000 in
  NoDup (map sr_key servers) ->
  (forall j s i rec created,
     servers !! j = Some s ->
     listPostedRecords (w_store w) (sr_key s) !! i = Some rec ->
     rec_status rec = Live ->
     rec_createdUtc rec = Some created ->
     created <> 0 ->
     7 * 86400 < now_at j - created ->
     let expired := mkPosted (rec_id rec) (rec_subreddit rec) (rec_serverKey rec)
                      (Some created) Expired (rec_removal rec) in
     listPostedRecords (w_store w') (sr_key s) !! i = Some expired /\
     forall w0, monitorRecord E (sr_key s) (now_at j) rec w0 = ((expired, true), w0)) /\
  (exists added,
     w_trace w' = (w_trace w ++ added)%list /\
     forall pid,
       EvFetchSubmissionInfo pid ∈ added ->
       exists j s i rec,
         servers !! j = Some s /\
         listPostedRecords (w_store w) (sr_key s) !! i = Some rec /\
         rec_status rec = Live /\
         rec_id rec = Some pid /\
         forall created,
           rec_createdUtc rec = Some created -> created <> 0 ->
           now_at j - created <= 7 * 86400).
Proof.
  intros servers w' now_at Hnd. split.
  - intros j s i rec created Hj Hi Hlive Hc Hnz Hold expired.
    pose proof (age_old (now_at j) rec created Hc Hnz Hold) as Hage.
    assert (Hexp : set_status rec Expired = expired).
    { unfold set_status, expired. rewrite Hc. reflexivity. }
    rewrite <- Hexp. split.
    + subst w'. unfold runRemovalMonitorOnce, bind, get_store.
      apply (monitorServers_expires E servers w j s i rec); assumption.
    + intros w0. apply monitorRecord_expired; assumption.
  - subst w'. unfold runRemovalMonitorOnce, bind, get_store.
    destruct (monitorServers_events E servers w Hnd) as (added & Htrace & _ & Hwatched).
    exists added. split; [exact Htrace|].
    intros pid Hin. destruct (Hwatched pid Hin) as (j & s & i & rec & Hj & Hi & Hlive & Hid & Hyoung).
    exists j, s, i, rec. split; [exact Hj|]. split; [exact Hi|]. split; [exact Hlive|].
    split; [exact Hid|]. intros created Hc Hnz. exact (age_young _ rec created Hyoung Hc Hnz).
Qed.

(** [classifyRemoval] reports the lower-cased category, whatever it is. *)
Lemma classifyRemoval_spec thing :
  let cat := Js.toLowerCase (text_of (removed_by_category thing)) in
  Reddit.classifyRemoval thing = if String.eqb cat "" then (false, None) else (true, Some cat).
Proof.
  intros cat. unfold Reddit.classifyRemoval. fold cat.
  destruct (String.eqb cat ""); [reflexivity|].
  destruct (existsb _ _); [reflexivity|].
  destruct (String.eqb_spec cat "deleted") as [->|]; reflexivity.
Qed.

Lemma monitorRecord_queried E key now rec w :
  rec_status rec = Live ->
  ~ MONITOR_TTL_DAYS * 86400 < age now rec ->
  Js.truthy (rec_id rec) = true ->
  let pid := text_of (rec_id rec) in
  let asked := mkWorld (w_store w) (w_trace w ++ [EvFetchSubmissionInfo pid]) (w_reads w) in
  monitorRecord E key now rec w
  = match fetchSubmissionInfo_result E (w_trace w) pid with
    | inr (Some thing) =>
        if escalates thing
        then let cat := Js.toLowerCase (text_of (removed_by_category thing)) in
             ((mark_removed rec cat now, true),
              mkWorld (w_store w)
                (w_trace w ++ [EvFetchSubmissionInfo pid;
                               EvNotifySquire "cryer.post.removed"
                                 (PostRemoved key (rec_subreddit rec) (rec_id rec) cat)])
                (w_reads w))
        else ((rec, false), asked)
    | _ => ((rec, false), asked)
    end.
Proof.
  intros Hlive Hage Hid pid asked. destruct w as [st tr rd].
  unfold monitorRecord. rewrite Hlive, Hid. cbv beta iota delta [is_live negb].
  destruct (Z.ltb_spec (MONITOR_TTL_DAYS * 86400) (age now rec)); [contradiction|].
  run_monad. fold pid.
  destruct (fetchSubmissionInfo_result E tr pid) as [e|[thing|]]; run_monad; try reflexivity.
  rewrite classifyRemoval_spec. unfold escalates. cbv zeta.
  set (cat := Js.toLowerCase (text_of (removed_by_category thing))).
  destruct (String.eqb cat "") eqn:Hempty; cbv beta iota delta [negb andb]; [reflexivity|].
  change (text_of (Some cat)) with cat.
  unfold Js.truthy. rewrite Hempty. cbv beta iota delta [negb andb].
  destruct (String.eqb cat "deleted"); run_monad; [reflexivity|].
  rewrite <- app_assoc. reflexivity.
Qed.

Lemma escalates_spec thing :
  let cat := Js.toLowerCase (text_of (removed_by_category thing)) in
  escalates thing = true <-> cat <> "" /\ cat <> "deleted".
Proof.
  intros cat. unfold escalates. fold cat.
  destruct (String.eqb_spec cat ""), (String.eqb_spec cat "deleted"); cbn; split;
    try discriminate; try tauto; intros [? ?]; contradiction.
Qed.

Lemma fetch_led_not_notice evs type payload rest :
  fetch_led evs -> evs <> EvNotifySquire type payload :: rest.
Proof. intros Hled ->. exact Hled. Qed.

(** C8. For a live record that the monitor looks up, within its seven days
    and known under an id: when the platform reports the category [deleted]
    (in any letter case) the record stays as it is, live and without a
    removal stamp, and the only call is the lookup itself, so nothing is
    notified; when it reports any other category the record becomes
    [removed], stamped with that category and the time of the pass, and the
    removal is notified.  A record comes out [removed] in no other way.  In
    a tick over servers with distinct keys the same holds of the stored
    record: the lookup shows in the calls of the tick, followed by the
    notification in the second case and by none in the first. *)
Theorem author_deletion_keeps_live (E : Env) :
  let removed_as := fun (rec : PostedRecord) (cat : string) (now : Z) =>
    mkPosted (rec_id rec) (rec_subreddit rec) (rec_serverKey rec) (rec_createdUtc rec)
      Removed (Some (mkRemoval cat now)) in
  let notice := fun (key : string) (rec : PostedRecord) (cat : string) =>
    EvNotifySquire "cryer.post.removed"
      (PostRemoved key (rec_subreddit rec) (rec_id rec) cat) in
  (* one record that the monitor looks up *)
  (forall key now rec w thing,
     rec_status rec = Live ->
     ~ MONITOR_TTL_DAYS * 86400 < age now rec ->
     Js.truthy (rec_id rec) = true ->
     let pid := text_of (rec_id rec) in
     fetchSubmissionInfo_result E (w_trace w) pid = inr (Some thing) ->
     let cat := Js.toLowerCase (text_of (removed_by_category thing)) in
     (cat = "deleted" ->
      monitorRecord E key now rec w
      = ((rec, false),
         mkWorld (w_store w) (w_trace w ++ [EvFetchSubmissionInfo pid]) (w_reads w))) /\
     (cat <> "" -> cat <> "deleted" ->
      monitorRecord E key now rec w
      = ((removed_as rec cat now, true),
         mkWorld (w_store w)
           (w_trace w ++ [EvFetchSubmissionInfo pid; notice key rec cat]) (w_reads w)))) /\
  (* a record comes out removed in no other way *)
  (forall key now rec w,
     rec_status rec = Live ->
     rec_status (fst (fst (monitorRecord E key now rec w))) = Removed ->
     exists thing,
       fetchSubmissionInfo_result E (w_trace w) (text_of (rec_id rec)) = inr (Some thing) /\
       let cat := Js.toLowerCase (text_of (removed_by_category thing)) in
       cat <> "" /\ cat <> "deleted" /\
       fst (fst (monitorRecord E key now rec w)) = removed_as rec cat now) /\
  (* the stored record after a tick *)
  (forall w j s i rec,
     let servers := listServers (w_store w) in
     let w' := snd (runRemovalMonitorOnce E w) in
     let now := clock_at E (w_reads w + j) / 1000 in
     NoDup (map sr_key servers) ->
     servers !! j = Some s ->
     listPostedRecords (w_store w) (sr_key s) !! i = Some rec ->
     rec_status rec = Live ->
     ~ MONITOR_TTL_DAYS * 86400 < age now rec ->
     Js.truthy (rec_id rec) = true ->
     let pid := text_of (rec_id rec) in
     exists pre rest,
       w_trace w' = (w_trace w ++ pre ++ EvFetchSubmissionInfo pid :: rest)%list /\
       forall thing,
         fetchSubmissionInfo_result E (w_trace w ++ pre) pid = inr (Some thing) ->
         let cat := Js.toLowerCase (text_of (removed_by_category thing)) in
         (cat = "deleted" ->
          listPostedRecords (w_store w') (sr_key s) !! i = Some rec /\
          forall type payload rest', rest <> EvNotifySquire type payload :: rest') /\
         (cat <> "" -> cat <> "deleted" ->
          listPostedRecords (w_store w') (sr_key s) !! i = Some (removed_as rec cat now) /\
          exists rest', rest = notice (sr_key s) rec cat :: rest')).
Proof.
  intros removed_as notice. split; [|split].
  - intros key now rec w thing Hlive Hage Hid pid Hans cat.
    rewrite (monitorRecord_queried E key now rec w Hlive Hage Hid). fold pid.
    rewrite Hans. fold cat.
    pose proof (escalates_spec thing) as Hesc. cbv zeta in Hesc. fold cat in Hesc.
    split.
    + intros Hdel. destruct (escalates thing); [|reflexivity].
      destruct (proj1 Hesc eq_refl) as [_ Hne]. contradiction.
    + intros Hne Hnd. destruct (escalates thing); [reflexivity|].
      assert (false = true) by (apply Hesc; split; assumption). discriminate.
  - intros key now rec w Hlive.
    destruct (Z.lt_decidable (MONITOR_TTL_DAYS * 86400) (age now rec)) as [Hold|Hage].
    { rewrite monitorRecord_expired by assumption. discriminate. }
    destruct (Js.truthy (rec_id rec)) eqn:Hid.
    2:{ unfold monitorRecord. rewrite Hlive, Hid. cbv beta iota delta [is_live negb].
        destruct (Z.ltb_spec (MONITOR_TTL_DAYS * 86400) (age now rec)); [contradiction|].
        discriminate. }
    rewrite (monitorRecord_queried E key now rec w Hlive Hage Hid).
    destruct (fetchSubmissionInfo_result E (w_trace w) (text_of (rec_id rec))) as [e|[thing|]];
      cbn [fst]; try (rewrite Hlive; discriminate).
    pose proof (escalates_spec thing) as Hesc. cbv zeta in Hesc.
    destruct (escalates thing); [|cbn [fst]; rewrite Hlive; discriminate].
    intros _. exists thing. split; [reflexivity|]. cbv zeta.
    destruct (proj1 Hesc eq_refl) as [Hne Hnd]. repeat split; assumption.
  - intros w j s i rec servers w' now Hnd Hj Hi Hlive Hage Hid pid.
    assert (Htick : runRemovalMonitorOnce E w = monitorServers E servers w) by reflexivity.
    subst w'. rewrite Htick.
    destruct (monitorServers_at E servers w j s i rec Hnd Hj Hi)
      as (w_i & pre & post & Hpre & Hat).
    cbv zeta in Hat. unfold Js.floor_div in Hat. fold now in Hat.
    rewrite (monitorRecord_queried E (sr_key s) now rec w_i Hlive Hage Hid) in Hat.
    fold pid in Hat. rewrite Hpre in Hat.
    destruct Hat as (Hrec & Htrace & Hled).
    destruct (fetchSubmissionInfo_result E (w_trace w ++ pre) pid) as [e|[thing|]] eqn:Hans.
    + exists pre, post. cbn [fst snd w_trace] in Htrace.
      split; [rewrite Htrace, <- !app_assoc; reflexivity|]. intros thing H; rewrite Hans in H; discriminate H.
    + pose proof (escalates_spec thing) as Hesc. cbv zeta in Hesc.
      destruct (escalates thing); cbn [fst snd w_trace] in Hrec, Htrace.
      * exists pre, (notice (sr_key s) rec
                       (Js.toLowerCase (text_of (removed_by_category thing))) :: post).
        split; [rewrite Htrace, <- !app_assoc; reflexivity|].
        intros thing' H. rewrite Hans in H. injection H as <-. cbv zeta.
        destruct (proj1 Hesc eq_refl) as [Hne Hnd']. split; [intros H; contradiction|].
        intros _ _. split; [exact Hrec | eexists; reflexivity].
      * exists pre, post.
        split; [rewrite Htrace, <- !app_assoc; reflexivity|].
        intros thing' H. rewrite Hans in H. injection H as <-. cbv zeta. split.
        -- intros _. split; [exact Hrec|]. intros type payload rest'.
           apply fetch_led_not_notice, Hled.
        -- intros Hne Hnd'. assert (false = true) by (apply Hesc; split; assumption).
           discriminate.
    + exists pre, post. cbn [fst snd w_trace] in Htrace.
      split; [rewrite Htrace, <- !app_assoc; reflexivity|]. intros thing H; rewrite Hans in H; discriminate H.
Qed.

(** *** Lifecycle *)

Lemma posted_grows_set_schedules st l : posted_grows st (set_schedules st l).
Proof. intros k. exists []. rewrite app_nil_r. auto. Qed.

Lemma posted_grows_updateServerLastAdAt st key t :
  posted_grows st (updateServerLastAdAt st key t).
Proof.
  intros k. exists []. rewrite app_nil_r. split; [|constructor].
  unfold updateServerLastAdAt, writeServerConfig, listPostedRecords.
  rewrite files_of_set_files. destruct (decide (key = k)) as [->|]; reflexivity.
Qed.

(** A session only appends live records to the posted lists. *)
Lemma advertise_posted_grows E req w :
  posted_grows (w_store w) (w_store (snd (advertise E req w))).
Proof.
  destruct req as [serverKey dryRun auto], w as [st tr rd]. open_advertise.
  destruct (Js.truthy serverKey); cbv beta iota delta [negb]; run_monad;
    [|apply posted_grows_refl].
  destruct (throttled _ _); run_monad.
  { destruct auto; [rewrite addSchedule_run|]; run_monad;
      [apply posted_grows_set_schedules | apply posted_grows_refl]. }
  destruct (serverDirExists _ _); run_monad; [|apply posted_grows_refl].
  assert (Hloop : forall token tr0,
    posted_grows st
      (w_store (snd (runTargets E (text_of serverKey) dryRun token
                       (readSubs st (text_of serverKey))
                       (mkLoop (readCooldowns st (text_of serverKey)) [] 0)
                       (mkWorld st tr0 (S rd)))))).
  { intros token tr0.
    apply (runTargets_frame E (text_of serverKey) dryRun token _ _ (mkWorld st tr0 (S rd))). }
  destruct dryRun; run_monad.
  - specialize (Hloop None tr).
    destruct (runTargets _ _ _ _ _ _ _) as [ls [st2 tr2 rd2]].
    cbv beta iota delta [negb andb]. run_monad. exact Hloop.
  - destruct (getToken_result E tr) as [e|token]; run_monad; [apply posted_grows_refl|].
    specialize (Hloop token (tr ++ [EvGetToken])%list).
    destruct (runTargets _ _ _ _ _ _ _) as [ls [st2 tr2 rd2]].
    cbn [snd w_store] in Hloop.
    cbv beta iota delta [negb andb]. run_monad.
    destruct (0 <? ls_postedCount ls); run_monad; [|exact Hloop].
    eapply posted_grows_trans; [exact Hloop | apply posted_grows_updateServerLastAdAt].
Qed.

Lemma perform_keeps_settled E a w k i rec :
  listPostedRecords (w_store w) k !! i = Some rec ->
  rec_status rec <> Live ->
  listPostedRecords (w_store (perform E a w)) k !! i = Some rec.
Proof.
  intros Hi Hs. destruct a as [|req]; cbn [perform].
  - unfold runRemovalMonitorOnce, bind, get_store.
    apply monitorServers_keeps_settled; assumption.
  - destruct (advertise_posted_grows E req w k) as (added & -> & _).
    apply lookup_app_l_Some. exact Hi.
Qed.

(** C9. The status of a posted record only moves away from live: sessions
    append records and only live ones; the monitor passes over a record
    that is not live without asking anything; a live record either stays
    as it is or leaves live; and whatever monitor ticks and sessions
    follow, a record that is off live stays exactly as it is. *)
Theorem posted_status_is_monotone (E : Env) :
  (* records are created live, at the end of the list *)
  (forall req w, posted_grows (w_store w) (w_store (snd (advertise E req w)))) /\
  (* the monitor passes over a record that is not live *)
  (forall key now rec w,
     rec_status rec <> Live -> monitorRecord E key now rec w = ((rec, false), w)) /\
  (* and a live record stays as it is or leaves live *)
  (forall key now rec w,
     let rec' := fst (fst (monitorRecord E key now rec w)) in
     rec' = rec \/ (rec_status rec = Live /\ rec_status rec' <> Live)) /\
  (* once off live, a record is never changed again *)
  (forall acts w k i rec,
     listPostedRecords (w_store w) k !! i = Some rec ->
     rec_status rec <> Live ->
     listPostedRecords (w_store (perform_all E acts w)) k !! i = Some rec).
Proof.
  split; [apply advertise_posted_grows|].
  split; [intros; apply monitorRecord_settled; assumption|].
  split.
  - intros key now rec w rec'.
    destruct (monitorRecord_frame E key now rec w) as (_ & _ & _ & Hlive). fold rec' in Hlive.
    destruct (rec_status rec) eqn:Hs;
      [| left; subst rec'; rewrite monitorRecord_settled by congruence; reflexivity ..].
    destruct (rec_status rec') eqn:Hs'; [left; apply Hlive; reflexivity | right; split; congruence ..].
  - intros acts. induction acts as [|a rest IH]; intros w k i rec Hi Hs.
    + exact Hi.
    + cbn [perform_all fold_left]. apply IH; [|exact Hs].
      apply perform_keeps_settled; assumption.
Qed.

(** ** The schedule runtime *)

Lemma findIndex_lookup l : forall i s,
  NoDup (map s_id l) -> l !! i = Some s -> findIndex (s_id s) l = Some i.
Proof.
  induction l as [|x rest IH]; intros i s Hnd Hi.
  - rewrite lookup_nil in Hi. discriminate.
  - cbn [map] in Hnd. apply NoDup_cons in Hnd as [Hnotin Hnd].
    destruct i as [|i]; cbn in Hi.
    + injection Hi as ->. cbn [findIndex]. rewrite String.eqb_refl. reflexivity.
    + cbn [findIndex].
      destruct (String.eqb_spec (s_id x) (s_id s)) as [Heq|Hne].
      * exfalso. apply Hnotin. rewrite Heq.
        apply list_elem_of_fmap. exists s. split; [reflexivity|].
        apply list_elem_of_lookup. eauto.
      * rewrite (IH i s Hnd Hi). reflexivity.
Qed.

(** lib/scheduler.js: what the runner does with one due entry.  With ids
    that are unique and a fetch that leaves [schedules.json] alone (the
    advertise call is made with [autoScheduleIfThrottled = false]), the
    entry is removed on an [ok] response and otherwise rewritten in place:
    one more attempt, [lastAttemptMs = now], the error noted, due again at
    [now + retryDelayMs]. *)
Lemma scheduler_runOne_retries retryDelayMs now (fetchImpl : FetchImpl) s i w :
  let answer := fst (fetchImpl (Scheduler.trigger_req s) w) in
  let w1 := snd (fetchImpl (Scheduler.trigger_req s) w) in
  let l := st_schedules (w_store w) in
  let l' := st_schedules (w_store (snd (Scheduler.runOne retryDelayMs now fetchImpl s w))) in
  NoDup (map s_id l) ->
  l !! i = Some s ->
  s_whenMs s <= now ->
  st_schedules (w_store w1) = l ->
  match answer with
  | FetchReturns (Some response) =>
      if h_ok response
      then l' = List.filter (fun x => negb (String.eqb (s_id x) (s_id s))) l
      else l' = <[i := apply_updates s
                         (mkUpdates (now + retryDelayMs) (Scheduler.next_attempt s) now
                            match h_status response with
                            | None => "no response"
                            | Some status => Scheduler.show_status status
                            end)]> l
  | FetchReturns None =>
      l' = <[i := apply_updates s
                    (mkUpdates (now + retryDelayMs) (Scheduler.next_attempt s) now
                       "no response")]> l
  | FetchThrows error =>
      l' = <[i := apply_updates s
                    (mkUpdates (now + retryDelayMs) (Scheduler.next_attempt s) now
                       (error_text error))]> l
  end.
Proof.
  intros answer w1 l l' Hnd Hi Hdue Hkeep.
  subst l'. unfold Scheduler.runOne.
  destruct (Z.ltb_spec now (s_whenMs s)); [lia|].
  unfold bind. subst answer w1.
  destruct (fetchImpl (Scheduler.trigger_req s) w) as [r [st1 tr1 rd1]].
  cbn [fst snd w_store] in Hkeep |- *.
  assert (Hpost : forall err,
    st_schedules (w_store (snd (Scheduler.postpone retryDelayMs now s err (mkWorld st1 tr1 rd1))))
    = <[i := apply_updates s (mkUpdates (now + retryDelayMs) (Scheduler.next_attempt s) now err)]> l).
  { intros err. unfold Scheduler.postpone. run_monad.
    unfold updateSchedule, listSchedules. rewrite Hkeep.
    subst l. rewrite (findIndex_lookup _ i s Hnd Hi), Hi. reflexivity. }
  destruct r as [err|[response|]]; [apply Hpost | | apply Hpost].
  destruct (h_ok response); [|apply Hpost].
  run_monad. unfold removeSchedule, listSchedules. cbn [set_schedules st_schedules].
  rewrite Hkeep. reflexivity.
Qed.

(** server.js: the tick the server installs removes a due entry whatever the
    advertise call did. *)
Lemma server_tick_always_removes (fetch : FetchImpl) now s w :
  s_whenMs s <= now ->
  Forall (fun x => s_id x <> s_id s)
    (st_schedules (w_store (snd (ServerTick.runOne fetch now s w)))).
Proof.
  intros Hdue. unfold ServerTick.runOne.
  destruct (Z.leb_spec (s_whenMs s) now); [|lia].
  unfold bind. destruct (fetch _ w) as [r [st1 tr1 rd1]]. run_monad.
  unfold removeSchedule. cbn [set_schedules st_schedules].
  apply Forall_forall. intros x Hx. apply list_elem_of_In in Hx. apply filter_In in Hx as [_ Hx].
  destruct (String.eqb_spec (s_id x) (s_id s)); [discriminate | assumption].
Qed.

(** C1 (the code departs from it). The tick of server.js drops a due entry
    whose advertise call was answered 503, where the claim has it kept and
    postponed; the runner of lib/scheduler.js, on the same input, keeps the
    entry with one more attempt, the error noted and a new due time. *)
Theorem server_tick_drops_failed_schedule :
  (* server.js: the entry is gone although the call answered 503 *)
  st_schedules (w_store (snd (ServerTick.runScheduleTick Sample.env_ok Sample.fetch_503 Sample.due_world)))
  = [] /\
  (* lib/scheduler.js on the same input: the entry is kept for a retry *)
  st_schedules (w_store (snd (Scheduler.runScheduleTick 300000 Sample.t0 Sample.fetch_503 Sample.due_world)))
  = [mkSchedule "lnz8f2-0a1b2c3d" "alpha" (Sample.t0 + 300000) "throttled"
       (Sample.t0 - 20000) (Some 1) (Some Sample.t0) (Some "status 503")].
Proof. split; vm_compute; reflexivity. Qed.

(** ** schedules.json *)



Lemma filter_ids_fresh (l : list Schedule) id :
  Forall (fun s => s_id s <> id) l ->
  List.filter (fun s => negb (String.eqb (s_id s) id)) l = l.
Proof.
  induction l as [|x rest IH]; intros H; [reflexivity|].
  inversion H as [|? ? Hx Hrest]; subst. cbn [List.filter].
  destruct (String.eqb_spec (s_id x) id); [contradiction|]. cbn [negb].
  rewrite IH by exact Hrest. reflexivity.
Qed.

Lemma filter_ids_gone (l : list Schedule) id :
  Forall (fun s => s_id s <> id) (List.filter (fun s => negb (String.eqb (s_id s) id)) l).
Proof.
  apply Forall_forall. intros x Hx. apply list_elem_of_In, filter_In in Hx as [_ Hx].
  destruct (String.eqb_spec (s_id x) id); [discriminate | assumption].
Qed.


Lemma filter_sublist {A} (P : A -> bool) (l : list A) : sublist (List.filter P l) l.
Proof.
  induction l as [|x rest IH]; [constructor|]. cbn [List.filter].
  destruct (P x); [apply sublist_skip | apply sublist_cons]; exact IH.
Qed.

(** X2. [removeSchedule] leaves no entry with the id, keeps every other entry,
    in the order they had, and changes nothing when the id is absent; run
    twice it does what it does once. *)
Theorem removeSchedule_spec (st : Store) (id : string) :
  let st' := removeSchedule st id in
  Forall (fun s => s_id s <> id) (st_schedules st') /\
  sublist (st_schedules st') (st_schedules st) /\
  (forall s, s_id s <> id -> (s ∈ st_schedules st' <-> s ∈ st_schedules st)) /\
  (exists gone, Forall (fun s => s_id s = id) gone /\
                st_schedules st ≡ₚ (st_schedules st' ++ gone)%list) /\
  (Forall (fun s => s_id s <> id) (st_schedules st) -> st' = st) /\
  removeSchedule st' id = st' /\
  st_servers st' = st_servers st /\ st_index st' = st_index st.
Proof.
  intros st'. subst st'. unfold removeSchedule, listSchedules.
  cbn [set_schedules st_schedules st_servers st_index].
  split; [apply filter_ids_gone|].
  split; [apply filter_sublist|].
  split.
  { intros s Hs. rewrite !list_elem_of_In, filter_In.
    destruct (String.eqb_spec (s_id s) id); [contradiction|]. cbn [negb]. tauto. }
  split.
  { exists (List.filter (fun s => String.eqb (s_id s) id) (st_schedules st)). split.
    - apply Forall_forall. intros x Hx. apply list_elem_of_In, filter_In in Hx as [_ Hx].
      apply String.eqb_eq, Hx.
    - induction (st_schedules st) as [|x rest IH]; [reflexivity|]. cbn [List.filter].
      destruct (String.eqb (s_id x) id); cbn [negb app].
      + rewrite IH at 1. apply Permutation_middle.
      + constructor. exact IH. }
  split.
  { intros Hfresh. rewrite (filter_ids_fresh _ _ Hfresh). destruct st; reflexivity. }
  split; [|split; reflexivity].
  unfold set_schedules. cbn [st_schedules st_index st_servers].
  rewrite (filter_ids_fresh _ _ (filter_ids_gone _ _)). reflexivity.
Qed.

(** X3. [addSchedule] puts one entry at the end of the list, with the fields it
    was given, an id made of the time and a random suffix, the creation
    time, and no attempt recorded; it returns that entry, makes no call and
    touches nothing else.  Removing the entry again restores the data
    directory when its id was not in use. *)
Theorem addSchedule_spec (E : Env) (serverKey : string) (whenMs : Z) (reason : string)
    (w : World) :
  let entry := fst (addSchedule E serverKey whenMs reason w) in
  let w' := snd (addSchedule E serverKey whenMs reason w) in
  entry = mkSchedule
            (String.append (base36 E (clock_at E (w_reads w)))
               (String.append "-" (random_hex E (S (w_reads w)))))
            serverKey whenMs reason (clock_at E (S (w_reads w))) None None None /\
  st_schedules (w_store w') = (st_schedules (w_store w) ++ [entry])%list /\
  st_servers (w_store w') = st_servers (w_store w) /\
  st_index (w_store w') = st_index (w_store w) /\
  w_trace w' = w_trace w /\
  (Forall (fun s => s_id s <> s_id entry) (st_schedules (w_store w)) ->
   removeSchedule (w_store w') (s_id entry) = w_store w).
Proof.
  destruct w as [st tr rd]. rewrite addSchedule_run.
  cbv beta iota zeta delta [fst snd w_store w_trace w_reads].
  cbn [set_schedules st_schedules st_servers st_index].
  repeat split.
  intros Hfresh. unfold removeSchedule, listSchedules, set_schedules.
  cbn [st_schedules st_index st_servers].
  rewrite List.filter_app. cbn [List.filter s_id]. rewrite String.eqb_refl. cbn [negb].
  rewrite app_nil_r. cbn [s_id] in Hfresh. rewrite (filter_ids_fresh _ _ Hfresh).
  destruct st; reflexivity.
Qed.

(** ** The session and the schedule list *)

Lemma session_schedule_frame E req w :
  let resp := fst (advertise E req w) in
  let w' := snd (advertise E req w) in
  st_index (w_store w') = st_index (w_store w) /\
  (st_schedules (w_store w') = st_schedules (w_store w) \/
   (rq_autoScheduleIfThrottled req = true /\
    exists s, st_schedules (w_store w') = (st_schedules (w_store w) ++ [s])%list /\
              s_reason s = "throttled" /\
              resp = RespThrottled (s_whenMs s) (Some s))) /\
  (rq_autoScheduleIfThrottled req = false ->
   st_schedules (w_store w') = st_schedules (w_store w)).
Proof.
  destruct req as [serverKey dryRun auto], w as [st tr rd]. open_advertise.
  destruct (Js.truthy serverKey); cbv beta iota delta [negb]; run_monad; [|auto].
  destruct (throttled _ _); run_monad.
  { destruct auto; [rewrite addSchedule_run|]; run_monad; cbn [set_schedules st_index st_schedules].
    - split; [reflexivity|]. split; [|discriminate].
      right. split; [reflexivity|]. eexists. split; [reflexivity|]. split; reflexivity.
    - auto. }
  destruct (serverDirExists _ _); run_monad; [|auto].
  assert (Hloop : forall token tr0,
    loop_frame st
      (w_store (snd (runTargets E (text_of serverKey) dryRun token
                       (readSubs st (text_of serverKey))
                       (mkLoop (readCooldowns st (text_of serverKey)) [] 0)
                       (mkWorld st tr0 (S rd)))))).
  { intros token tr0.
    apply (runTargets_frame E (text_of serverKey) dryRun token _ _ (mkWorld st tr0 (S rd))). }
  destruct dryRun; run_monad.
  - specialize (Hloop None tr).
    destruct (runTargets _ _ _ _ _ _ _) as [ls [st2 tr2 rd2]].
    cbv beta iota delta [negb andb]. run_monad.
    destruct Hloop as (Hi & Hs & _). cbn [snd w_store] in Hi, Hs. auto.
  - destruct (getToken_result E tr) as [e|token]; run_monad; [auto|].
    specialize (Hloop token (tr ++ [EvGetToken])%list).
    destruct (runTargets _ _ _ _ _ _ _) as [ls [st2 tr2 rd2]].
    destruct Hloop as (Hi & Hs & _). cbn [snd w_store] in Hi, Hs.
    cbv beta iota delta [negb andb]. run_monad.
    destruct (0 <? ls_postedCount ls); run_monad; auto.
Qed.

(** X4. A session never rewrites [servers.json], and touches [schedules.json]
    only to add the one throttle entry it was asked for, which it returns
    with the throttled answer: called without [autoScheduleIfThrottled], as
    the schedule runtime calls it, it leaves the schedule list as it is. *)
Theorem advertise_schedules (E : Env) (req : AdvertiseReq) (w : World) :
  let resp := fst (advertise E req w) in
  let w' := snd (advertise E req w) in
  st_index (w_store w') = st_index (w_store w) /\
  (st_schedules (w_store w') = st_schedules (w_store w) \/
   (rq_autoScheduleIfThrottled req = true /\
    exists s, st_schedules (w_store w') = (st_schedules (w_store w) ++ [s])%list /\
              s_reason s = "throttled" /\
              resp = RespThrottled (s_whenMs s) (Some s))) /\
  (rq_autoScheduleIfThrottled req = false ->
   st_schedules (w_store w') = st_schedules (w_store w)).
Proof. apply session_schedule_frame. Qed.

(** The advertise endpoint, called as the ticks call it, keeps the list. *)
Lemma via_endpoint_keeps_schedules E answer : keeps_schedules (via_endpoint E answer).
Proof.
  intros req w Hauto. unfold via_endpoint.
  pose proof (proj2 (proj2 (session_schedule_frame E req w)) Hauto) as H.
  destruct (advertise E req w) as [resp w']. exact H.
Qed.

(** ** server.js: the installed tick *)

Lemma filter_filter {A} (P Q : A -> bool) (l : list A) :
  List.filter P (List.filter Q l) = List.filter (fun x => Q x && P x) l.
Proof.
  induction l as [|x rest IH]; [reflexivity|]. cbn [List.filter].
  destruct (Q x); cbn [List.filter andb]; [destruct (P x)|]; rewrite IH; reflexivity.
Qed.

Lemma filter_all {A} (l : list A) : List.filter (fun _ => true) l = l.
Proof. induction l as [|x rest IH]; [reflexivity|]. cbn. rewrite IH. reflexivity. Qed.

Lemma serverTick_runAll_schedules (fetch : FetchImpl) now l :
  keeps_schedules fetch ->
  forall w,
    st_schedules (w_store (snd (ServerTick.runAll fetch now l w)))
    = List.filter (fun x => negb (due_with_id now l x)) (st_schedules (w_store w)).
Proof.
  intros Hkeep. induction l as [|s rest IH]; intros w.
  - cbn [ServerTick.runAll]. unfold ret. cbn [snd due_with_id existsb negb].
    symmetry. apply filter_all.
  - cbn [ServerTick.runAll]. unfold bind.
    destruct (ServerTick.runOne fetch now s w) as [[] w1] eqn:Hone.
    rewrite IH.
    assert (H1 : st_schedules (w_store w1)
                 = List.filter (fun x => negb ((s_whenMs s <=? now) && String.eqb (s_id s) (s_id x)))
                     (st_schedules (w_store w))).
    { revert Hone. unfold ServerTick.runOne.
      destruct (s_whenMs s <=? now); cbn [andb negb].
      - unfold bind. specialize (Hkeep (mkReq (Some (s_serverKey s)) false false) w eq_refl).
        destruct (fetch _ w) as [r [st1 tr1 rd1]]. cbn [snd w_store] in Hkeep.
        run_monad. intros [= <-]. cbn [w_store].
        unfold removeSchedule, listSchedules. cbn [set_schedules st_schedules].
        rewrite Hkeep. apply filter_ext. intros x. rewrite String.eqb_sym. reflexivity.
      - unfold ret. intros [= <-]. symmetry. apply filter_all. }
    rewrite H1, filter_filter. apply filter_ext. intros x.
    unfold due_with_id. cbn [existsb]. rewrite negb_orb. reflexivity.
Qed.

Lemma same_id_same_entry (l : list Schedule) s x :
  NoDup (map s_id l) -> s ∈ l -> x ∈ l -> s_id s = s_id x -> s = x.
Proof.
  intros Hnd Hs Hx Heq.
  apply list_elem_of_lookup_1 in Hs as [i Hi], Hx as [j Hj].
  assert (i = j); [|congruence].
  apply (NoDup_lookup (map s_id l) i j (s_id s) Hnd).
  - rewrite list_lookup_fmap, Hi. reflexivity.
  - rewrite list_lookup_fmap, Hj. cbn. congruence.
Qed.

(** X5. With ids that are unique and a fetch that leaves [schedules.json]
    alone, one tick of server.js leaves exactly the entries that are not yet
    due at the time it read, in order: every due entry is removed, whatever
    its advertise call returned, and nothing is rewritten. *)
Theorem server_tick_removes_due (E : Env) (fetch : FetchImpl) (w : World) :
  keeps_schedules fetch ->
  NoDup (map s_id (st_schedules (w_store w))) ->
  let now := clock_at E (w_reads w) in
  st_schedules (w_store (snd (ServerTick.runScheduleTick E fetch w)))
  = List.filter (fun s => negb (s_whenMs s <=? now)) (st_schedules (w_store w)).
Proof.
  intros Hkeep Hnd now. destruct w as [st tr rd].
  unfold ServerTick.runScheduleTick, bind, Date_now, get_store.
  cbn [w_store w_trace w_reads] in *.
  rewrite serverTick_runAll_schedules by exact Hkeep.
  cbn [w_store w_reads] in *. unfold listSchedules. subst now.
  apply filter_ext_in. intros x Hx. f_equal.
  unfold due_with_id.
  destruct (s_whenMs x <=? clock_at E rd) eqn:Hdue.
  - apply existsb_exists. exists x. rewrite Hdue, String.eqb_refl. auto.
  - apply not_true_is_false. intros Hex. apply existsb_exists in Hex as (s & Hs & Hc).
    apply andb_true_iff in Hc as [Hsd Heq]. apply String.eqb_eq in Heq.
    assert (s = x); [|congruence].
    apply list_elem_of_In in Hs, Hx.
    exact (same_id_same_entry _ _ _ Hnd Hs Hx Heq).
Qed.

(** ** lib/scheduler.js: the runner *)

Lemma scheduler_runOne_handled retryDelayMs now (fetchImpl : FetchImpl) s w :
  keeps_schedules fetchImpl ->
  NoDup (map s_id (st_schedules (w_store w))) ->
  s ∈ st_schedules (w_store w) ->
  handled retryDelayMs now fetchImpl s (st_schedules (w_store w))
    (st_schedules (w_store (snd (Scheduler.runOne retryDelayMs now fetchImpl s w)))).
Proof.
  intros Hkeep Hnd Hin.
  destruct (Z.lt_ge_cases now (s_whenMs s)) as [Hwait|Hdue].
  - apply handled_waiting; [exact Hwait|].
    unfold Scheduler.runOne. destruct (Z.ltb_spec now (s_whenMs s)); [reflexivity | lia].
  - apply list_elem_of_lookup_1 in Hin as [i Hi].
    pose proof (scheduler_runOne_retries retryDelayMs now fetchImpl s i w Hnd Hi Hdue
                  (Hkeep (Scheduler.trigger_req s) w eq_refl)) as H.
    cbv zeta in H.
    destruct (fst (fetchImpl (Scheduler.trigger_req s) w)) as [e|[response|]] eqn:Hans.
    + apply (handled_retry _ _ _ _ _ _ w i (error_text e)); try assumption.
      rewrite Hans. reflexivity.
    + destruct (h_ok response) eqn:Hok.
      * apply (handled_done _ _ _ _ _ _ w); try assumption.
        rewrite Hans. cbn [noted]. rewrite Hok. reflexivity.
      * apply (handled_retry _ _ _ _ _ _ w i
                 match h_status response with
                 | None => "no response"
                 | Some status => Scheduler.show_status status
                 end); try assumption.
        rewrite Hans. cbn [noted]. rewrite Hok. reflexivity.
    + apply (handled_retry _ _ _ _ _ _ w i "no response"); try assumption.
      rewrite Hans. reflexivity.
Qed.

Lemma handled_ids retryDelayMs now fetchImpl s cur cur1 :
  handled retryDelayMs now fetchImpl s cur cur1 ->
  NoDup (map s_id cur) ->
  NoDup (map s_id cur1) /\
  (forall x, x ∈ cur -> s_id x <> s_id s -> x ∈ cur1) /\
  (forall x, x ∈ cur1 -> exists y, y ∈ cur /\ s_id x = s_id y).
Proof.
  intros [Hwait -> | w0 Hdue _ -> | w0 i err Hdue _ Hi ->] Hnd.
  - split; [exact Hnd|]. split; [auto | eauto].
  - split; [|split].
    + induction cur as [|y rest IH]; [constructor|].
      cbn [map] in Hnd. apply NoDup_cons in Hnd as [Hnotin Hnd]. cbn [List.filter].
      destruct (negb _); [|apply IH, Hnd].
      cbn [map]. apply NoDup_cons. split; [|apply IH, Hnd].
      intros Hy. apply Hnotin. apply list_elem_of_fmap in Hy as (z & Hz & Hzin).
      apply list_elem_of_fmap. exists z. split; [exact Hz|].
      apply list_elem_of_In, filter_In in Hzin as [Hzin _]. apply list_elem_of_In, Hzin.
    + intros x Hx Hne. apply list_elem_of_In, filter_In. split; [apply list_elem_of_In, Hx|].
      destruct (String.eqb_spec (s_id x) (s_id s)); [contradiction | reflexivity].
    + intros x Hx. exists x. split; [|reflexivity].
      apply list_elem_of_In, filter_In in Hx as [Hx _]. apply list_elem_of_In, Hx.
  - assert (Hmap : map s_id (<[i := retried retryDelayMs now s err]> cur) = map s_id cur).
    { change (map s_id) with (fmap (M:=list) s_id).
      rewrite list_fmap_insert. apply list_insert_id.
      rewrite list_lookup_fmap, Hi. reflexivity. }
    split; [rewrite Hmap; exact Hnd|]. split.
    + intros x Hx Hne. apply list_elem_of_lookup_1 in Hx as [j Hj].
      apply (list_elem_of_lookup_2 _ j). rewrite list_lookup_insert_ne; [exact Hj|].
      intros ->. congruence.
    + intros x Hx. apply list_elem_of_lookup_1 in Hx as [j Hj].
      destruct (decide (i = j)) as [->|Hne].
      * rewrite list_lookup_insert_eq in Hj by (eapply lookup_lt_Some; eauto).
        injection Hj as <-. exists s. split; [eapply list_elem_of_lookup_2; eauto | reflexivity].
      * rewrite list_lookup_insert_ne in Hj by exact Hne.
        exists x. split; [eapply list_elem_of_lookup_2; eauto | reflexivity].
Qed.

Lemma scheduler_runAll_spec retryDelayMs now (fetchImpl : FetchImpl) :
  keeps_schedules fetchImpl ->
  forall todo w,
    let cur := st_schedules (w_store w) in
    let final := st_schedules (w_store (snd (Scheduler.runAll retryDelayMs now fetchImpl todo w))) in
    NoDup (map s_id cur) -> NoDup (map s_id todo) ->
    (forall s, s ∈ todo -> s ∈ cur) ->
    NoDup (map s_id final) /\
    (forall x, x ∈ cur -> s_id x ∉ map s_id todo -> x ∈ final) /\
    (forall x, x ∈ final -> exists y, y ∈ cur /\ s_id x = s_id y) /\
    (forall s, s ∈ todo -> now < s_whenMs s -> s ∈ final) /\
    (forall s, s ∈ todo -> s_whenMs s <= now ->
       exists w0,
         match noted (fst (fetchImpl (Scheduler.trigger_req s) w0)) with
         | None => Forall (fun x => s_id x <> s_id s) final
         | Some lastError => retried retryDelayMs now s lastError ∈ final
         end).
Proof.
  intros Hkeep. induction todo as [|s rest IH]; intros w cur final Hnd Hndt Hsub.
  - subst final cur. cbn [Scheduler.runAll]. unfold ret. cbn [snd].
    split; [exact Hnd|]. split; [auto|]. split; [eauto|].
    split; intros s Hs; apply elem_of_nil in Hs; contradiction.
  - subst final. cbn [Scheduler.runAll]. unfold bind.
    pose proof (scheduler_runOne_handled retryDelayMs now fetchImpl s w Hkeep Hnd
                  (Hsub s (list_elem_of_here _ _))) as Hh.
    destruct (Scheduler.runOne retryDelayMs now fetchImpl s w) as [[] w1].
    cbn [snd] in Hh. fold cur in Hh.
    destruct (handled_ids _ _ _ _ _ _ Hh Hnd) as (Hnd1 & Hkept & Hfrom).
    cbn [map] in Hndt. apply NoDup_cons in Hndt as [Hsnew Hndr].
    assert (Hsub1 : forall s', s' ∈ rest -> s' ∈ st_schedules (w_store w1)).
    { intros s' Hs'. apply Hkept; [apply Hsub; right; exact Hs'|].
      intros Heq. apply Hsnew. rewrite <- Heq. apply list_elem_of_fmap. eauto. }
    specialize (IH w1 Hnd1 Hndr Hsub1). cbv zeta in IH.
    destruct IH as (Hndf & Hother & Hfromf & Hwaitf & Hduef).
    split; [exact Hndf|]. split; [|split; [|split]].
    + intros x Hx Hnot. apply Hother.
      * apply Hkept; [exact Hx|]. intros Heq. apply Hnot. cbn [map]. rewrite Heq. left.
      * intros Hin. apply Hnot. cbn [map]. right. exact Hin.
    + intros x Hx. destruct (Hfromf x Hx) as (y & Hy & Hxy).
      destruct (Hfrom y Hy) as (z & Hz & Hyz). exists z. split; [exact Hz | congruence].
    + intros s' Hs' Hwait. apply elem_of_cons in Hs' as [->|Hs']; [|apply Hwaitf; assumption].
      apply Hother; [|exact Hsnew].
      destruct Hh as [_ -> | w0 Hdue _ _ | w0 i err Hdue _ _ _]; [|lia ..].
      apply Hsub. left.
    + intros s' Hs' Hdue. apply elem_of_cons in Hs' as [->|Hs']; [|apply Hduef; assumption].
      destruct Hh as [Hwait _ | w0 _ Hans Hcur1 | w0 i err _ Hans Hi Hcur1]; [lia | |];
        exists w0; rewrite Hans.
      * apply Forall_forall. intros x Hx.
        destruct (Hfromf x Hx) as (y & Hy & ->).
        rewrite Hcur1 in Hy. apply list_elem_of_In, filter_In in Hy as [_ Hy].
        destruct (String.eqb_spec (s_id y) (s_id s)); [discriminate | assumption].
      * apply Hother; [|exact Hsnew].
        rewrite Hcur1. apply (list_elem_of_lookup_2 _ i).
        apply list_lookup_insert_eq. eapply lookup_lt_Some; eauto.
Qed.

Lemma scheduler_tick_facts (retryDelayMs now : Z) (fetchImpl : FetchImpl) (w : World) :
  keeps_schedules fetchImpl ->
  NoDup (map s_id (st_schedules (w_store w))) ->
  let l := st_schedules (w_store w) in
  let final := st_schedules
                 (w_store (snd (Scheduler.runScheduleTick retryDelayMs now fetchImpl w))) in
  NoDup (map s_id final) /\
  (forall x, x ∈ final -> exists y, y ∈ l /\ s_id x = s_id y) /\
  (forall s, s ∈ l -> now < s_whenMs s -> s ∈ final) /\
  (forall s, s ∈ l -> s_whenMs s <= now ->
     exists w0,
       match noted (fst (fetchImpl (Scheduler.trigger_req s) w0)) with
       | None => Forall (fun x => s_id x <> s_id s) final
       | Some lastError => retried retryDelayMs now s lastError ∈ final
       end).
Proof.
  intros Hkeep Hnd l final. subst final.
  unfold Scheduler.runScheduleTick, bind, get_store, listSchedules.
  destruct (scheduler_runAll_spec retryDelayMs now fetchImpl Hkeep l w Hnd Hnd (fun s H => H))
    as (H1 & _ & H3 & H4 & H5).
  auto.
Qed.


Lemma idle_tick_run (retryDelayMs now : Z) (fetchImpl : FetchImpl) (w : World) :
  Forall (fun s => now < s_whenMs s) (st_schedules (w_store w)) ->
  Scheduler.runScheduleTick retryDelayMs now fetchImpl w = (tt, w).
Proof.
  unfold Scheduler.runScheduleTick, bind, get_store, listSchedules.
  generalize (st_schedules (w_store w)) as l.
  induction l as [|s rest IH]; intros Hall; [reflexivity|].
  inversion Hall as [|? ? Hs Hrest]; subst.
  cbn [Scheduler.runAll]. unfold bind, Scheduler.runOne.
  destruct (Z.ltb_spec now (s_whenMs s)); [|lia].
  unfold ret. apply IH, Hrest.
Qed.

(** X7. A tick of the runner at which nothing is due (an empty list included)
    makes no call and changes nothing. *)
Theorem scheduler_tick_idle (retryDelayMs now : Z) (fetchImpl : FetchImpl) (w : World) :
  Forall (fun s => now < s_whenMs s) (st_schedules (w_store w)) ->
  Scheduler.runScheduleTick retryDelayMs now fetchImpl w = (tt, w).
Proof. apply idle_tick_run. Qed.

(** X8. After a tick of the runner at [now] with a positive retry delay,
    nothing in the list is due at [now] any more, so a second tick at the
    same time is idle: a failed entry is not retried before its new due
    time. *)
Theorem scheduler_tick_settles (retryDelayMs now : Z) (fetchImpl : FetchImpl) (w : World) :
  keeps_schedules fetchImpl ->
  NoDup (map s_id (st_schedules (w_store w))) ->
  0 < retryDelayMs ->
  let w1 := snd (Scheduler.runScheduleTick retryDelayMs now fetchImpl w) in
  Forall (fun x => now < s_whenMs x) (st_schedules (w_store w1)) /\
  Scheduler.runScheduleTick retryDelayMs now fetchImpl w1 = (tt, w1).
Proof.
  intros Hkeep Hnd Hpos w1.
  assert (Hall : Forall (fun x => now < s_whenMs x) (st_schedules (w_store w1))).
  { destruct (scheduler_tick_facts retryDelayMs now fetchImpl w Hkeep Hnd)
      as (Hndf & Hfrom & Hwait & Hdue). fold w1 in Hndf, Hfrom, Hwait, Hdue.
    apply Forall_forall. intros x Hx.
    destruct (Hfrom x Hx) as (y & Hy & Hxy).
    destruct (Z.lt_ge_cases now (s_whenMs y)) as [Hw|Hd].
    - rewrite (same_id_same_entry _ x y Hndf Hx (Hwait y Hy Hw) Hxy). exact Hw.
    - destruct (Hdue y Hy Hd) as [w0 Hw0].
      destruct (noted _) as [err|].
      + rewrite (same_id_same_entry _ x _ Hndf Hx Hw0 Hxy).
        unfold retried, apply_updates. cbn [s_whenMs u_whenMs]. lia.
      + exfalso. rewrite Forall_forall in Hw0. exact (Hw0 x Hx Hxy). }
  split; [exact Hall | apply idle_tick_run, Hall].
Qed.

(** ** Substrings *)

Lemma append_cons c a b : String.append (String c a) b = String c (String.append a b).
Proof. reflexivity. Qed.

Lemma append_empty_l b : String.append "" b = b.
Proof. reflexivity. Qed.

Lemma prefix_iff needle hay :
  String.prefix needle hay = true <-> exists post, hay = String.append needle post.
Proof.
  revert hay. induction needle as [|c needle IH]; intros hay.
  - split; [intros _; exists hay; reflexivity | intros _; destruct hay; reflexivity].
  - destruct hay as [|h hay]; cbn [String.prefix].
    + split; [discriminate | intros [post H]; rewrite append_cons in H; discriminate].
    + destruct (Ascii.ascii_dec c h) as [->|Hne].
      * rewrite IH. split; intros [post H]; exists post.
        -- rewrite append_cons. congruence.
        -- rewrite append_cons in H. congruence.
      * split; [discriminate | intros [post H]; rewrite append_cons in H; congruence].
Qed.

Lemma includes_iff hay needle :
  Js.includes hay needle = true <->
  exists pre post, hay = String.append pre (String.append needle post).
Proof.
  induction hay as [|h hay IH]; cbn [Js.includes].
  - rewrite orb_false_r, prefix_iff. split.
    + intros [post H]. exists "", post. exact H.
    + intros (pre & post & H). destruct pre; [eauto | rewrite append_cons in H; discriminate].
  - rewrite orb_true_iff, prefix_iff, IH. split.
    + intros [[post H] | (pre & post & H)].
      * exists "", post. exact H.
      * exists (String h pre), post. rewrite append_cons. congruence.
    + intros (pre & post & H). destruct pre as [|p pre].
      * left. eauto.
      * right. exists pre, post. rewrite append_cons in H. congruence.
Qed.

Lemma append_assoc a b c :
  String.append (String.append a b) c = String.append a (String.append b c).
Proof.
  induction a as [|x a IH]; [reflexivity|].
  rewrite !append_cons, IH. reflexivity.
Qed.

Lemma includes_trans a b c :
  Js.includes a b = true -> Js.includes b c = true -> Js.includes a c = true.
Proof.
  rewrite !includes_iff. intros (p1 & q1 & ->) (p2 & q2 & ->).
  exists (String.append p1 p2), (String.append q2 q1).
  rewrite !append_assoc. reflexivity.
Qed.

Lemma toLowerCase_append a b :
  Js.toLowerCase (String.append a b) = String.append (Js.toLowerCase a) (Js.toLowerCase b).
Proof.
  induction a as [|x a IH]; [reflexivity|].
  rewrite append_cons. cbn [Js.toLowerCase]. rewrite append_cons, IH. reflexivity.
Qed.

Lemma includes_toLowerCase a b :
  Js.includes a b = true -> Js.includes (Js.toLowerCase a) (Js.toLowerCase b) = true.
Proof.
  rewrite !includes_iff. intros (p & q & ->).
  exists (Js.toLowerCase p), (Js.toLowerCase q). rewrite !toLowerCase_append. reflexivity.
Qed.

(** A text that contains an invite link is itself recognised as carrying one. *)
Lemma has_invite_includes body invite :
  Js.includes body invite = true -> has_invite invite = true -> has_invite body = true.
Proof.
  unfold has_invite. intros Hin Hinv. apply includes_toLowerCase in Hin.
  apply orb_true_iff in Hinv as [H|H]; apply orb_true_iff; [left | right];
    eapply includes_trans; eauto.
Qed.

Lemma has_invite_iff s :
  has_invite s = true <->
  exists pre post,
    Js.toLowerCase s = String.append pre (String.append "discord.gg/" post) \/
    Js.toLowerCase s = String.append pre (String.append "discord.com/invite/" post).
Proof.
  unfold has_invite. rewrite orb_true_iff, !includes_iff. split.
  - intros [(pre & post & H) | (pre & post & H)]; exists pre, post; auto.
  - intros (pre & post & [H | H]); [left | right]; exists pre, post; exact H.
Qed.

Lemma truthy_iff (x : option string) :
  Js.truthy x = true <-> exists s, x = Some s /\ s <> "".
Proof.
  unfold Js.truthy. destruct x as [s|].
  - destruct (String.eqb_spec s "") as [->|Hne]; cbn [negb]; split.
    + discriminate.
    + intros (s & [= <-] & H). contradiction.
    + intros _. eauto.
    + reflexivity.
  - split; [discriminate | intros (s & H & _); discriminate].
Qed.

Lemma type_is_iff post t : type_is post t = true <-> p_type post = Some t.
Proof.
  unfold type_is. destruct (p_type post) as [s|]; [|split; discriminate].
  destruct (String.eqb_spec s t) as [->|Hne]; split; congruence.
Qed.

Lemma inviteRequired_iff rules :
  inviteRequired rules = true <-> requirePermanentInvite rules <> Some false.
Proof.
  unfold inviteRequired.
  destruct (bool_decide_reflect (requirePermanentInvite rules = Some false)); cbn [negb];
    split; congruence.
Qed.

(** ** Validation *)

Lemma app_nil_iff {A} (l1 l2 : list A) : (l1 ++ l2)%list = [] <-> l1 = [] /\ l2 = [].
Proof. destruct l1; cbn; split; [auto | intros [_ H]; exact H | discriminate | intros [H _]; discriminate]. Qed.

Lemma validate_nil_iff (rules : Rules) (post : Post) :
  validate rules post = [] <->
  Js.truthy (p_title post) = true /\
  ((type_is post "self" = true /\ Js.truthy (p_body post) = true /\
    (inviteRequired rules = true -> has_invite (text_of (p_body post)) = true)) \/
   (type_is post "self" = false /\ type_is post "link" = true /\
    Js.truthy (p_url post) = true /\
    (inviteRequired rules = true -> has_invite (text_of (p_url post)) = true))).
Proof.
  unfold validate. fold (inviteRequired rules).
  rewrite app_nil_iff.
  destruct (Js.truthy (p_title post)); cbn [negb];
    [|split; [intros [H _]; discriminate | intros [H _]; discriminate]].
  destruct (type_is post "self").
  - rewrite app_nil_iff.
    destruct (Js.truthy (p_body post)); cbn [negb andb].
    + rewrite andb_true_r.
      destruct (inviteRequired rules), (has_invite (text_of (p_body post))); cbn [negb andb];
        split; try (intros _; split; [reflexivity|]; left; repeat split; auto; discriminate);
        try (intros (_ & _ & H); discriminate);
        try (intros [_ [(_ & _ & H) | (H & _)]]; [specialize (H eq_refl)|]; discriminate);
        auto.
    + rewrite andb_false_r.
      split; [intros (_ & H & _); discriminate|].
      intros [_ [(_ & H & _) | (H & _)]]; discriminate.
  - destruct (type_is post "link").
    + rewrite app_nil_iff.
      destruct (Js.truthy (p_url post)); cbn [negb andb].
      * rewrite andb_true_r.
        destruct (inviteRequired rules), (has_invite (text_of (p_url post))); cbn [negb andb];
          split; try (intros _; split; [reflexivity|]; right; repeat split; auto; discriminate);
          try (intros (_ & _ & H); discriminate);
          try (intros [_ [(H & _) | (_ & _ & _ & H)]]; [|specialize (H eq_refl)]; discriminate);
          auto.
      * rewrite andb_false_r.
        split; [intros (_ & H & _); discriminate|].
        intros [_ [(H & _) | (_ & _ & H & _)]]; discriminate.
    + split; [intros [_ H]; discriminate|].
      intros [_ [(H & _) | (_ & H & _)]]; discriminate.
Qed.

(** X9. A post passes validation exactly when it has a non-empty title and is
    either a self post with a non-empty body or a link post with a non-empty
    url, the body or the url carrying, in any letter case, [discord.gg/] or
    [discord.com/invite/] unless the rules say [requirePermanentInvite:
    false]. *)
Theorem validate_ok_iff (rules : Rules) (post : Post) :
  let carries_invite := fun s : string =>
    exists pre rest,
      Js.toLowerCase s = String.append pre (String.append "discord.gg/" rest) \/
      Js.toLowerCase s = String.append pre (String.append "discord.com/invite/" rest) in
  let filled := fun x : option string => exists s, x = Some s /\ s <> "" in
  validate rules post = [] <->
  filled (p_title post) /\
  ((p_type post = Some "self" /\ filled (p_body post) /\
    (requirePermanentInvite rules <> Some false -> carries_invite (text_of (p_body post)))) \/
   (p_type post = Some "link" /\ filled (p_url post) /\
    (requirePermanentInvite rules <> Some false -> carries_invite (text_of (p_url post))))).
Proof.
  intros carries_invite filled. rewrite validate_nil_iff.
  rewrite !truthy_iff, !type_is_iff, inviteRequired_iff, !has_invite_iff.
  fold (filled (p_title post)) (filled (p_body post)) (filled (p_url post)).
  fold (carries_invite (text_of (p_body post))) (carries_invite (text_of (p_url post))).
  split.
  - intros [Ht [(Hs & Hb & Hi) | (_ & Hl & Hu & Hi)]]; (split; [exact Ht|]); [left | right]; auto.
  - intros [Ht [(Hs & Hb & Hi) | (Hl & Hu & Hi)]]; (split; [exact Ht|]); [left; auto|].
    right. split; [|auto]. destruct (type_is post "self") eqn:Hself; [|reflexivity].
    apply type_is_iff in Hself. congruence.
Qed.

(** ** Defaults make a post valid *)

Lemma merged_title_truthy d t :
  Js.truthy t = true \/ Js.truthy (d_title d) = true ->
  Js.truthy (merged_title d t) = true.
Proof.
  unfold merged_title. intros H.
  destruct (Js.truthy t) eqn:Ht; bsimpl; [exact Ht|].
  destruct (Js.truthy (d_title d)) eqn:Hd; [exact Hd|]. destruct H; discriminate.
Qed.

(** X10. With default content whose invite is a recognised invite link, merging
    the defaults makes every titled self post pass validation, an empty
    template included, and every titled link post that has no url of its
    own. *)
Theorem merged_post_is_valid (rules : Rules) (cfg : ServerConfig) (d : Defaults)
    (invite : string) (post : Post) :
  c_defaults cfg = Some d ->
  d_invite d = Some invite ->
  (exists pre rest,
     Js.toLowerCase invite = String.append pre (String.append "discord.gg/" rest) \/
     Js.toLowerCase invite = String.append pre (String.append "discord.com/invite/" rest)) ->
  (exists t, t <> "" /\ (p_title post = Some t \/ d_title d = Some t)) ->
  (p_type post = Some "self" \/
   (p_type post = Some "link" /\ (p_url post = None \/ p_url post = Some ""))) ->
  validate rules (withServerDefaults cfg post) = [].
Proof.
  intros Hcfg Hinvite Hcarries Htitle Hkind.
  unfold withServerDefaults. rewrite Hcfg. cbn [default from_option id].
  apply has_invite_iff in Hcarries.
  assert (Hdi : Js.truthy (d_invite d) = true).
  { rewrite Hinvite. unfold Js.truthy. destruct (String.eqb_spec invite "") as [->|]; [|reflexivity].
    discriminate Hcarries. }
  assert (Hinv : has_invite (text_of (d_invite d)) = true) by (rewrite Hinvite; exact Hcarries).
  assert (Ht : Js.truthy (p_title post) = true \/ Js.truthy (d_title d) = true).
  { destruct Htitle as (t & Hne & [H | H]); [left | right]; apply truthy_iff; eauto. }
  apply validate_nil_iff.
  rewrite merge_with_fields. destruct post as [ty ti bo ur fi ft].
  unfold type_is in *. cbv beta iota delta [p_title p_type p_body p_url] in *.
  split; [apply merged_title_truthy, Ht|].
  destruct Hkind as [-> | [-> Hurl]].
  - left. rewrite String.eqb_refl.
    destruct (merged_body_invite d bo Hdi) as [Hb Hin].
    split; [reflexivity|]. split; [exact Hb|]. intros _.
    eapply has_invite_includes; eauto.
  - right. cbn. split; [reflexivity|]. split; [reflexivity|].
    unfold merged_url. assert (Hu : Js.truthy ur = false) by (destruct Hurl as [-> | ->]; reflexivity).
    rewrite Hu, Hdi. bsimpl. split; [exact Hdi | intros _; exact Hinv].
Qed.

(** ** The summary of a session *)

Lemma count_fold results : forall (acc : gmap string Z) (status : string),
  fold_left (fun acc r =>
               <[outcome_status r := default 0 (acc !! outcome_status r) + 1]> acc)
    results acc !! status
  = if occurrences status results =? 0 then acc !! status
    else Some (default 0 (acc !! status) + occurrences status results).
Proof.
  induction results as [|r rest IH]; intros acc status; [reflexivity|].
  cbn [fold_left]. rewrite IH. unfold occurrences. cbn [List.filter].
  rewrite lookup_insert.
  destruct (String.eqb_spec (outcome_status r) status) as [->|Hne].
  - destruct (decide (status = status)); [|contradiction].
    cbn [length]. set (n := length (List.filter _ rest)).
    rewrite Nat2Z.inj_succ.
    change (default 0 (Some (default 0 (acc !! status) + 1)))
      with (default 0 (acc !! status) + 1).
    destruct (Z.eqb_spec (Z.of_nat n) 0) as [H0|H0];
      destruct (Z.eqb_spec (Z.succ (Z.of_nat n)) 0); try lia; f_equal; lia.
  - destruct (decide (outcome_status r = status)); [contradiction | reflexivity].
Qed.

Lemma count_statuses_lookup (results : list Outcome) (status : string) :
  count_statuses results !! status
  = if occurrences status results =? 0 then None else Some (occurrences status results).
Proof.
  unfold count_statuses. rewrite count_fold. rewrite lookup_empty. reflexivity.
Qed.

Lemma processTarget_calls E key dryRun token entry ls w :
  exists evs,
    w_trace (snd (processTarget E key dryRun token entry ls w)) = (w_trace w ++ evs)%list /\
    Forall loop_call evs.
Proof.
  destruct w as [st tr rd].
  destruct (gate_outcome dryRun (readServerConfig st key) (ls_cooldowns ls)
              (clock_at E rd) entry) as [o|] eqn:Hgate.
  - rewrite (processTarget_gated _ _ _ _ _ _ _ _ _ _ Hgate).
    exists []. rewrite app_nil_r. split; [reflexivity | constructor].
  - destruct (processTarget_publishing _ key _ token _ _ _ tr _ Hgate) as [_ ->].
    destruct (submitPost_result _ _ _ _) as [e|data].
    + eexists. split; [reflexivity|]. repeat constructor.
    + rewrite on_submitted_run. cbv beta iota zeta.
      destruct (needs_lookup data);
        [destruct (resolveRecent_result _ _ _ _) as [e|resolved]|];
        cbv beta iota zeta delta [snd w_trace];
        try destruct (Js.truthy (final_id data _));
        cbv beta iota zeta delta [snd w_trace];
        rewrite <- ?app_assoc; (eexists; split; [reflexivity|]); repeat constructor.
Qed.

Lemma runTargets_calls E key dryRun token subs : forall ls w,
  exists evs,
    w_trace (snd (runTargets E key dryRun token subs ls w)) = (w_trace w ++ evs)%list /\
    Forall loop_call evs.
Proof.
  induction subs as [|entry rest IH]; intros ls w.
  - exists []. rewrite app_nil_r. split; [reflexivity | constructor].
  - cbn [runTargets]. unfold bind.
    destruct (processTarget_calls E key dryRun token entry ls w) as (evs1 & Ht1 & Hc1).
    destruct (processTarget E key dryRun token entry ls w) as [ls1 w1]. cbn [snd] in Ht1.
    destruct (IH ls1 w1) as (evs2 & Ht2 & Hc2).
    exists (evs1 ++ evs2)%list. split; [rewrite Ht2, Ht1, app_assoc; reflexivity|].
    apply Forall_app. split; assumption.
Qed.

(** X11. A session that answers with results notifies once, as its last call:
    the summary names the server and whether the run was dry, lists each
    status that occurs among the results with its number of occurrences and
    no other status, and carries as details the results that are not
    [posted], in order.  The calls before it are the token request of a real
    session and the calls of the target loop. *)
Theorem session_summary (E : Env) (key : string) (dryRun auto : bool) (w w' : World)
    (results : list Outcome) :
  advertise E (mkReq (Some key) dryRun auto) w = (RespResults results, w') ->
  exists counts calls,
    w_trace w'
    = (w_trace w ++ (if dryRun then [] else [EvGetToken]) ++ calls
       ++ [EvNotifySquire "cryer.session.completed"
             (SessionCompleted key dryRun counts
                (List.filter (fun o => negb (String.eqb (outcome_status o) "posted")) results))])%list /\
    Forall (fun ev => match ev with
                      | EvSubmitPost _ _ | EvRateLimitPause
                      | EvResolveRecentSubmission _ _ | EvSleep _ => True
                      | _ => False
                      end) calls /\
    forall status,
      let n := Z.of_nat (length (List.filter
                                   (fun o => String.eqb (outcome_status o) status) results)) in
      counts !! status = if n =? 0 then None else Some n.
Proof.
  intros Hrun. destruct w as [st tr rd]. revert Hrun. open_advertise.
  destruct (Js.truthy (Some key)); cbv beta iota delta [negb]; run_monad; [|discriminate].
  cbv beta iota delta [text_of default from_option id].
  destruct (throttled _ _); run_monad.
  { destruct auto; [rewrite addSchedule_run|]; run_monad; discriminate. }
  destruct (serverDirExists _ _); run_monad; [|discriminate].
  assert (Hdetails : forall l : list Outcome,
            List.filter (fun r => negb (is_posted r)) l
            = List.filter (fun o => negb (String.eqb (outcome_status o) "posted")) l).
  { intros l. apply filter_ext. intros [ | | | | ]; reflexivity. }
  destruct dryRun; run_monad.
  - destruct (runTargets_calls E key true None (readSubs st key)
                (mkLoop (readCooldowns st key) [] 0) (mkWorld st tr (S rd)))
      as (calls & Htrace & Hcalls).
    destruct (runTargets _ _ _ _ _ _ _) as [ls [st2 tr2 rd2]]. cbn [snd w_trace] in Htrace.
    cbv beta iota delta [negb andb]. run_monad. intros [= <- <-].
    exists (count_statuses (ls_results ls)), calls. cbn [w_trace app].
    split; [rewrite Htrace, Hdetails, <- app_assoc; reflexivity|].
    split; [exact Hcalls|]. intros status. apply count_statuses_lookup.
  - destruct (getToken_result E tr) as [e|token]; run_monad; [discriminate|].
    destruct (runTargets_calls E key false token (readSubs st key)
                (mkLoop (readCooldowns st key) [] 0) (mkWorld st (tr ++ [EvGetToken]) (S rd)))
      as (calls & Htrace & Hcalls).
    destruct (runTargets _ _ _ _ _ _ _) as [ls [st2 tr2 rd2]]. cbn [snd w_trace] in Htrace.
    cbv beta iota delta [negb andb]. run_monad.
    destruct (0 <? ls_postedCount ls); run_monad; intros [= <- <-];
      exists (count_statuses (ls_results ls)), calls; cbn [w_trace];
      (split; [rewrite Htrace, Hdetails, <- !app_assoc; reflexivity|]);
      (split; [exact Hcalls|]); intros status; apply count_statuses_lookup.
Qed.

(** ** Sessions in a row *)

Lemma occurrences_app status l o :
  occurrences status (l ++ [o])
  = occurrences status l + (if String.eqb (outcome_status o) status then 1 else 0).
Proof.
  unfold occurrences. rewrite List.filter_app, length_app. cbn [List.filter].
  destruct (String.eqb (outcome_status o) status); cbn [length]; lia.
Qed.

Lemma processTarget_tallied E key dryRun token entry ls w :
  tallied ls -> tallied (fst (processTarget E key dryRun token entry ls w)).
Proof.
  unfold tallied. intros Ht. destruct w as [st tr rd].
  destruct (gate_outcome dryRun (readServerConfig st key) (ls_cooldowns ls)
              (clock_at E rd) entry) as [o|] eqn:Hgate.
  - rewrite (processTarget_gated _ _ _ _ _ _ _ _ _ _ Hgate).
    cbn [fst push ls_postedCount ls_results]. rewrite occurrences_app, Ht.
    revert Hgate. unfold gate_outcome.
    destruct (0 <? _); [intros [= <-]; cbn; lia|].
    destruct (negb _); [intros [= <-]; cbn; lia|].
    destruct dryRun; [intros [= <-]; cbn; lia | discriminate].
  - destruct (processTarget_publishing _ key _ token _ _ _ tr _ Hgate) as [_ ->].
    destruct (submitPost_result _ _ _ _) as [e|data].
    + cbn [fst push ls_postedCount ls_results]. rewrite occurrences_app, Ht. cbn. lia.
    + rewrite on_submitted_run. cbv beta iota zeta.
      destruct (if needs_lookup data then _ else _) as [e|resolved];
        cbn [fst ls_postedCount ls_results]; rewrite occurrences_app, Ht; cbn; lia.
Qed.

Lemma runTargets_tallied E key dryRun token subs : forall ls w,
  tallied ls -> tallied (fst (runTargets E key dryRun token subs ls w)).
Proof.
  induction subs as [|entry rest IH]; intros ls w Ht; [exact Ht|].
  cbn [runTargets]. unfold bind.
  pose proof (processTarget_tallied E key dryRun token entry ls w Ht) as H1.
  destruct (processTarget E key dryRun token entry ls w) as [ls1 w1].
  apply IH, H1.
Qed.

Lemma lastAdAt_updateServerLastAdAt st key t :
  lastAdAt (readServerConfig (updateServerLastAdAt st key t) key) = t.
Proof.
  unfold updateServerLastAdAt, writeServerConfig, readServerConfig.
  rewrite files_of_set_files. destruct (decide (key = key)); [reflexivity | contradiction].
Qed.

(** A throttled request is answered at once. *)
Lemma advertise_throttled E req key w :
  rq_serverKey req = Some key -> Js.truthy (Some key) = true ->
  throttled (lastAdAt (readServerConfig (w_store w) key)) (clock_at E (w_reads w)) = true ->
  exists scheduled,
    fst (advertise E req w)
    = RespThrottled (lastAdAt (readServerConfig (w_store w) key) + SERVER_ROLLING_WINDOW_MS)
        scheduled.
Proof.
  destruct req as [serverKey dryRun auto], w as [st tr rd]. cbn [rq_serverKey w_store w_reads].
  intros -> Hkey Hthr. open_advertise. rewrite Hkey. cbv beta iota delta [negb].
  run_monad. cbv beta iota delta [text_of default from_option id].
  rewrite Hthr. destruct auto; [rewrite addSchedule_run|]; run_monad; eexists; reflexivity.
Qed.

(** X12. A real session that posted at least once stamps [lastAdAt] with the
    last clock reading it took, and a request for the same server that
    arrives less than 24 hours after that stamp is answered [throttled]
    until the stamp plus 24 hours, dry run or not. *)
Theorem session_then_throttled (E : Env) (key : string) (auto : bool) (w : World)
    (results : list Outcome) :
  fst (advertise E (mkReq (Some key) false auto) w) = RespResults results ->
  Exists (fun o => outcome_status o = "posted") results ->
  let w1 := snd (advertise E (mkReq (Some key) false auto) w) in
  let L := clock_at E (pred (w_reads w1)) in
  lastAdAt (readServerConfig (w_store w1) key) = L /\
  (forall dryRun2 auto2,
     L <> 0 ->
     clock_at E (w_reads w1) - L < 86400000 ->
     exists scheduled,
       fst (advertise E (mkReq (Some key) dryRun2 auto2) w1)
       = RespThrottled (L + 86400000) scheduled).
Proof.
  intros Hresp Hposted w1 L.
  assert (Hkey : Js.truthy (Some key) = true).
  { destruct (Js.truthy (Some key)) eqn:Hk; [reflexivity|].
    revert Hresp. destruct w as [st tr rd]. open_advertise. rewrite Hk.
    cbv beta iota delta [negb]. run_monad. discriminate. }
  assert (Hcount : 0 < occurrences "posted" results).
  { unfold occurrences. apply Exists_exists in Hposted as (o & Ho & Hs).
    assert (Hin : In o (List.filter (fun o => String.eqb (outcome_status o) "posted") results)).
    { apply filter_In. split; [apply list_elem_of_In, Ho | apply String.eqb_eq, Hs]. }
    destruct (List.filter _ results); [contradiction | cbn [length]; lia]. }
  assert (Hstamp : lastAdAt (readServerConfig (w_store w1) key) = L).
  { subst L w1. revert Hresp. destruct w as [st tr rd]. open_advertise.
    rewrite Hkey. cbv beta iota delta [negb]. run_monad.
    cbv beta iota delta [text_of default from_option id].
    destruct (throttled _ _); run_monad.
    { destruct auto; [rewrite addSchedule_run|]; run_monad; discriminate. }
    destruct (serverDirExists _ _); run_monad; [|discriminate].
    destruct (getToken_result E tr) as [e|token]; run_monad; [discriminate|].
    pose proof (runTargets_tallied E key false token (readSubs st key)
                  (mkLoop (readCooldowns st key) [] 0)
                  (mkWorld st (tr ++ [EvGetToken]) (S rd)) eq_refl) as Ht.
    destruct (runTargets _ _ _ _ _ _ _) as [ls [st2 tr2 rd2]].
    unfold tallied in Ht. cbn [fst] in Ht.
    cbv beta iota delta [negb andb]. run_monad.
    destruct (Z.ltb_spec 0 (ls_postedCount ls)) as [Hpos|Hnone]; run_monad.
    - intros _. cbn [pred]. apply lastAdAt_updateServerLastAdAt.
    - intros [= <-]. lia. }
  split; [exact Hstamp|].
  intros dryRun2 auto2 HL Hsoon. rewrite <- Hstamp.
  apply (advertise_throttled E (mkReq (Some key) dryRun2 auto2) key w1);
    [reflexivity | exact Hkey|].
  rewrite Hstamp. unfold throttled, Js.truthyZ, SERVER_ROLLING_WINDOW_MS.
  destruct (Z.eqb_spec L 0); [contradiction|]. cbn [negb andb]. apply Z.ltb_lt. exact Hsoon.
Qed.

(** ** What a monitor tick leaves alone *)

Lemma monitorRecord_same_post E key now rec w :
  same_post rec (fst (fst (monitorRecord E key now rec w))).
Proof.
  destruct w as [st tr rd]. unfold monitorRecord, same_post.
  destruct (negb _); [cbn; auto|].
  destruct (_ <? _); [cbn; auto|].
  destruct (negb _); [cbn; auto|].
  run_monad.
  destruct (fetchSubmissionInfo_result _ _ _) as [e|[thing|]]; run_monad; [cbn; auto| |cbn; auto].
  destruct (Reddit.classifyRemoval thing) as [removed category].
  destruct (_ && _); run_monad; cbn; auto.
Qed.

Lemma monitorRecords_same_post E key now l : forall w,
  Forall2 same_post l (fst (fst (monitorRecords E key now l w))).
Proof.
  induction l as [|rec rest IH]; intros w; [constructor|].
  cbn [monitorRecords]. unfold bind, ret.
  pose proof (monitorRecord_same_post E key now rec w) as H1.
  destruct (monitorRecord E key now rec w) as [[rec1 c1] w1].
  specialize (IH w1).
  destruct (monitorRecords E key now rest w1) as [[rest2 c2] w2].
  cbn [fst] in *. constructor; assumption.
Qed.

Lemma same_post_refl r : same_post r r.
Proof. repeat split. Qed.

Lemma Forall2_same_post_refl l : Forall2 same_post l l.
Proof. induction l; constructor; auto using same_post_refl. Qed.

Lemma Forall2_same_post_trans l1 l2 l3 :
  Forall2 same_post l1 l2 -> Forall2 same_post l2 l3 -> Forall2 same_post l1 l3.
Proof.
  intros H12. revert l3. induction H12 as [|a b l1 l2 Hab _ IH]; intros l3 H23.
  - inversion H23. constructor.
  - inversion H23 as [|? c ? l3' Hbc Hrest]; subst. constructor; [|apply IH, Hrest].
    destruct Hab as (A1 & A2 & A3 & A4), Hbc as (B1 & B2 & B3 & B4).
    repeat split; congruence.
Qed.

Lemma readSubs_writePostedRecords st key l k :
  readSubs (writePostedRecords st key l) k = readSubs st k.
Proof.
  unfold readSubs, writePostedRecords. rewrite files_of_set_files.
  destruct (decide (key = k)) as [->|]; reflexivity.
Qed.

Lemma monitor_frame_refl st : monitor_frame st st.
Proof. repeat split; auto using Forall2_same_post_refl. Qed.

Lemma monitor_frame_trans st1 st2 st3 :
  monitor_frame st1 st2 -> monitor_frame st2 st3 -> monitor_frame st1 st3.
Proof.
  intros (A1 & A2 & A3 & A4 & A5 & A6) (B1 & B2 & B3 & B4 & B5 & B6).
  split; [congruence|]. split; [congruence|].
  split; [intros k; rewrite B3; apply A3|].
  split; [intros k; rewrite B4; apply A4|].
  split; [intros k; rewrite B5; apply A5|].
  intros k. eapply Forall2_same_post_trans; eauto.
Qed.

Lemma monitorServer_frame E s w :
  monitor_frame (w_store w) (w_store (snd (monitorServer E s w))).
Proof.
  destruct w as [st tr rd]. unfold monitorServer. run_monad.
  pose proof (monitorRecords_frame E (sr_key s) (Js.floor_div (clock_at E rd) 1000)
                (listPostedRecords st (sr_key s)) (mkWorld st tr (S rd))) as Hf.
  pose proof (monitorRecords_same_post E (sr_key s) (Js.floor_div (clock_at E rd) 1000)
                (listPostedRecords st (sr_key s)) (mkWorld st tr (S rd))) as Hsame.
  cbv zeta in Hf.
  destruct (monitorRecords _ _ _ _ _) as [[walked changed] [st2 tr2 rd2]].
  cbn [fst snd w_store w_reads] in Hf, Hsame. destruct Hf as (-> & -> & _ & _).
  run_monad. destruct changed; run_monad; [|apply monitor_frame_refl].
  split; [reflexivity|]. split; [reflexivity|].
  split; [intros k; apply readServerConfig_writePostedRecords|].
  split; [intros k; apply readCooldowns_writePostedRecords|].
  split; [intros k; apply readSubs_writePostedRecords|].
  intros k. rewrite listPostedRecords_writePostedRecords.
  destruct (decide (sr_key s = k)) as [<-|]; [exact Hsame | apply Forall2_same_post_refl].
Qed.

Lemma monitorServers_frame E servers : forall w,
  monitor_frame (w_store w) (w_store (snd (monitorServers E servers w))).
Proof.
  induction servers as [|s rest IH]; intros w; [apply monitor_frame_refl|].
  cbn [monitorServers]. unfold bind.
  pose proof (monitorServer_frame E s w) as H1.
  destruct (monitorServer E s w) as [[] w1].
  eapply monitor_frame_trans; [exact H1 | apply IH].
Qed.

(** X13. A monitor tick keeps the audit trail: in every posted list the records
    stay in number and order, each with its id, subreddit, server and
    creation time; and it writes no other document: the index, the
    schedules, and the configuration, cooldowns and targets of every server
    are as before. *)
Theorem monitor_keeps_audit_trail (E : Env) (w : World) :
  let st := w_store w in
  let st' := w_store (snd (runRemovalMonitorOnce E w)) in
  st_index st' = st_index st /\
  st_schedules st' = st_schedules st /\
  (forall k, readServerConfig st' k = readServerConfig st k) /\
  (forall k, readCooldowns st' k = readCooldowns st k) /\
  (forall k, readSubs st' k = readSubs st k) /\
  (forall k,
     Forall2 (fun r r' => rec_id r' = rec_id r /\ rec_subreddit r' = rec_subreddit r /\
                          rec_serverKey r' = rec_serverKey r /\
                          rec_createdUtc r' = rec_createdUtc r)
       (listPostedRecords st k) (listPostedRecords st' k)).
Proof.
  exact (monitorServers_frame E (listServers (w_store w)) w).
Qed.

(** ** Records the monitor cannot decide *)


(** X15. On a monitor tick over servers with distinct keys, a live record within
    its seven days that has no id is stored as [unknown] afterwards, its
    other fields untouched; handling it makes no call. *)
Theorem monitor_without_id (E : Env) (w : World) (j i : nat) (s : ServerRef)
    (rec : PostedRecord) :
  let servers := listServers (w_store w) in
  let w' := snd (runRemovalMonitorOnce E w) in
  let now := clock_at E (w_reads w + j) / 1000 in
  let unknown := mkPosted (rec_id rec) (rec_subreddit rec) (rec_serverKey rec)
                   (rec_createdUtc rec) Unknown (rec_removal rec) in
  NoDup (map sr_key servers) ->
  servers !! j = Some s ->
  listPostedRecords (w_store w) (sr_key s) !! i = Some rec ->
  rec_status rec = Live ->
  ~ MONITOR_TTL_DAYS * 86400 < age now rec ->
  Js.truthy (rec_id rec) = false ->
  listPostedRecords (w_store w') (sr_key s) !! i = Some unknown /\
  (forall w0, monitorRecord E (sr_key s) now rec w0 = ((unknown, true), w0)).
Proof.
  intros servers w' now unknown Hnd Hj Hi Hlive Hage Hid.
  assert (Hstep : forall w0,
            monitorRecord E (sr_key s) now rec w0 = ((unknown, true), w0)).
  { intros w0. unfold monitorRecord. rewrite Hlive, Hid.
    cbv beta iota delta [is_live negb].
    destruct (Z.ltb_spec (MONITOR_TTL_DAYS * 86400) (age now rec)); [contradiction|].
    reflexivity. }
  split; [|exact Hstep].
  assert (Htick : runRemovalMonitorOnce E w = monitorServers E servers w) by reflexivity.
  subst w'. rewrite Htick.
  destruct (monitorServers_at E servers w j s i rec Hnd Hj Hi)
    as (w_i & pre & post & Hpre & Hat).
  cbv zeta in Hat. unfold Js.floor_div in Hat. fold now in Hat.
  rewrite Hstep in Hat. exact (proj1 Hat).
Qed.

(** ** Editing the list of targets *)

Lemma findIndexByKey_None key l :
  Registry.findIndexByKey key l = None <-> Forall (fun e => Registry.entryKey e <> key) l.
Proof.
  induction l as [|x rest IH]; cbn [Registry.findIndexByKey].
  - split; [constructor | reflexivity].
  - destruct (String.eqb_spec (Registry.entryKey x) key) as [Heq|Hne].
    + split; [discriminate | intros H; inversion H; contradiction].
    + destruct (Registry.findIndexByKey key rest); cbn [option_map].
      * split; [discriminate|]. intros H. inversion H as [|? ? _ Hrest]; subst.
        apply IH in Hrest. discriminate.
      * split; [|reflexivity]. intros _. constructor; [exact Hne | apply IH; reflexivity].
Qed.

Lemma findIndexByKey_Some key l ix :
  Registry.findIndexByKey key l = Some ix ->
  (exists e, l !! ix = Some e /\ Registry.entryKey e = key) /\
  (forall j e, (j < ix)%nat -> l !! j = Some e -> Registry.entryKey e <> key).
Proof.
  revert ix. induction l as [|x rest IH]; intros ix; cbn [Registry.findIndexByKey]; [discriminate|].
  destruct (String.eqb_spec (Registry.entryKey x) key) as [Heq|Hne].
  - intros [= <-]. split; [exists x; auto | intros j e Hj; lia].
  - destruct (Registry.findIndexByKey key rest) as [k|] eqn:Hk; cbn [option_map]; [|discriminate].
    intros [= <-]. destruct (IH k eq_refl) as [Hat Hbefore].
    split; [exact Hat|].
    intros [|j] e Hj He; cbn in He; [congruence|]. apply (Hbefore j e); [lia | exact He].
Qed.

Lemma upsert_fresh l entry :
  Forall (fun e => Registry.entryKey e <> Registry.entryKey entry) l ->
  Registry.upsert l entry = (l ++ [entry])%list.
Proof.
  intros Hnone. unfold Registry.upsert.
  rewrite (proj2 (findIndexByKey_None _ _) Hnone). reflexivity.
Qed.

Lemma upsert_known before old after entry :
  Registry.entryKey old = Registry.entryKey entry ->
  Forall (fun e => Registry.entryKey e <> Registry.entryKey entry) before ->
  Registry.upsert (before ++ old :: after) entry = (before ++ entry :: after)%list.
Proof.
  intros Hold Hbefore. unfold Registry.upsert.
  assert (Hix : Registry.findIndexByKey (Registry.entryKey entry) (before ++ old :: after)
                = Some (length before)).
  { induction Hbefore as [|x rest Hx _ IH]; cbn [app Registry.findIndexByKey length].
    - rewrite Hold, String.eqb_refl. reflexivity.
    - destruct (String.eqb_spec (Registry.entryKey x) (Registry.entryKey entry));
        [contradiction|]. rewrite IH. reflexivity. }
  rewrite Hix. rewrite <- (Nat.add_0_r (length before)), insert_app_r. reflexivity.
Qed.

Lemma upsert_cases l entry :
  (Forall (fun e => Registry.entryKey e <> Registry.entryKey entry) l /\
   Registry.upsert l entry = (l ++ [entry])%list) \/
  (exists before old after,
     l = (before ++ old :: after)%list /\
     Registry.entryKey old = Registry.entryKey entry /\
     Forall (fun e => Registry.entryKey e <> Registry.entryKey entry) before /\
     Registry.upsert l entry = (before ++ entry :: after)%list).
Proof.
  destruct (Registry.findIndexByKey (Registry.entryKey entry) l) as [ix|] eqn:Hix.
  - right. destruct (findIndexByKey_Some _ _ _ Hix) as [(old & Hold & Hkey) Hfirst].
    exists (take ix l), old, (drop (S ix) l).
    assert (Hsplit : l = (take ix l ++ old :: drop (S ix) l)%list)
      by (symmetry; apply take_drop_middle, Hold).
    assert (Hbefore : Forall (fun e => Registry.entryKey e <> Registry.entryKey entry)
                        (take ix l)).
    { apply Forall_lookup_2. intros j e Hj. apply lookup_take_Some in Hj as [Hj Hlt].
      exact (Hfirst j e Hlt Hj). }
    split; [exact Hsplit|]. split; [exact Hkey|]. split; [exact Hbefore|].
    rewrite Hsplit at 1. apply upsert_known; assumption.
  - left. apply findIndexByKey_None in Hix. split; [exact Hix | apply upsert_fresh, Hix].
Qed.

(** X16. [upsertSubreddit] on the list of targets, with the key of an entry
    being [key || subreddit]: when no entry has the key of the new one, it
    is appended; otherwise it takes the place of the first entry with its
    key, all other entries staying where they are.  So upserting the same
    entry twice is upserting it once, keys that were distinct stay
    distinct, and with distinct keys a [deleteSubreddit] of that key
    afterwards leaves the list that deleting it from the original list
    leaves. *)
Theorem upsert_spec (l : list SubEntry) (entry : SubEntry) :
  let key_of := fun e : SubEntry =>
    match e_key e with
    | Some k => if String.eqb k "" then e_subreddit e else k
    | None => e_subreddit e
    end in
  let key := key_of entry in
  (Forall (fun e => key_of e <> key) l ->
   Registry.upsert l entry = (l ++ [entry])%list) /\
  (forall before old after,
     l = (before ++ old :: after)%list ->
     key_of old = key ->
     Forall (fun e => key_of e <> key) before ->
     Registry.upsert l entry = (before ++ entry :: after)%list) /\
  Registry.upsert (Registry.upsert l entry) entry = Registry.upsert l entry /\
  (NoDup (map key_of l) -> NoDup (map key_of (Registry.upsert l entry))) /\
  (NoDup (map key_of l) ->
   Registry.without (Registry.upsert l entry) key
   = List.filter (fun e => negb (String.eqb (key_of e) key)) l).
Proof.
  intros key_of key.
  assert (Hk : forall e, key_of e = Registry.entryKey e).
  { intros e. unfold key_of, Registry.entryKey, Js.truthy.
    destruct (e_key e) as [k|]; [|reflexivity]. destruct (String.eqb k ""); reflexivity. }
  assert (Hmap : forall l0, map key_of l0 = map Registry.entryKey l0)
    by (intros l0; apply map_ext, Hk).
  assert (Hall : forall l0, Forall (fun e => key_of e <> key) l0
                            <-> Forall (fun e => Registry.entryKey e
                                                 <> Registry.entryKey entry) l0).
  { intros l0. unfold key. apply Forall_iff. intros e. rewrite !Hk. reflexivity. }
  split; [intros Hnone; apply upsert_fresh, Hall, Hnone|].
  split.
  { intros before old after -> Hold Hbefore.
    apply upsert_known; [rewrite <- !Hk; exact Hold | apply Hall, Hbefore]. }
  assert (Hfilter : forall l0,
            List.filter (fun e => negb (String.eqb (key_of e) key)) l0
            = Registry.without l0 (Registry.entryKey entry)).
  { intros l0. unfold Registry.without. apply filter_ext. intros e.
    unfold key. rewrite !Hk. reflexivity. }
  rewrite !Hmap, Hfilter. unfold key. rewrite Hk.
  destruct (upsert_cases l entry) as [[Hnone Hup]
    |(before & old & after & -> & Hold & Hbefore & Hup)]; rewrite Hup.
  - split; [|split].
    + assert (Hlen : Forall (fun e => Registry.entryKey e <> Registry.entryKey entry) l)
        by exact Hnone.
      apply (upsert_known l entry [] entry eq_refl Hnone).
    + intros Hnd. rewrite map_app. cbn [map]. apply NoDup_app. split; [exact Hnd|].
      split; [|apply NoDup_singleton].
      intros k Hin Hin'. apply list_elem_of_singleton in Hin'. subst k.
      apply list_elem_of_fmap in Hin as (e & He & Hin).
      rewrite Forall_forall in Hnone. exact (Hnone e Hin (eq_sym He)).
    + intros _. unfold Registry.without. rewrite List.filter_app. cbn [List.filter].
      rewrite String.eqb_refl. cbn [negb]. apply app_nil_r.
  - split; [|split].
    + apply upsert_known; [reflexivity | exact Hbefore].
    + intros Hnd. rewrite map_app in Hnd |- *. cbn [map] in Hnd |- *.
      rewrite <- Hold. exact Hnd.
    + intros _. unfold Registry.without. rewrite !List.filter_app. cbn [List.filter].
      rewrite Hold, String.eqb_refl. reflexivity.
Qed.

(** ** The statements at work on the sample data *)


(** The same session seen from outside: [posted] is recorded, the cooldown
    is set, the posted list stays empty. *)
Lemma session_without_record :
  let r := advertise Sample.env_noid (mkReq (Some "alpha") false false) Sample.fresh in
  fst r = RespResults [Posted "test" None None] /\
  readCooldowns (w_store (snd r)) "alpha" !! "test" = Some (Sample.t0 + 2) /\
  listPostedRecords (w_store (snd r)) "alpha" = [].
Proof. vm_compute. repeat split; reflexivity. Qed.

Lemma dry_run_is_inert_witness :
  exists results,
    fst (advertise Sample.env_ok (mkReq (Some "alpha") true false) Sample.fresh)
    = RespResults results /\
    results !! 0%nat
    = Some (DryRunOk "test" (Some "self") (Some "Join us") None
              (Some (String.append "Come and chat"
                       (String.append (String "010" (String "010" "")) "https://discord.gg/abc")))).
Proof.
  destruct (dry_run_is_inert Sample.env_ok (Some "alpha") false Sample.fresh)
    as (_ & _ & Hdry & _).
  eexists. split; [vm_compute; reflexivity|].
  rewrite (Hdry "alpha" _ 0%nat Sample.self_target eq_refl).
  - vm_compute. reflexivity.
  - vm_compute. reflexivity.
  - vm_compute. reflexivity.
  - vm_compute. discriminate.
  - vm_compute. reflexivity.
Defined.

Lemma posted_status_is_monotone_witness :
  listPostedRecords
    (w_store (perform_all Sample.env_ok
                [MonitorTick; AdvertiseSession (mkReq (Some "alpha") false false); MonitorTick]
                Sample.monitored)) "alpha" !! 2%nat
  = Some Sample.expired_record.
Proof.
  refine (proj2 (proj2 (proj2 (posted_status_is_monotone Sample.env_ok))) _ Sample.monitored
            "alpha" 2%nat Sample.expired_record _ _).
  - vm_compute. reflexivity.
  - discriminate.
Defined.




Lemma monitor_expires_old_records_witness :
  let w' := snd (runRemovalMonitorOnce Sample.env_ok Sample.monitored) in
  listPostedRecords (w_store w') "alpha" !! 0%nat
  = Some (mkPosted (Some "old111") "test" "alpha" (Some (Sample.now_sec - 8 * 86400))
            Expired None) /\
  EvFetchSubmissionInfo "old111" ∉ w_trace w'.
Proof.
  intros w'.
  destruct (monitor_expires_old_records Sample.env_ok Sample.monitored)
    as (Hexpired & (added & Htrace & Hasked)).
  { apply NoDup_singleton. }
  split.
  - apply (Hexpired 0%nat (mkServerRef "alpha" "Alpha") 0%nat Sample.old_record
             (Sample.now_sec - 8 * 86400)).
    + reflexivity.
    + reflexivity.
    + reflexivity.
    + reflexivity.
    + vm_compute. discriminate.
    + vm_compute. reflexivity.
  - subst w'. rewrite Htrace. cbn [w_trace Sample.monitored Sample.world_of app].
    intros Hin. destruct (Hasked "old111" Hin) as (j & s & i & rec & Hj & Hi & Hlive & Hid & Hyoung).
    destruct j as [|j]; [|discriminate Hj]. injection Hj as <-.
    destruct i as [|[|[|i]]]; [| | |discriminate Hi]; injection Hi as <-.
    + specialize (Hyoung (Sample.now_sec - 8 * 86400) eq_refl ltac:(vm_compute; discriminate)).
      vm_compute in Hyoung. apply Hyoung. reflexivity.
    + discriminate Hid.
    + discriminate Hlive.
Defined.

Lemma author_deletion_keeps_live_witness :
  let after := fun E => snd (runRemovalMonitorOnce E Sample.monitored) in
  (* the author deleted the post: the record stays live *)
  listPostedRecords (w_store (after Sample.env_deleted)) "alpha" !! 1%nat
  = Some Sample.young_record /\
  (* a moderator removed it: the record is marked and the removal notified *)
  listPostedRecords (w_store (after Sample.env_moderated)) "alpha" !! 1%nat
  = Some (mkPosted (Some "new222") "test" "alpha" (Some (Sample.now_sec - 3600)) Removed
            (Some (mkRemoval "moderator" Sample.now_sec))) /\
  exists pre rest,
    w_trace (after Sample.env_moderated)
    = (pre ++ EvFetchSubmissionInfo "new222"
           :: EvNotifySquire "cryer.post.removed"
                (PostRemoved "alpha" "test" (Some "new222") "moderator") :: rest)%list.
Proof.
  intros after.
  assert (Hyoung : forall E : Env,
            clock_at E 0 = Sample.t0 ->
            ~ MONITOR_TTL_DAYS * 86400
              < age (clock_at E (w_reads Sample.monitored + 0) / 1000) Sample.young_record).
  { intros E Hclock. cbn [w_reads Sample.monitored Sample.world_of Nat.add]. rewrite Hclock.
    vm_compute. discriminate. }
  split; [|split].
  - destruct (proj2 (proj2 (author_deletion_keeps_live Sample.env_deleted))
                Sample.monitored 0%nat (mkServerRef "alpha" "Alpha") 1%nat Sample.young_record)
      as (pre & rest & _ & Hcases).
    + apply NoDup_singleton.
    + reflexivity.
    + reflexivity.
    + reflexivity.
    + apply Hyoung. reflexivity.
    + reflexivity.
    + destruct (Hcases (mkThing (Some "Deleted")) eq_refl) as [Hdeleted _].
      destruct (Hdeleted eq_refl) as [Hrec _]. exact Hrec.
  - destruct (proj2 (proj2 (author_deletion_keeps_live Sample.env_moderated))
                Sample.monitored 0%nat (mkServerRef "alpha" "Alpha") 1%nat Sample.young_record)
      as (pre & rest & _ & Hcases).
    + apply NoDup_singleton.
    + reflexivity.
    + reflexivity.
    + reflexivity.
    + apply Hyoung. reflexivity.
    + reflexivity.
    + destruct (Hcases (mkThing (Some "moderator")) eq_refl) as [_ Hremoved].
      destruct Hremoved as [Hrec _]; [discriminate | discriminate |]. exact Hrec.
  - destruct (proj2 (proj2 (author_deletion_keeps_live Sample.env_moderated))
                Sample.monitored 0%nat (mkServerRef "alpha" "Alpha") 1%nat Sample.young_record)
      as (pre & rest & Htrace & Hcases).
    + apply NoDup_singleton.
    + reflexivity.
    + reflexivity.
    + reflexivity.
    + apply Hyoung. reflexivity.
    + reflexivity.
    + destruct (Hcases (mkThing (Some "moderator")) eq_refl) as [_ Hremoved].
      destruct Hremoved as [_ [rest' ->]]; [discriminate | discriminate |].
      exists pre, rest'. exact Htrace.
Defined.


Lemma removeSchedule_spec_witness :
  removeSchedule (Sample.store_with 0 [] [] [Sample.due_schedule]) "nope"
  = Sample.store_with 0 [] [] [Sample.due_schedule].
Proof.
  refine (proj1 (proj2 (proj2 (proj2 (proj2 (removeSchedule_spec
            (Sample.store_with 0 [] [] [Sample.due_schedule]) "nope"))))) _).
  repeat constructor. discriminate.
Defined.

Lemma addSchedule_spec_witness :
  removeSchedule
    (w_store (snd (addSchedule Sample.env_ok "alpha" 5 "manual" Sample.fresh)))
    (s_id (fst (addSchedule Sample.env_ok "alpha" 5 "manual" Sample.fresh)))
  = w_store Sample.fresh.
Proof.
  apply (addSchedule_spec Sample.env_ok "alpha" 5 "manual" Sample.fresh).
  constructor.
Defined.

Lemma advertise_schedules_witness :
  st_schedules (w_store (snd (advertise Sample.env_ok (mkReq (Some "alpha") false false)
                                Sample.recent)))
  = st_schedules (w_store Sample.recent).
Proof.
  apply (advertise_schedules Sample.env_ok (mkReq (Some "alpha") false false) Sample.recent).
  reflexivity.
Defined.

Lemma server_tick_removes_due_witness :
  st_schedules
    (w_store (snd (ServerTick.runScheduleTick Sample.env_ok
                     (via_endpoint Sample.env_ok Sample.http_answer) Sample.due_world)))
  = [].
Proof.
  rewrite (server_tick_removes_due Sample.env_ok
             (via_endpoint Sample.env_ok Sample.http_answer) Sample.due_world).
  - vm_compute. reflexivity.
  - apply via_endpoint_keeps_schedules.
  - apply NoDup_singleton.
Defined.


Lemma scheduler_tick_idle_witness :
  Scheduler.runScheduleTick 300000 (Sample.t0 - 20000) Sample.fetch_503 Sample.due_world
  = (tt, Sample.due_world).
Proof.
  apply scheduler_tick_idle. repeat constructor.
Defined.

Lemma scheduler_tick_settles_witness :
  let w1 := snd (Scheduler.runScheduleTick 300000 Sample.t0 Sample.fetch_503 Sample.due_world) in
  Scheduler.runScheduleTick 300000 Sample.t0 Sample.fetch_503 w1 = (tt, w1).
Proof.
  apply (scheduler_tick_settles 300000 Sample.t0 Sample.fetch_503 Sample.due_world).
  - intros req w _. reflexivity.
  - apply NoDup_singleton.
  - reflexivity.
Defined.

Lemma validate_ok_iff_witness :
  validate (mkRules None None)
    (mkPost (Some "self") (Some "Join us") (Some "Come by: https://Discord.gg/abc") None
       None None) = [].
Proof.
  apply (proj2 (validate_ok_iff (mkRules None None)
                  (mkPost (Some "self") (Some "Join us")
                     (Some "Come by: https://Discord.gg/abc") None None None))).
  split.
  - exists "Join us". split; [reflexivity | discriminate].
  - left. split; [reflexivity|]. split.
    + exists "Come by: https://Discord.gg/abc". split; [reflexivity | discriminate].
    + intros _. exists "come by: https://", "abc". left. reflexivity.
Defined.

Lemma merged_post_is_valid_witness :
  validate (mkRules None None)
    (withServerDefaults (mkServerConfig "alpha" "Alpha" 0 (Some Sample.defaults))
       (mkPost (Some "self") None None None None None)) = [].
Proof.
  apply (merged_post_is_valid _ _ Sample.defaults "https://discord.gg/abc").
  - reflexivity.
  - reflexivity.
  - exists "https://", "abc". left. reflexivity.
  - exists "Join us". split; [discriminate | right; reflexivity].
  - left. reflexivity.
Defined.

Lemma session_summary_witness :
  exists counts calls,
    w_trace (snd (advertise Sample.env_flaky (mkReq (Some "alpha") false false) Sample.busy))
    = (EvGetToken :: calls
       ++ [EvNotifySquire "cryer.session.completed"
             (SessionCompleted "alpha" false counts
                [Failed "test" "submit failed: 503";
                 Invalid "other" ["unsupported post type"]])])%list /\
    counts !! "error" = Some 1 /\ counts !! "posted" = Some 1 /\
    counts !! "invalid" = Some 1 /\ counts !! "skipped_cooldown" = None.
Proof.
  destruct (session_summary Sample.env_flaky "alpha" false false Sample.busy
              (snd (advertise Sample.env_flaky (mkReq (Some "alpha") false false) Sample.busy))
              [Failed "test" "submit failed: 503";
               Posted "second" (Some "abc123") (Some "/r/second/abc123");
               Invalid "other" ["unsupported post type"]])
    as (counts & calls & Htrace & _ & Hcounts).
  - vm_compute. reflexivity.
  - exists counts, calls. split; [exact Htrace|].
    repeat split; rewrite Hcounts; reflexivity.
Defined.

Lemma session_then_throttled_witness :
  let w1 := snd (advertise Sample.env_ok (mkReq (Some "alpha") false false) Sample.fresh) in
  exists scheduled,
    fst (advertise Sample.env_ok (mkReq (Some "alpha") true false) w1)
    = RespThrottled (Sample.t0 + 4 + 86400000) scheduled.
Proof.
  intros w1.
  destruct (session_then_throttled Sample.env_ok "alpha" false Sample.fresh
              [Posted "test" (Some "abc123") (Some "/r/test/abc123")]) as [_ Hnext].
  - vm_compute. reflexivity.
  - constructor. reflexivity.
  - apply (Hnext true false).
    + vm_compute. discriminate.
    + vm_compute. reflexivity.
Defined.


Lemma monitor_without_id_witness :
  let w := Sample.world_of (Sample.store_with 0 []
             [mkPosted None "test" "alpha" (Some Sample.now_sec) Live None] []) in
  listPostedRecords (w_store (snd (runRemovalMonitorOnce Sample.env_ok w))) "alpha" !! 0%nat
  = Some (mkPosted None "test" "alpha" (Some Sample.now_sec) Unknown None).
Proof.
  intros w.
  refine (proj1 (monitor_without_id Sample.env_ok w 0 0 (mkServerRef "alpha" "Alpha")
                   (mkPosted None "test" "alpha" (Some Sample.now_sec) Live None)
                   _ _ _ _ _ _)).
  - vm_compute. apply NoDup_singleton.
  - reflexivity.
  - vm_compute. reflexivity.
  - reflexivity.
  - vm_compute. discriminate.
  - reflexivity.
Defined.

Lemma upsert_spec_witness :
  Registry.upsert [Sample.self_target; Sample.bad_target] Sample.self_target
  = [Sample.self_target; Sample.bad_target] /\
  NoDup (map Registry.entryKey
           (Registry.upsert [Sample.self_target; Sample.bad_target] Sample.self_target)).
Proof.
  destruct (upsert_spec [Sample.self_target; Sample.bad_target] Sample.self_target)
    as (_ & Hknown & _ & Hnd & _).
  split.
  - apply (Hknown [] Sample.self_target [Sample.bad_target]).
    + reflexivity.
    + reflexivity.
    + constructor.
  - apply Hnd. vm_compute.
    apply NoDup_cons. split; [|apply NoDup_singleton].
    intros Hin. apply list_elem_of_singleton in Hin. discriminate Hin.
Defined.
